(** * Data quality validator of the healthcare analytics pipeline

    A shallow embedding of [Scripts/data_quality_validator.py]
    (class [ComprehensiveDataQualityValidator]) and the properties of its
    five checks and of its scorer.  Its entry point [main] and the master
    script [Scripts/run_all_analytics.py] that calls it are embedded too,
    what they read and write being left to the environment.

    Modelling conventions.
    - A dataframe is its list of column labels and its list of rows; column
      labels are taken to be distinct, as [pandas.read_csv] produces them.
      A cell is null (NaN, None, NaT), a number, a string, a boolean or a
      timestamp.
    - Python's [int] and numpy's [int64] are [Z].  A float is an exact
      rational, NaN or an infinity: the rounding error of binary64
      arithmetic is not modelled, its special values and Python's
      [round(x, 2)] (round half to even) are.
    - [int / int] raises ZeroDivisionError on a zero divisor, while a numpy
      scalar divided by zero yields NaN or an infinity.  The exceptions of
      pandas that the methods can meet are modelled: KeyError for a label
      that is not a column, TypeError for a string or a timestamp compared
      with a number and for dates that carry a time zone compared with the
      naive [datetime.now()], IndexingError for a mask that does not cover
      the frame.  The behaviour followed is that of pandas 2, whose
      [to_datetime(errors='coerce')] does not raise.
    - The validator's methods run in a state and exception monad over a heap
      of dataframes, so that [df.copy()] and the in-place column assignment
      of [check_consistency] keep their aliasing behaviour.
    - [pandas.to_datetime] and [datetime.now()] belong to the environment
      ([Env]), and so do [pandas.read_csv] and the files of the reports
      ([IO]). *)

From Stdlib Require Import ZArith QArith Qround Qabs Ascii String Lia Lqa.
From stdpp Require Import base option list strings pretty gmap.

(** ** Cells, rows and dataframes *)

Inductive value :=
  | VNull
  | VNum (q : Q)
  | VStr (s : string)
  | VBool (b : bool)
  | VTime (t : Z).

Abbreviation row := (list value).

Record DataFrame := mkDF {
  columns : list string;
  rows : list row
}.

(** [len(df)] *)
Definition len (df : DataFrame) : Z := Z.of_nat (length (rows df)).

Fixpoint col_index (c : string) (cols : list string) : option nat :=
  match cols with
  | [] => None
  | c' :: cols' =>
      if String.eqb c c' then Some 0%nat
      else option_map S (col_index c cols')
  end.

(** [c in df.columns] *)
Definition has_column (c : string) (df : DataFrame) : bool :=
  match col_index c (columns df) with Some _ => true | None => false end.

Definition cell (i : nat) (r : row) : value := nth i r VNull.

(** [df[c]], the cells of column number [i] *)
Definition column_at (i : nat) (df : DataFrame) : list value :=
  map (cell i) (rows df).

Definition mem_string (s : string) (l : list string) : bool :=
  existsb (String.eqb s) l.

(** Python dictionaries keep insertion order; assigning to a key that is
    present replaces its value in place. *)
Fixpoint dict_set {V : Type} (k : string) (v : V) (d : list (string * V))
  : list (string * V) :=
  match d with
  | [] => [(k, v)]
  | (k', v') :: d' =>
      if String.eqb k k' then (k, v) :: d' else (k', v') :: dict_set k v d'
  end.

(** ** Numbers *)

Inductive pyfloat :=
  | Fin (q : Q)
  | NaN
  | Inf (negative : bool).

Inductive exn :=
  | ZeroDivisionError
  | KeyError (missing : list string)
  | TypeError
  | IndexingError.

Inductive res (A : Type) :=
  | Ok (a : A)
  | Raise (e : exn).
Arguments Ok {A} a.
Arguments Raise {A} e.

(** [a / b] on two Python ints *)
Definition py_div (a b : Z) : res Q :=
  if (b =? 0)%Z then Raise ZeroDivisionError
  else Ok (inject_Z a / inject_Z b)%Q.

(** [a / b] when [a] is a numpy integer scalar *)
Definition np_div (a b : Z) : pyfloat :=
  if (b =? 0)%Z then
    if (a =? 0)%Z then NaN else Inf (a <? 0)%Z
  else Fin (inject_Z a / inject_Z b)%Q.

(** [x * 100] *)
Definition fmul100 (x : pyfloat) : pyfloat :=
  match x with
  | Fin q => Fin (q * 100)%Q
  | NaN => NaN
  | Inf s => Inf s
  end.

Definition round_half_even (q : Q) : Z :=
  let f := Qfloor q in
  match (q - inject_Z f ?= 1 # 2)%Q with
  | Lt => f
  | Gt => (f + 1)%Z
  | Eq => if Z.even f then f else (f + 1)%Z
  end.

(** [round(x, 2)] on a finite float *)
Definition round2 (q : Q) : Q := round_half_even (q * 100)%Q # 100.

(** [round(x, 2)] *)
Definition fround2 (x : pyfloat) : pyfloat :=
  match x with
  | Fin q => Fin (round2 q)
  | NaN => NaN
  | Inf s => Inf s
  end.

Definition fadd (x y : pyfloat) : pyfloat :=
  match x, y with
  | Fin a, Fin b => Fin (a + b)%Q
  | NaN, _ | _, NaN => NaN
  | Inf s, Fin _ | Fin _, Inf s => Inf s
  | Inf s, Inf s' => if Bool.eqb s s' then Inf s else NaN
  end.

(** [x / n] for a positive Python int [n] *)
Definition fdiv_pos (x : pyfloat) (n : positive) : pyfloat :=
  match x with
  | Fin q => Fin (q / inject_Z (Z.pos n))%Q
  | NaN => NaN
  | Inf s => Inf s
  end.

Definition Qltb (a b : Q) : bool := negb (Qle_bool b a).

(** [max(0, x)]: Python returns the first argument unless the second one
    compares greater. *)
Definition max0 (q : Q) : Q := if Qltb 0 q then q else 0%Q.

(** ** Column primitives of pandas *)

Definition isnull (v : value) : bool :=
  match v with VNull => true | _ => false end.

Definition notna (v : value) : bool := negb (isnull v).

Definition count_true (m : list bool) : Z :=
  Z.of_nat (length (List.filter (fun b => b) m)).

(** [df[c].isnull().sum()] *)
Definition null_count (col : list value) : Z := count_true (map isnull col).

(** The numeric reading of a cell in a comparison with a number: a boolean
    counts as 0 or 1, a string or a timestamp cannot be compared. *)
Definition num_of (v : value) : option Q :=
  match v with
  | VNum q => Some q
  | VBool b => Some (if b then 1 else 0)%Q
  | _ => None
  end.

Inductive cmp := LT | GT | GE.

Definition cmp_Q (op : cmp) (a b : Q) : bool :=
  match op with
  | LT => Qltb a b
  | GT => Qltb b a
  | GE => Qle_bool b a
  end.

(** One cell of [series < x], [series > x] or [series >= x]: a null compares
    false, a string or a timestamp raises TypeError. *)
Definition compare_cell (op : cmp) (x : Q) (v : value) : res bool :=
  match v with
  | VNull => Ok false
  | _ =>
      match num_of v with
      | Some q => Ok (cmp_Q op q x)
      | None => Raise TypeError
      end
  end.

Fixpoint map_res {A B : Type} (f : A -> res B) (l : list A) : res (list B) :=
  match l with
  | [] => Ok []
  | a :: l' =>
      match f a with
      | Raise e => Raise e
      | Ok b =>
          match map_res f l' with
          | Raise e => Raise e
          | Ok bs => Ok (b :: bs)
          end
      end
  end.

(** [series < x] and the like, a boolean mask or an exception *)
Definition compare_series (op : cmp) (x : Q) (col : list value)
  : res (list bool) :=
  map_res (compare_cell op x) col.

Definition mask_or (m1 m2 : list bool) : list bool :=
  map (fun p => orb (fst p) (snd p)) (combine m1 m2).

Definition mask_and (m1 m2 : list bool) : list bool :=
  map (fun p => andb (fst p) (snd p)) (combine m1 m2).

(** [df[mask]], the rows selected by a boolean mask *)
Definition select {A : Type} (m : list bool) (l : list A) : list A :=
  map snd (List.filter fst (combine m l)).

(** Python's [==] on cells, with pandas' convention that nulls match each
    other in [duplicated] and [isin]. *)
Definition value_eqb (a b : value) : bool :=
  match a, b with
  | VNull, VNull => true
  | VStr s, VStr s' => String.eqb s s'
  | VTime t, VTime t' => (t =? t')%Z
  | _, _ =>
      match num_of a, num_of b with
      | Some x, Some y => Qeq_bool x y
      | _, _ => false
      end
  end.

Fixpoint key_eqb (k k' : list value) : bool :=
  match k, k' with
  | [], [] => true
  | a :: l, b :: l' => value_eqb a b && key_eqb l l'
  | _, _ => false
  end.

(** The cells of a row at the given column numbers *)
Definition row_key (subset : list nat) (r : row) : list value :=
  map (fun i => cell i r) subset.

Definition occurrences (subset : list nat) (rs : list row) (r : row) : nat :=
  length (List.filter (fun r' => key_eqb (row_key subset r) (row_key subset r')) rs).

(** The mask of [duplicated(keep=False)] over a non-empty frame: a row is
    marked when its key occurs at least twice. *)
Definition duplicated_mask (subset : list nat) (rs : list row) : list bool :=
  map (fun r => (2 <=? occurrences subset rs r)%nat) rs.

(** [series.isin(values)] on one cell *)
Definition isin (vals : list value) (v : value) : bool :=
  existsb (value_eqb v) vals.

(** [series.unique()], the distinct values in order of first appearance *)
Fixpoint unique_from (seen : list value) (l : list value) : list value :=
  match l with
  | [] => []
  | v :: l' =>
      if existsb (value_eqb v) seen then unique_from seen l'
      else v :: unique_from (v :: seen) l'
  end.

Definition unique (l : list value) : list value := unique_from [] l.

(** [series.nunique()], nulls dropped *)
Definition nunique (col : list value) : Z :=
  Z.of_nat (length (unique (List.filter notna col))).

(** ** Dates: the environment *)

(** [pandas.to_datetime] on one non-null cell ([None] when it cannot be
    parsed, with the message of the exception it then raises), the instant
    returned by [datetime.now()], and whether the column that
    [pandas.to_datetime] makes of a column of dates carries a time zone, as
    it does when the dates are written with a UTC offset. *)
Record Env := mkEnv {
  now : Z;
  parse_datetime : value -> option Z;
  parse_error : value -> string;
  tz_aware : list value -> bool
}.

Definition parse_cell (env : Env) (v : value) : option value :=
  match v with
  | VNull => Some VNull
  | VTime t => Some (VTime t)
  | _ => option_map VTime (parse_datetime env v)
  end.

(** [pd.to_datetime(series)]: the message of the first failure, if any *)
Fixpoint to_datetime_error (env : Env) (col : list value) : option string :=
  match col with
  | [] => None
  | v :: col' =>
      match parse_cell env v with
      | None => Some (parse_error env v)
      | Some _ => to_datetime_error env col'
      end
  end.

(** [pd.to_datetime(series, errors='coerce')] *)
Definition to_datetime_coerce (env : Env) (col : list value) : list value :=
  map (fun v => default VNull (parse_cell env v)) col.

(** One cell of [series > datetime.now()] on a column of timestamps *)
Definition after_now (env : Env) (v : value) : bool :=
  match v with
  | VTime t => (now env <? t)%Z
  | _ => false
  end.

(** [series > datetime.now()] on the column [parsed] that was parsed from
    [dates]: [datetime.now()] is naive, and comparing it with a column that
    carries a time zone raises TypeError. *)
Definition after_now_series (env : Env) (dates parsed : list value)
  : res (list bool) :=
  if tz_aware env dates then Raise TypeError
  else Ok (map (after_now env) parsed).

(** ** Descriptive statistics *)

Fixpoint insert_sorted (x : Q) (l : list Q) : list Q :=
  match l with
  | [] => [x]
  | y :: l' => if Qle_bool x y then x :: l else y :: insert_sorted x l'
  end.

Definition sort_Q (l : list Q) : list Q := fold_right insert_sorted [] l.

(** [series.quantile(p)] with linear interpolation, over the non-null
    values [xs] of the series (at least one) *)
Definition quantile (p : Q) (xs : list Q) : Q :=
  let s := sort_Q xs in
  let pos := (inject_Z (Z.of_nat (length s - 1)) * p)%Q in
  let lo := Qfloor pos in
  let a := nth (Z.to_nat lo) s 0%Q in
  let b := nth (S (Z.to_nat lo)) s a in
  (a + (b - a) * (pos - inject_Z lo))%Q.

Definition sum_Q (xs : list Q) : Q := fold_right Qplus 0%Q xs.

Definition mean (xs : list Q) : Q :=
  (sum_Q xs / inject_Z (Z.of_nat (length xs)))%Q.

(** Sample variance (one degree of freedom removed), for two values or more *)
Definition variance (xs : list Q) : Q :=
  let m := mean xs in
  (sum_Q (map (fun x => (x - m) * (x - m)) xs)
   / inject_Z (Z.of_nat (length xs - 1)))%Q.

(** [round(sqrt(v), 2)] for [0 <= v], computed on integers: with
    [s = floor (sqrt (10000 v))], the root is compared with [s + 1/2]. *)
Definition round2_sqrt (v : Q) : Q :=
  let x := (v * 10000)%Q in
  let s := Z.sqrt (Qfloor x) in
  let half := (inject_Z (s * s + s) + (1 # 4))%Q in
  let r := match (x ?= half)%Q with
           | Lt => s
           | Gt => (s + 1)%Z
           | Eq => if Z.even s then s else (s + 1)%Z
           end in
  r # 100.

(** [round(float(series.std()), 2)] *)
Definition std_round2 (xs : list Q) : pyfloat :=
  match xs with
  | [] | [_] => NaN
  | _ => Fin (round2_sqrt (variance xs))
  end.

Definition min_Q (xs : list Q) : Q := hd 0%Q (sort_Q xs).
Definition max_Q (xs : list Q) : Q := List.last (sort_Q xs) 0%Q.

(** The non-null values of a numeric series; a quantile of a series holding
    strings, booleans or timestamps raises TypeError. *)
Fixpoint numeric_values (col : list value) : res (list Q) :=
  match col with
  | [] => Ok []
  | VNull :: col' => numeric_values col'
  | VNum q :: col' =>
      match numeric_values col' with
      | Ok qs => Ok (q :: qs)
      | Raise e => Raise e
      end
  | _ :: _ => Raise TypeError
  end.

(** ** Text of the messages *)

Definition two_digits (z : Z) : string :=
  if (z <? 10)%Z then "0" +:+ pretty z else pretty z.

(** [f"{x:.2f}"] *)
Definition format_2f (q : Q) : string :=
  let r := round_half_even (Qabs q * 100)%Q in
  (if Qltb q 0 then "-" else "")
  +:+ pretty (r / 100)%Z +:+ "." +:+ two_digits (r mod 100)%Z.

(** [round(x, 4)] on a finite float *)
Definition round4 (q : Q) : Q := round_half_even (q * 10000)%Q # 10000.

(** ** Configuration, recommendations and result records *)

Record Config := mkConfig {
  critical_columns : list string;
  numeric_columns : list string;
  categorical_columns : list string;
  expected_ranges : list (string * (Z * Z));
  valid_values : list (string * list value)
}.

Definition _default_config : Config := {|
  critical_columns := ["date"; "patient_id"; "patient_age"; "patient_waittime"];
  numeric_columns := ["patient_age"; "patient_waittime"; "patient_sat_score"];
  categorical_columns := ["patient_gender"; "patient_race"; "department_referral"];
  expected_ranges :=
    [("patient_age", (0, 120)%Z);
     ("patient_waittime", (0, 300)%Z);
     ("patient_sat_score", (0, 10)%Z)];
  valid_values :=
    [("patient_gender", [VStr "M"; VStr "F"]);
     ("patient_admin_flag", [VStr "True"; VStr "False"; VBool true; VBool false]);
     ("Moment", [VStr "AM"; VStr "PM"])]
|}.

Inductive Severity := HIGH | MEDIUM | LOW.

Record Recommendation := mkRec {
  severity : Severity;
  category : string;
  issue : string;
  recommendation : string
}.

Definition is_high (r : Recommendation) : bool :=
  match severity r with HIGH => true | _ => false end.

Record MissingByColumn := mkMissingByColumn {
  mc_count : Z;
  mc_percentage : pyfloat;
  mc_is_critical : bool
}.

Record CountPct := mkCountPct {
  cp_count : Z;
  cp_percentage : pyfloat
}.

Record CompletenessResult := mkCompleteness {
  total_records : Z;
  total_columns : Z;
  missing_by_column : list (string * MissingByColumn);
  missing_by_record : CountPct;
  completeness_score : pyfloat
}.

Record UniqueConstraint := mkUniqueConstraint {
  uc_unique_values : Z;
  uc_total_records : Z;
  uc_uniqueness_ratio : pyfloat
}.

Record UniquenessResult := mkUniqueness {
  exact_duplicates : CountPct;
  id_date_duplicates : CountPct;
  unique_constraints : list (string * UniqueConstraint)
}.

Record RangeViolation := mkRangeViolation {
  rv_expected_range : string;
  rv_violations : Z;
  rv_percentage : pyfloat
}.

Record ValueViolation := mkValueViolation {
  vv_expected_values : list value;
  vv_violations : Z;
  vv_invalid_values : list value
}.

Inductive FormatStatus :=
  | Valid
  | Invalid (error : string).

Record ValidityResult := mkValidity {
  range_violations : list (string * RangeViolation);
  value_violations : list (string * ValueViolation);
  format_violations : option FormatStatus
}.

Record ConsistencyResult := mkConsistency {
  future_dates : option CountPct;
  high_sat_high_wait : option CountPct;
  pediatric_in_adult_dept : option Z
}.

Record Outliers := mkOutliers {
  out_count : Z;
  out_percentage : pyfloat;
  out_lower_bound : pyfloat;
  out_upper_bound : pyfloat;
  out_Q1 : pyfloat;
  out_Q3 : pyfloat;
  out_IQR : pyfloat
}.

Record Summary := mkSummary {
  sum_mean : pyfloat;
  sum_median : pyfloat;
  sum_std : pyfloat;
  sum_min : pyfloat;
  sum_max : pyfloat
}.

Record AccuracyResult := mkAccuracy {
  outliers : list (string * Outliers);
  statistical_summary : list (string * Summary)
}.

Record Scores := mkScores {
  s_completeness : pyfloat;
  s_uniqueness : pyfloat;
  s_validity : pyfloat;
  s_consistency : pyfloat;
  s_accuracy : pyfloat
}.

Record OverallResult := mkOverall {
  quality_score : pyfloat;
  dimension_scores : Scores;
  total_recommendations : Z;
  critical_issues : Z
}.

(** [self.validation_results], a dictionary keyed by dimension *)
Record Results := mkResults {
  completeness : option CompletenessResult;
  uniqueness : option UniquenessResult;
  validity : option ValidityResult;
  consistency : option ConsistencyResult;
  accuracy : option AccuracyResult;
  overall : option OverallResult
}.

Definition no_results : Results := mkResults None None None None None None.

(** ** The validator object and the heap *)

Definition loc := nat.

Record Validator := mkValidator {
  self_df : loc;
  self_original_df : loc;
  self_config : Config;
  validation_results : Results;
  recommendations : list Recommendation
}.

Record State := mkState {
  heap : gmap loc DataFrame;
  self : Validator
}.

Definition empty_frame : DataFrame := mkDF [] [].

Definition deref (h : gmap loc DataFrame) (l : loc) : DataFrame :=
  default empty_frame (h !! l).

(** ** The monad of the methods: state and exceptions *)

Definition M (A : Type) : Type := State -> State * res A.

Definition ret {A : Type} (a : A) : M A := fun s => (s, Ok a).

Definition bind {A B : Type} (m : M A) (k : A -> M B) : M B :=
  fun s =>
    match m s with
    | (s', Ok a) => k a s'
    | (s', Raise e) => (s', Raise e)
    end.

Definition lift {A : Type} (r : res A) : M A := fun s => (s, r).

Declare Scope M_scope.
Delimit Scope M_scope with M.
Bind Scope M_scope with M.
Notation "x ← y ; z" := (bind y (fun x => z))
  (at level 20, y at level 100, z at level 200, only parsing) : M_scope.
Notation "x ;; z" := (bind x (fun _ => z))
  (at level 100, z at level 200, only parsing, right associativity) : M_scope.

(** [for a in l: acc = body(acc, a)] *)
Fixpoint for_fold {A B : Type} (body : B -> A -> M B) (l : list A) (acc : B)
  : M B :=
  match l with
  | [] => ret acc
  | a :: l' => bind (body acc a) (for_fold body l')
  end.

(** [self.df] *)
Definition get_df : M DataFrame :=
  fun s => (s, Ok (deref (heap s) (self_df (self s)))).

Definition get_config : M Config :=
  fun s => (s, Ok (self_config (self s))).

Definition get_results : M Results :=
  fun s => (s, Ok (validation_results (self s))).

Definition get_recommendations : M (list Recommendation) :=
  fun s => (s, Ok (recommendations (self s))).

(** [self.recommendations.append(r)] *)
Definition append_recommendation (r : Recommendation) : M unit :=
  fun s =>
    let v := self s in
    (mkState (heap s)
       (mkValidator (self_df v) (self_original_df v) (self_config v)
          (validation_results v) (recommendations v ++ [r])),
     Ok tt).

(** [self.validation_results[...] = ...] *)
Definition update_results (f : Results -> Results) : M unit :=
  fun s =>
    let v := self s in
    (mkState (heap s)
       (mkValidator (self_df v) (self_original_df v) (self_config v)
          (f (validation_results v)) (recommendations v)),
     Ok tt).

(** [df[c] = values] on a frame: an existing column is overwritten, a new
    one is appended. *)
Definition set_column (c : string) (vals : list value) (df : DataFrame)
  : DataFrame :=
  match col_index c (columns df) with
  | Some i =>
      mkDF (columns df)
        (map (fun p => <[i := snd p]> (fst p)) (combine (rows df) vals))
  | None =>
      mkDF (columns df ++ [c])
        (map (fun p => fst p ++ [snd p]) (combine (rows df) vals))
  end.

(** [self.df[c] = values], in place on the object [self.df] points to *)
Definition assign_column (c : string) (vals : list value) : M unit :=
  fun s =>
    let l := self_df (self s) in
    (mkState (<[l := set_column c vals (deref (heap s) l)]> (heap s)) (self s),
     Ok tt).

(** [df[c]] for a label known to be present: the checks read a column under
    a test of its presence, and [duplicated] raises KeyError for the labels
    of its subset that are absent.  On an absent label, which is never read,
    it is the empty column. *)
Definition column (c : string) (df : DataFrame) : list value :=
  match col_index c (columns df) with
  | Some i => column_at i df
  | None => []
  end.

Definition when (b : bool) (m : M unit) : M unit :=
  if b then m else ret tt.

(** ** Frame-level primitives *)

(** [df.empty]: no row or no column *)
Definition df_empty (df : DataFrame) : bool :=
  match rows df, columns df with
  | [], _ | _, [] => true
  | _, _ => false
  end.

Definition all_columns (df : DataFrame) : list nat :=
  seq 0 (length (columns df)).

(** [df.duplicated(subset=..., keep=False)]: an empty frame yields an empty
    mask before the labels of [subset] are looked at; a label that is not a
    column raises KeyError. *)
Definition duplicated (subset : option (list string)) (df : DataFrame)
  : res (list bool) :=
  if df_empty df then Ok []
  else
    match subset with
    | None => Ok (duplicated_mask (all_columns df) (rows df))
    | Some cs =>
        match List.filter (fun c => negb (has_column c df)) cs with
        | [] =>
            Ok (duplicated_mask
                  (omap (fun c => col_index c (columns df)) cs) (rows df))
        | missing => Raise (KeyError missing)
        end
    end.

(** [df[mask]] for a boolean series: a mask that does not cover the index of
    the frame cannot be aligned. *)
Definition getitem_mask (mask : list bool) (df : DataFrame) : res (list row) :=
  if (length mask =? length (rows df))%nat then Ok (select mask (rows df))
  else Raise IndexingError.

Definition sum_Z (l : list Z) : Z := fold_right Z.add 0%Z l.

Definition row_has_null (df : DataFrame) (r : row) : bool :=
  existsb (fun i => isnull (cell i r)) (all_columns df).

(** [round((a / b) * 100, 2)] on Python ints *)
Definition percentage (a b : Z) : res pyfloat :=
  match py_div a b with
  | Ok q => Ok (Fin (round2 (q * 100)%Q))
  | Raise e => Raise e
  end.

Definition len_list {A : Type} (l : list A) : Z := Z.of_nat (length l).

Local Open Scope M_scope.
Local Open Scope string_scope.

(** ** Completeness *)

Definition check_completeness : M CompletenessResult :=
  df ← get_df;
  cfg ← get_config;
  missing_by_column ←
    for_fold (fun acc col =>
      let missing_count := null_count (column col df) in
      let missing_pct := fmul100 (np_div missing_count (len df)) in
      let is_critical := mem_string col (critical_columns cfg) in
      let acc' :=
        dict_set col
          (mkMissingByColumn missing_count (fround2 missing_pct) is_critical)
          acc in
      when (is_critical && (0 <? missing_count)%Z)
        (append_recommendation
           (mkRec HIGH "Completeness"
              ("Critical column '" +:+ col +:+ "' has "
               +:+ pretty missing_count +:+ " missing values")
              ("Investigate and fill missing values in " +:+ col)));;
      ret acc')
      (columns df) [];
  let records_with_missing := count_true (map (row_has_null df) (rows df)) in
  let missing_by_record :=
    mkCountPct records_with_missing
      (fround2 (fmul100 (np_div records_with_missing (len df)))) in
  let total_cells := (len df * len_list (columns df))%Z in
  let missing_cells :=
    sum_Z (map (fun i => null_count (column_at i df)) (all_columns df)) in
  let completeness_score :=
    fmul100 (np_div (total_cells - missing_cells) total_cells) in
  let results :=
    mkCompleteness (len df) (len_list (columns df)) missing_by_column
      missing_by_record (fround2 completeness_score) in
  update_results (fun r =>
    mkResults (Some results) (uniqueness r) (validity r) (consistency r)
      (accuracy r) (overall r));;
  ret results.

(** ** Uniqueness *)

Definition check_uniqueness : M UniquenessResult :=
  df ← get_df;
  mask ← lift (duplicated None df);
  exact ← lift (getitem_mask mask df);
  exact_pct ← lift (percentage (len_list exact) (len df));
  when (0 <? len_list exact)%Z
    (append_recommendation
       (mkRec MEDIUM "Uniqueness"
          ("Found " +:+ pretty (len_list exact) +:+ " exact duplicate records")
          "Review and remove duplicate records"));;
  mask' ← lift (duplicated (Some ["patient_id"; "date"]) df);
  id_date ← lift (getitem_mask mask' df);
  id_date_pct ← lift (percentage (len_list id_date) (len df));
  when (0 <? len_list id_date)%Z
    (append_recommendation
       (mkRec HIGH "Uniqueness"
          ("Found " +:+ pretty (len_list id_date)
           +:+ " records with duplicate patient_id and date")
          "Investigate why same patient has multiple records on same date"));;
  unique_constraints ←
    for_fold (fun acc col =>
      if has_column col df then
        let unique_count := nunique (column col df) in
        let total_count := len df in
        ratio ← lift (py_div unique_count total_count);
        ret (dict_set col
               (mkUniqueConstraint unique_count total_count
                  (Fin (round4 ratio)))
               acc)
      else ret acc)
      ["patient_id"; "patient_gender"; "patient_race"; "department_referral"]
      [];
  let results :=
    mkUniqueness (mkCountPct (len_list exact) exact_pct)
      (mkCountPct (len_list id_date) id_date_pct) unique_constraints in
  update_results (fun r =>
    mkResults (completeness r) (Some results) (validity r) (consistency r)
      (accuracy r) (overall r));;
  ret results.

(** ** Validity *)

(** The rows of [df[(df[col] < min_val) | (df[col] > max_val)]] *)
Definition out_of_range (lo hi : Q) (col : list value) (df : DataFrame)
  : res (list row) :=
  match compare_series LT lo col with
  | Raise e => Raise e
  | Ok below =>
      match compare_series GT hi col with
      | Raise e => Raise e
      | Ok above => Ok (select (mask_or below above) (rows df))
      end
  end.

Definition check_validity (env : Env) : M ValidityResult :=
  df ← get_df;
  cfg ← get_config;
  range_violations ←
    for_fold (fun acc entry =>
      let col := fst entry in
      let min_val := fst (snd entry) in
      let max_val := snd (snd entry) in
      if has_column col df then
        violations ←
          lift (out_of_range (inject_Z min_val) (inject_Z max_val)
                  (column col df) df);
        pct ← lift (percentage (len_list violations) (len df));
        let acc' :=
          dict_set col
            (mkRangeViolation (pretty min_val +:+ "-" +:+ pretty max_val)
               (len_list violations) pct)
            acc in
        when (0 <? len_list violations)%Z
          (append_recommendation
             (mkRec MEDIUM "Validity"
                (pretty (len_list violations) +:+ " records in '" +:+ col
                 +:+ "' outside range " +:+ pretty min_val +:+ "-"
                 +:+ pretty max_val)
                ("Validate and correct out-of-range values in " +:+ col)));;
        ret acc'
      else ret acc)
      (expected_ranges cfg) [];
  value_violations ←
    for_fold (fun acc entry =>
      let col := fst entry in
      let valid := snd entry in
      if has_column col df then
        let mask :=
          map (fun v => negb (isin valid v) && notna v) (column col df) in
        let invalid := select mask (column col df) in
        let acc' :=
          dict_set col
            (mkValueViolation valid (len_list invalid)
               (if (0 <? len_list invalid)%Z then unique invalid else []))
            acc in
        when (0 <? len_list invalid)%Z
          (append_recommendation
             (mkRec MEDIUM "Validity"
                (pretty (len_list invalid) +:+ " records in '" +:+ col
                 +:+ "' have invalid values")
                ("Standardize values in " +:+ col
                 +:+ " to match expected categories")));;
        ret acc'
      else ret acc)
      (valid_values cfg) [];
  format_violations ←
    (if has_column "date" df then
       match to_datetime_error env (column "date" df) with
       | None => ret (Some Valid)
       | Some e =>
           append_recommendation
             (mkRec HIGH "Validity"
                ("Date format issues detected: " +:+ e)
                "Standardize date format to YYYY-MM-DD");;
           ret (Some (Invalid e))
       end
     else ret None);
  let results :=
    mkValidity range_violations value_violations format_violations in
  update_results (fun r =>
    mkResults (completeness r) (uniqueness r) (Some results) (consistency r)
      (accuracy r) (overall r));;
  ret results.

(** ** Consistency *)

Definition check_consistency (env : Env) : M ConsistencyResult :=
  df0 ← get_df;
  future_dates ←
    (if has_column "date" df0 then
       assign_column "date_parsed" (to_datetime_coerce env (column "date" df0));;
       df ← get_df;
       later ←
         lift (after_now_series env (column "date" df0)
                 (column "date_parsed" df));
       let future := select later (rows df) in
       pct ← lift (percentage (len_list future) (len df));
       when (0 <? len_list future)%Z
         (append_recommendation
            (mkRec HIGH "Consistency"
               ("Found " +:+ pretty (len_list future)
                +:+ " records with future dates")
               "Correct dates that are in the future"));;
       ret (Some (mkCountPct (len_list future) pct))
     else ret None);
  df ← get_df;
  high_sat_high_wait ←
    (if has_column "patient_sat_score" df && has_column "patient_waittime" df
     then
       sat ← lift (compare_series GE 8 (column "patient_sat_score" df));
       wait ← lift (compare_series GE 60 (column "patient_waittime" df));
       let suspicious := select (mask_and sat wait) (rows df) in
       pct ← lift (percentage (len_list suspicious) (len df));
       ret (Some (mkCountPct (len_list suspicious) pct))
     else ret None);
  pediatric_in_adult_dept ←
    (if has_column "patient_age" df && has_column "department_referral" df
     then
       let adult_only_depts := [VStr "Cardiology"; VStr "Gastroenterology"] in
       young ← lift (compare_series LT 13 (column "patient_age" df));
       let pediatric_in_adult :=
         select
           (mask_and young
              (map (isin adult_only_depts) (column "department_referral" df)))
           (rows df) in
       ret (Some (len_list pediatric_in_adult))
     else ret None);
  let results :=
    mkConsistency future_dates high_sat_high_wait pediatric_in_adult_dept in
  update_results (fun r =>
    mkResults (completeness r) (uniqueness r) (validity r) (Some results)
      (accuracy r) (overall r));;
  ret results.

(** ** Accuracy *)

Definition check_accuracy : M AccuracyResult :=
  df ← get_df;
  cfg ← get_config;
  results ←
    for_fold (fun acc col =>
      if has_column col df && existsb notna (column col df) then
        xs ← lift (numeric_values (column col df));
        let Q1 := quantile (1 # 4) xs in
        let Q3 := quantile (3 # 4) xs in
        let IQR := (Q3 - Q1)%Q in
        let lower_bound := (Q1 - (3 # 2) * IQR)%Q in
        let upper_bound := (Q3 + (3 # 2) * IQR)%Q in
        found ← lift (out_of_range lower_bound upper_bound (column col df) df);
        pct ←
          lift (percentage (len_list found)
                  (len_list (List.filter notna (column col df))));
        let acc' :=
          mkAccuracy
            (dict_set col
               (mkOutliers (len_list found) pct
                  (Fin (round2 lower_bound)) (Fin (round2 upper_bound))
                  (Fin (round2 Q1)) (Fin (round2 Q3)) (Fin (round2 IQR)))
               (outliers acc))
            (dict_set col
               (mkSummary (Fin (round2 (mean xs)))
                  (Fin (round2 (quantile (1 # 2) xs))) (std_round2 xs)
                  (Fin (round2 (min_Q xs))) (Fin (round2 (max_Q xs))))
               (statistical_summary acc)) in
        when (0 <? len_list found)%Z
          (append_recommendation
             (mkRec LOW "Accuracy"
                ("Found " +:+ pretty (len_list found)
                 +:+ " statistical outliers in '" +:+ col +:+ "'")
                ("Review outliers in " +:+ col +:+ " (outside "
                 +:+ format_2f lower_bound +:+ "-" +:+ format_2f upper_bound
                 +:+ ")")));;
        ret acc'
      else ret acc)
      (numeric_columns cfg) (mkAccuracy [] []);
  update_results (fun r =>
    mkResults (completeness r) (uniqueness r) (validity r) (consistency r)
      (Some results) (overall r));;
  ret results.

(** ** The scorer *)

Definition _calculate_validity_score : M pyfloat :=
  r ← get_results;
  df ← get_df;
  match validity r with
  | None => ret (Fin 100)
  | Some v =>
      let total_violations :=
        (sum_Z (map (fun e => rv_violations (snd e)) (range_violations v))
         + sum_Z (map (fun e => vv_violations (snd e)) (value_violations v)))%Z
      in
      rate ← lift (py_div total_violations (len df));
      ret (Fin (max0 (100 - rate * 100)))
  end.

Definition _calculate_consistency_score : M pyfloat :=
  r ← get_results;
  df ← get_df;
  match consistency r with
  | None => ret (Fin 100)
  | Some c =>
      let issues :=
        match future_dates c with
        | Some f => cp_count f
        | None => 0%Z
        end in
      rate ← lift (py_div issues (len df));
      ret (Fin (max0 (100 - rate * 100)))
  end.

Definition _calculate_accuracy_score : M pyfloat :=
  r ← get_results;
  df ← get_df;
  match accuracy r with
  | None => ret (Fin 100)
  | Some a =>
      let total_outliers :=
        sum_Z (map (fun e => out_count (snd e)) (outliers a)) in
      rate ← lift (py_div total_outliers (len df));
      ret (Fin (max0 (100 - rate * 100 * (1 # 2))))
  end.

(** [100 - x] *)
Definition fsub100 (x : pyfloat) : pyfloat :=
  match x with
  | Fin q => Fin (100 - q)
  | NaN => NaN
  | Inf s => Inf (negb s)
  end.

(** [sum(scores.values()) / len(scores)] *)
Definition mean_of_scores (s : Scores) : pyfloat :=
  fdiv_pos
    (fadd (fadd (fadd (fadd (fadd (Fin 0) (s_completeness s))
                         (s_uniqueness s))
                   (s_validity s))
             (s_consistency s))
       (s_accuracy s))
    5.

(** Reading a key of [self.validation_results] that was never written *)
Definition lookup_result {A : Type} (k : string) (o : option A) : M A :=
  match o with
  | Some a => ret a
  | None => lift (Raise (KeyError [k]))
  end.

Definition run_all_validations (env : Env) : M Results :=
  check_completeness;;
  check_uniqueness;;
  check_validity env;;
  check_consistency env;;
  check_accuracy;;
  r ← get_results;
  c ← lookup_result "completeness" (completeness r);
  u ← lookup_result "uniqueness" (uniqueness r);
  validity_score ← _calculate_validity_score;
  consistency_score ← _calculate_consistency_score;
  accuracy_score ← _calculate_accuracy_score;
  let scores :=
    mkScores (completeness_score c)
      (fsub100 (cp_percentage (exact_duplicates u)))
      validity_score consistency_score accuracy_score in
  let overall_score := mean_of_scores scores in
  recs ← get_recommendations;
  update_results (fun r =>
    mkResults (completeness r) (uniqueness r) (validity r) (consistency r)
      (accuracy r)
      (Some (mkOverall (fround2 overall_score) scores (len_list recs)
               (len_list (List.filter is_high recs)))));;
  get_results.

(** ** Construction *)

Definition fresh_loc (h : gmap loc DataFrame) : loc := fresh (dom h).

(** [df.copy()]: a new object holding the same rows and labels *)
Definition copy (h : gmap loc DataFrame) (l : loc) : gmap loc DataFrame * loc :=
  let l' := fresh_loc h in (<[l' := deref h l]> h, l').

(** [ComprehensiveDataQualityValidator(df, config)] on the heap [h], where
    [df] is the caller's reference to its dataframe *)
Definition __init__ (h : gmap loc DataFrame) (df : loc) (config : option Config)
  : State :=
  let (h1, l1) := copy h df in
  let (h2, l2) := copy h1 df in
  mkState h2
    (mkValidator l1 l2 (default (_default_config) config) no_results []).

(** ** A sample environment and sample datasets

    ISO calendar dates [YYYY-MM-DD] are read as the number [YYYYMMDD], which
    preserves their order, and carry no time zone; the same dates written at
    midnight UTC, [YYYY-MM-DDT00:00:00Z], are read as the same number and
    make a column that carries a time zone.  Numbers are read as instants;
    anything else is rejected. *)

Definition digit (a : ascii) : option Z :=
  let n := nat_of_ascii a in
  if (48 <=? n)%nat && (n <=? 57)%nat then Some (Z.of_nat (n - 48)) else None.

Fixpoint digits (acc : Z) (l : list ascii) : option Z :=
  match l with
  | [] => Some acc
  | a :: l' =>
      match digit a with
      | Some d => digits (10 * acc + d)%Z l'
      | None => None
      end
  end.

Definition iso_date (s : string) : option Z :=
  match list_ascii_of_string s with
  | [y1; y2; y3; y4; "-"%char; m1; m2; "-"%char; d1; d2] =>
      digits 0 [y1; y2; y3; y4; m1; m2; d1; d2]
  | _ => None
  end.

Definition utc_suffix : string := "T00:00:00Z".

Definition iso_date_utc (s : string) : option Z :=
  if (String.length s =? 20)%nat
     && String.eqb (String.substring 10 10 s) utc_suffix
  then iso_date (String.substring 0 10 s)
  else None.

Definition utc_dated (v : value) : bool :=
  match v with
  | VStr s => match iso_date_utc s with Some _ => true | None => false end
  | _ => false
  end.

Definition sample_env (today : Z) : Env :=
  mkEnv today
    (fun v =>
       match v with
       | VStr s =>
           match iso_date s with
           | Some t => Some t
           | None => iso_date_utc s
           end
       | VNum q => Some (Qfloor q)
       | _ => None
       end)
    (fun _ => "Unknown datetime string format")
    (existsb utc_dated).

Definition visit_columns : list string :=
  ["date"; "patient_id"; "patient_gender"; "patient_age"; "patient_sat_score";
   "patient_race"; "patient_admin_flag"; "patient_waittime";
   "department_referral"].

Definition visit (date id gender : string) (age : Z) (sat : option Z)
  (race : string) (admin : bool) (wait : Z) (dept : option string) : row :=
  [VStr date; VStr id; VStr gender; VNum (inject_Z age);
   match sat with Some s => VNum (inject_Z s) | None => VNull end;
   VStr race; VBool admin; VNum (inject_Z wait);
   match dept with Some d => VStr d | None => VNull end].

Definition sample_visits : DataFrame :=
  mkDF visit_columns
    [visit "2020-03-20" "145-39-5406" "M" 69 (Some 10%Z) "White" false 39 None;
     visit "2020-06-15" "316-34-3057" "F" 4 None "Asian" true 27
       (Some "Cardiology");
     visit "2020-06-20" "897-46-3852" "F" 56 (Some 9%Z) "White" true 65
       (Some "General Practice");
     visit "2020-02-04" "358-31-9711" "X" 121 (Some 2%Z) "Black" false 310 None;
     visit "2020-03-20" "145-39-5406" "M" 69 (Some 10%Z) "White" false 39 None].

Definition empty_visits : DataFrame := mkDF visit_columns [].

(** A heap in which the caller holds one dataframe, at location 0 *)
Definition caller_heap (df : DataFrame) : gmap loc DataFrame := {[ 0%nat := df ]}.

(** Outcome of constructing a validator over [df] and running it *)
Definition validate (env : Env) (df : DataFrame) (config : option Config)
  : State * res Results :=
  run_all_validations env (__init__ (caller_heap df) 0%nat config).

(** Ages at and around the bounds of the default range, and a missing one *)
Definition boundary_ages : DataFrame :=
  mkDF ["patient_age"]
    [[VNum 0]; [VNum 120]; [VNum (-1)]; [VNum 121]; [VNull]].

(** The results of validating the sample visits *)
Definition sample_results : Results :=
  match snd (validate (sample_env 20261104) sample_visits None) with
  | Ok r => r
  | Raise _ => no_results
  end.

(** ** The entry point

    Reading the dataset and writing the reports belong to the environment:
    [read_csv] is the dataframe that [pd.read_csv(DATASET_PATH)] returns
    ([None] when it raises), and [export_ok] tells whether
    [export_validation_report(format='all')] returns on the validator it is
    called on. *)

Record IO := mkIO {
  read_csv : option DataFrame;
  export_ok : State -> bool
}.

(** [main()]: every exception is caught and turned into [False]; the
    summary that is printed reads the [overall] entry of the results. *)
Definition main (env : Env) (io : IO) : bool :=
  match read_csv io with
  | None => false
  | Some df =>
      let validator := __init__ (caller_heap df) 0%nat None in
      match run_all_validations env validator with
      | (validator', Ok results) =>
          if export_ok io validator' then
            match overall results with
            | Some _ => true
            | None => false
            end
          else false
      | (_, Raise _) => false
      end
  end.

(** ** The master script [run_all_analytics.py] *)

Module run_all_analytics.

(** What the four components return when the master script calls them
    ([None] when the call raises); the second one is the [main] above. *)
Record Components := mkComponents {
  setup_database : option bool;
  validate_data : option bool;
  run_weekly_report : option bool;
  generate_visualizations : option bool
}.

Definition run_database_setup (c : Components) : bool :=
  match setup_database c with
  | Some success => if success then true else false
  | None => false
  end.

Definition run_data_quality_validation (c : Components) : bool :=
  match validate_data c with
  | Some success => if success then true else false
  | None => false
  end.

Definition run_performance_reports (c : Components) : bool :=
  match run_weekly_report c with
  | Some success => if success then true else false
  | None => false
  end.

Definition run_visualizations (c : Components) : bool :=
  match generate_visualizations c with
  | Some success => if success then true else false
  | None => false
  end.

(** [main()]: its result, and the steps that it ran, in order. *)
Definition main (c : Components) : bool * list string :=
  let database_setup := run_database_setup c in
  if negb database_setup then (false, ["database_setup"])
  else
    let data_quality := run_data_quality_validation c in
    let performance_reports := run_performance_reports c in
    let visualizations := run_visualizations c in
    let success_count :=
      (Z.b2z database_setup + Z.b2z data_quality
       + Z.b2z performance_reports + Z.b2z visualizations)%Z in
    let total_steps := 4%Z in
    let success_rate :=
      (inject_Z success_count / inject_Z total_steps * 100)%Q in
    (if Qeq_bool success_rate 100 then true
     else if Qle_bool 75 success_rate then true
     else false,
     ["database_setup"; "data_quality"; "performance_reports";
      "visualizations"]).

End run_all_analytics.

(** ** More samples *)

(** The validator constructed over the sample visits, and what its checks
    report ([check_consistency] in the spring of 2020, when two of the
    visits were still to come) *)
Definition sample_validator : State :=
  __init__ (caller_heap sample_visits) 0%nat None.

Definition report_of {A : Type} (r : res A) (otherwise : A) : A :=
  match r with
  | Ok a => a
  | Raise _ => otherwise
  end.

Definition sample_uniqueness : UniquenessResult :=
  report_of (snd (check_uniqueness sample_validator))
    (mkUniqueness (mkCountPct 0 NaN) (mkCountPct 0 NaN) []).

Definition sample_validity : ValidityResult :=
  report_of (snd (check_validity (sample_env 20261104) sample_validator))
    (mkValidity [] [] None).

Definition sample_consistency : ConsistencyResult :=
  report_of (snd (check_consistency (sample_env 20200401) sample_validator))
    (mkConsistency None None None).

Definition sample_accuracy : AccuracyResult :=
  report_of (snd (check_accuracy sample_validator)) (mkAccuracy [] []).

(** The sample visits in reverse order *)
Definition sample_visits_reversed : DataFrame :=
  mkDF visit_columns (rev (rows sample_visits)).

(** Two visits of one patient on consecutive days, without a missing value *)
Definition two_visits : DataFrame :=
  mkDF visit_columns
    [visit "2020-03-20" "145-39-5406" "M" 69 (Some 10%Z) "White" false 39
       (Some "Neurology");
     visit "2020-03-21" "145-39-5406" "M" 69 (Some 10%Z) "White" false 39
       (Some "Neurology")].

(** An environment in which the dataset is read and the reports are
    written *)
Definition sample_io (df : DataFrame) : IO := mkIO (Some df) (fun _ => true).

(** The sample visits with their dates written at midnight UTC *)
Definition utc_visits : DataFrame :=
  mkDF visit_columns
    (map (fun r : row =>
            match r with
            | VStr date :: r' => VStr (date +:+ utc_suffix) :: r'
            | _ => r
            end)
       (rows sample_visits)).

(** Two visits, the second with a date that is not written as an ISO date *)
Definition misdated_visits : DataFrame :=
  mkDF visit_columns
    [visit "2020-03-20" "145-39-5406" "M" 69 (Some 10%Z) "White" false 39
       (Some "Neurology");
     visit "21/03/2020" "316-34-3057" "F" 40 (Some 7%Z) "Asian" true 27
       (Some "Neurology")].

Definition misdated_validator : State :=
  __init__ (caller_heap misdated_visits) 0%nat None.

Definition misdated_validity : ValidityResult :=
  report_of (snd (check_validity (sample_env 20261104) misdated_validator))
    (mkValidity [] [] None).

(** What [check_validity] reports on the boundary ages *)
Definition boundary_validity : ValidityResult :=
  report_of
    (snd (check_validity (sample_env 20261104)
            (__init__ (caller_heap boundary_ages) 0%nat None)))
    (mkValidity [] [] None).

(** ** Vocabulary of the properties *)

(** The current contents of [self.df] *)
Definition current_df (s : State) : DataFrame :=
  deref (heap s) (self_df (self s)).

(** Every row has one cell per column. *)
Definition well_formed (df : DataFrame) : Prop :=
  Forall (fun r : row => length r = length (columns df)) (rows df).

(** A cell that the range check counts: a number, or a boolean read as one,
    strictly below [lo] or strictly above [hi]. *)
Definition outside (lo hi : Q) (v : value) : bool :=
  match v with
  | VNull => false
  | _ =>
      match num_of v with
      | Some q => Qltb q lo || Qltb hi q
      | None => false
      end
  end.

(** Number of elements of [l] that the boolean relation [E] relates to [x],
    and whether there are at least two. *)
Definition occ {A : Type} (E : A -> A -> bool) (l : list A) (x : A) : nat :=
  length (List.filter (E x) l).

Definition marked {A : Type} (E : A -> A -> bool) (l : list A) (x : A) : bool :=
  (2 <=? occ E l x)%nat.

(** Two records agree on the columns numbered in [subset]. *)
Definition same_key (subset : list nat) (r r' : row) : bool :=
  key_eqb (row_key subset r) (row_key subset r').

(** In the words of the specification: the percentage that [part] is of
    [whole], to two decimals; undefined for an empty whole. *)
Definition percent_of (part whole : Z) : pyfloat :=
  if (whole =? 0)%Z then NaN
  else Fin (round2 (inject_Z (100 * part) / inject_Z whole)).

(** A property of the value a computation returns, when it returns. *)
Definition on_ok {A : Type} (P : A -> Prop) (r : res A) : Prop :=
  match r with
  | Ok a => P a
  | Raise _ => True
  end.

(** [I] is an invariant of the state along the computation [m], whether it
    returns or raises. *)
Definition stable (I : State -> Prop) {A : Type} (m : M A) : Prop :=
  forall s, I s -> I (fst (m s)).

(** [Q] holds of the outcome and of the final state of [m] run from [s]. *)
Definition wp {A : Type} (m : M A) (Q : res A -> State -> Prop) (s : State)
  : Prop :=
  Q (snd (m s)) (fst (m s)).

(** The postcondition to establish on [m] for [Q] to hold after [bind m k] *)
Definition bind_post {A B : Type} (k : A -> M B) (Q : res B -> State -> Prop)
  (r : res A) (s : State) : Prop :=
  match r with
  | Ok a => wp (k a) Q s
  | Raise e => Q (Raise e) s
  end.

(** The postcondition of a loop body for the invariant [Inv] of the loop *)
Definition loop_post {B : Type} (Inv : B -> State -> Prop)
  (Q : res B -> State -> Prop) (r : res B) (s : State) : Prop :=
  match r with
  | Ok acc => Inv acc s
  | Raise e => Q (Raise e) s
  end.

(** Invariants that do not look at the recommendations, at the results, or
    that survive a column assignment on [self.df]. *)
Definition recs_blind (I : State -> Prop) : Prop :=
  forall r, stable I (append_recommendation r).

Definition results_blind (I : State -> Prop) : Prop :=
  forall f, stable I (update_results f).

Definition assign_blind (I : State -> Prop) : Prop :=
  forall c vals, stable I (assign_column c vals).

(** Two states in which the validator sees the same dataset and has the same
    configuration, results and recommendations, possibly at other places
    of other heaps. *)
Definition same_view (s s' : State) : Prop :=
  current_df s = current_df s' /\
  self_config (self s) = self_config (self s') /\
  validation_results (self s) = validation_results (self s') /\
  recommendations (self s) = recommendations (self s').

(** [m] only depends on what the validator sees: from two states with the
    same view it has the same outcome and leads to states with the same
    view. *)
Definition respects {A : Type} (m : M A) : Prop :=
  forall s s', same_view s s' ->
    snd (m s) = snd (m s') /\ same_view (fst (m s)) (fst (m s')).

(** The [overall] entry of the results [r] holds five dimension scores, each
    a number between 0 and 100, the first being the completeness score
    stored by [check_completeness] and the second 100 minus the percentage
    of exact duplicates, and its [quality_score] is their arithmetic mean
    (their sum divided by 5) rounded to two decimals. *)
Definition scored (r : Results) : Prop :=
  exists o c u v co a cr ur,
    overall r = Some o /\
    dimension_scores o = mkScores (Fin c) (Fin u) (Fin v) (Fin co) (Fin a) /\
    (0 <= c <= 100)%Q /\ (0 <= u <= 100)%Q /\ (0 <= v <= 100)%Q /\
    (0 <= co <= 100)%Q /\ (0 <= a <= 100)%Q /\
    quality_score o = Fin (round2 ((c + u + v + co + a) / 5)) /\
    completeness r = Some cr /\ completeness_score cr = Fin c /\
    uniqueness r = Some ur /\
    Fin u = fsub100 (cp_percentage (exact_duplicates ur)).

(** Datasets on which every comparison and statistic is defined: the
    columns that the configuration and the checks treat as numbers hold
    numbers or nulls, and no such column is called [date_parsed]. *)
Definition numeric_or_null (v : value) : bool :=
  match v with
  | VNull | VNum _ => true
  | _ => false
  end.

Definition numeric_names (cfg : Config) : list string :=
  (map fst (expected_ranges cfg) ++ numeric_columns cfg
   ++ ["patient_sat_score"; "patient_waittime"; "patient_age"])%list.

Definition well_typed (cfg : Config) (df : DataFrame) : Prop :=
  well_formed df /\
  mem_string "date_parsed" (numeric_names cfg) = false /\
  forall c, In c (numeric_names cfg) ->
    forallb numeric_or_null (column c df) = true.

(** The exceptions that a computation may raise all satisfy [P]. *)
Definition raises_only (P : exn -> Prop) {A : Type} (m : M A) : Prop :=
  forall s e, snd (m s) = Raise e -> P e.

Definition res_raises_only (P : exn -> Prop) {A : Type} (r : res A) : Prop :=
  forall e, r = Raise e -> P e.

(** The exceptions of a value of the wrong type in a comparison or a
    statistic (dates that carry a time zone compared with [datetime.now()]
    among them) and of a division by zero, but not of an absent column. *)
Definition type_or_zero_division (e : exn) : Prop :=
  e = TypeError \/ e = ZeroDivisionError.

(** The method returns (it does not raise). *)
Definition returns {A : Type} (m : M A) (s : State) : Prop :=
  exists a, snd (m s) = Ok a.

(** An invariant that only reads [self.validation_results]. *)
Definition results_inv (K : Results -> Prop) (s : State) : Prop :=
  K (validation_results (self s)).

(** An invariant that only reads the heap and the reference [self.df]. *)
Definition heap_inv (J : gmap loc DataFrame -> loc -> Prop) (s : State) : Prop :=
  J (heap s) (self_df (self s)).

(** [J] survives an in-place column assignment on [self.df]. *)
Definition assign_closed (J : gmap loc DataFrame -> loc -> Prop) : Prop :=
  forall h l c vals, J h l -> J (<[l := set_column c vals (deref h l)]> h) l.

(** The dataset after [check_consistency]: with a [date] column, the column
    [date_parsed] holds the coerced dates. *)
Definition with_date_parsed (env : Env) (df : DataFrame) : DataFrame :=
  if has_column "date" df then
    set_column "date_parsed" (to_datetime_coerce env (column "date" df)) df
  else df.

(** The recommendations of [s'] are those of [s], in place, followed by
    recommendations that all satisfy [P]. *)
Definition appended (P : Recommendation -> Prop) (s s' : State) : Prop :=
  exists extra,
    recommendations (self s') = (recommendations (self s) ++ extra)%list /\
    Forall P extra.

(** A recommendation of the given dimension with one of the given
    severities. *)
Definition rec_of (cat : string) (sevs : list Severity) (r : Recommendation)
  : Prop :=
  category r = cat /\ In (severity r) sevs.

(** A list made of consecutive segments, one per predicate, in order. *)
Fixpoint in_segments (Ps : list (Recommendation -> Prop))
  (l : list Recommendation) : Prop :=
  match Ps with
  | [] => l = []
  | P :: Ps' =>
      exists e rest, l = (e ++ rest)%list /\ Forall P e /\ in_segments Ps' rest
  end.

(** No cell of the dataset is null. *)
Definition complete (df : DataFrame) : Prop :=
  forall r i, In r (rows df) -> (i < length (columns df))%nat ->
    isnull (cell i r) = false.

(** The columns for which [check_completeness] recommends an action: the
    critical ones that have nulls. *)
Definition critical_with_missing (cfg : Config) (df : DataFrame)
  : list string :=
  List.filter
    (fun col => mem_string col (critical_columns cfg)
                && (0 <? null_count (column col df))%Z)
    (columns df).

(** A date cell that holds, or is parsed to, an instant strictly later than
    [datetime.now()]. *)
Definition later_than_now (env : Env) (v : value) : bool :=
  match parse_cell env v with
  | Some (VTime t) => (now env <? t)%Z
  | _ => false
  end.

(** One cell of [series >= x], [series > x] or [series < x] when it does not
    raise: a null compares false. *)
Definition compares (op : cmp) (x : Q) (v : value) : bool :=
  match v with
  | VNull => false
  | _ => match num_of v with Some q => cmp_Q op q x | None => false end
  end.

(** A satisfaction score of 8 or more after a wait of 60 minutes or more *)
Definition high_sat_and_wait (p : value * value) : bool :=
  compares GE 8 (fst p) && compares GE 60 (snd p).

(** A patient under 13 referred to an adult-only department *)
Definition pediatric_in_adult (p : value * value) : bool :=
  compares LT 13 (fst p)
  && isin [VStr "Cardiology"; VStr "Gastroenterology"] (snd p).

(** A cell that the categorical check counts: it is not null and is none of
    the permitted values. *)
Definition not_permitted (valid : list value) (v : value) : bool :=
  negb (isin valid v) && notna v.

(** A date cell that [pandas.to_datetime] accepts: a null, a timestamp, or a
    value that the parser reads. *)
Definition parseable (env : Env) (v : value) : Prop :=
  v = VNull \/ (exists t, v = VTime t) \/ parse_datetime env v <> None.

(** A list of rationals in non-decreasing order. *)
Fixpoint sorted_Q (l : list Q) : Prop :=
  match l with
  | [] => True
  | x :: l' => Forall (Qle x) l' /\ sorted_Q l'
  end.

(** * Properties *)

(** ** Invariants of the state along a computation *)

Section Stable.
Variable I : State -> Prop.

Lemma stable_ret {A : Type} (a : A) : stable I (ret a).
Proof. intros s H. exact H. Qed.

Lemma stable_lift {A : Type} (r : res A) : stable I (lift r).
Proof. intros s H. exact H. Qed.

Lemma stable_bind {A B : Type} (m : M A) (k : A -> M B) :
  stable I m -> (forall a, stable I (k a)) -> stable I (bind m k).
Proof.
  intros Hm Hk s H. unfold bind. specialize (Hm s H).
  destruct (m s) as [s1 [a | e]]; simpl in *.
  - apply Hk. exact Hm.
  - exact Hm.
Qed.

Lemma stable_for_fold {A B : Type} (body : B -> A -> M B) (l : list A) :
  (forall acc a, stable I (body acc a)) ->
  forall acc, stable I (for_fold body l acc).
Proof.
  intros Hbody. induction l as [| a l IH]; intros acc; simpl.
  - apply stable_ret.
  - apply stable_bind; [apply Hbody | exact IH].
Qed.

Lemma stable_when (b : bool) (m : M unit) : stable I m -> stable I (when b m).
Proof. intros H. destruct b; simpl; [exact H | apply stable_ret]. Qed.

Lemma stable_lookup_result {A : Type} (k : string) (o : option A) :
  stable I (lookup_result k o).
Proof. destruct o; simpl; [apply stable_ret | apply stable_lift]. Qed.
End Stable.

Section Readers.
Variable I : State -> Prop.

Lemma stable_get_df : stable I get_df.
Proof. intros s H. exact H. Qed.

Lemma stable_get_config : stable I get_config.
Proof. intros s H. exact H. Qed.

Lemma stable_get_results : stable I get_results.
Proof. intros s H. exact H. Qed.

Lemma stable_get_recommendations : stable I get_recommendations.
Proof. intros s H. exact H. Qed.
End Readers.

Ltac stable_step :=
  first
    [ apply stable_ret
    | apply stable_lift
    | apply stable_get_df
    | apply stable_get_config
    | apply stable_get_results
    | apply stable_get_recommendations
    | match goal with
      | H : recs_blind ?I |- stable ?I (append_recommendation _) => apply H
      | H : results_blind ?I |- stable ?I (update_results _) => apply H
      | H : assign_blind ?I |- stable ?I (assign_column _ _) => apply H
      end
    | apply stable_lookup_result
    | apply stable_when
    | apply stable_for_fold; intros
    | apply stable_bind; [| intros]
    | match goal with
      | |- stable _ (if ?b then _ else _) => destruct b
      | |- stable _ (match ?x with _ => _ end) => destruct x
      end ].

Ltac stable_auto := repeat stable_step.

Section Frames.
Variable I : State -> Prop.
Hypothesis Hrecs : recs_blind I.

Lemma check_completeness_stable :
  results_blind I -> stable I check_completeness.
Proof. intros Hres. unfold check_completeness. stable_auto. Qed.

Lemma check_uniqueness_stable : results_blind I -> stable I check_uniqueness.
Proof. intros Hres. unfold check_uniqueness. stable_auto. Qed.

Lemma check_validity_stable env :
  results_blind I -> stable I (check_validity env).
Proof. intros Hres. unfold check_validity. stable_auto. Qed.

Lemma check_accuracy_stable : results_blind I -> stable I check_accuracy.
Proof. intros Hres. unfold check_accuracy. stable_auto. Qed.

Lemma calculate_validity_score_stable : stable I _calculate_validity_score.
Proof. unfold _calculate_validity_score. stable_auto. Qed.

Lemma calculate_consistency_score_stable :
  stable I _calculate_consistency_score.
Proof. unfold _calculate_consistency_score. stable_auto. Qed.

Lemma calculate_accuracy_score_stable : stable I _calculate_accuracy_score.
Proof. unfold _calculate_accuracy_score. stable_auto. Qed.

Lemma check_consistency_stable env :
  results_blind I -> assign_blind I -> stable I (check_consistency env).
Proof. intros Hres Hassign. unfold check_consistency. stable_auto. Qed.

Lemma run_all_validations_stable env :
  results_blind I -> assign_blind I -> stable I (run_all_validations env).
Proof.
  intros Hres Hassign. unfold run_all_validations.
  repeat first
    [ apply check_completeness_stable; assumption
    | apply check_uniqueness_stable; assumption
    | apply check_validity_stable; assumption
    | apply check_consistency_stable; assumption
    | apply check_accuracy_stable; assumption
    | apply calculate_validity_score_stable
    | apply calculate_consistency_score_stable
    | apply calculate_accuracy_score_stable
    | stable_step ].
Qed.
End Frames.

Lemma heap_inv_recs_blind J : recs_blind (heap_inv J).
Proof. intros r s H. exact H. Qed.

Lemma heap_inv_results_blind J : results_blind (heap_inv J).
Proof. intros f s H. exact H. Qed.

Lemma heap_inv_assign_blind J : assign_closed J -> assign_blind (heap_inv J).
Proof. intros HJ c vals s H. apply HJ. exact H. Qed.

Lemma stable_after {A B : Type} (I : State -> Prop) (m : M A) (k : A -> M B) s :
  I (fst (m s)) -> (forall a, stable I (k a)) -> I (fst (bind m k s)).
Proof.
  intros H Hk. unfold bind. destruct (m s) as [s1 [a | e]]; simpl in *.
  - apply Hk. exact H.
  - exact H.
Qed.

(** ** The caller's dataframe *)

Lemma fresh_loc_fresh (h : gmap loc DataFrame) l :
  is_Some (h !! l) -> fresh_loc h <> l.
Proof.
  intros Hl Heq. apply elem_of_dom in Hl.
  rewrite <- Heq in Hl. unfold fresh_loc in Hl.
  exact (is_fresh (dom h) Hl).
Qed.

Lemma init_self_df h l cfg d :
  h !! l = Some d ->
  self_df (self (__init__ h l cfg)) <> l /\
  current_df (__init__ h l cfg) = d /\
  heap (__init__ h l cfg) !! l = Some d.
Proof.
  intros Hl. unfold __init__, copy, current_df. simpl.
  assert (H1 : fresh_loc h <> l) by (apply fresh_loc_fresh; eauto).
  assert (H2 : fresh_loc (<[fresh_loc h := deref h l]> h) <> l).
  { apply fresh_loc_fresh. rewrite lookup_insert_ne by exact H1. eauto. }
  assert (H3 : fresh_loc (<[fresh_loc h := deref h l]> h) <> fresh_loc h).
  { apply fresh_loc_fresh. rewrite lookup_insert_eq. eauto. }
  split; [exact H1 |]. split.
  - unfold deref at 1. rewrite lookup_insert_ne by exact H3.
    rewrite lookup_insert_eq. simpl. unfold deref. rewrite Hl. reflexivity.
  - rewrite lookup_insert_ne by exact H2.
    rewrite lookup_insert_ne by exact H1. exact Hl.
Qed.

Lemma run_keeps_other_objects env s l d :
  heap s !! l = Some d -> self_df (self s) <> l ->
  heap (fst (run_all_validations env s)) !! l = Some d.
Proof.
  intros Hd Hne.
  pose (J := fun (h' : gmap loc DataFrame) (l' : loc) =>
               h' !! l = Some d /\ l' <> l).
  assert (HJ : assign_closed J).
  { intros h' l' c vals [Hd' Hl']. split; [| exact Hl'].
    rewrite lookup_insert_ne by exact Hl'. exact Hd'. }
  apply (run_all_validations_stable (heap_inv J) (heap_inv_recs_blind J) env
           (heap_inv_results_blind J) (heap_inv_assign_blind J HJ) s).
  split; [exact Hd | exact Hne].
Qed.

(** C10.  The validator works on a copy taken at construction: the object
    [self.df] is not the caller's dataframe and starts with the same
    contents, and whatever [run_all_validations] does (also when it raises),
    the caller's dataframe is left as it was. *)
Theorem caller_dataframe_unchanged env h l cfg d :
  h !! l = Some d ->
  self_df (self (__init__ h l cfg)) <> l /\
  current_df (__init__ h l cfg) = d /\
  heap (fst (run_all_validations env (__init__ h l cfg))) !! l = Some d.
Proof.
  intros Hl. destruct (init_self_df h l cfg d Hl) as (Hne & Hcur & Hheap).
  split; [exact Hne |]. split; [exact Hcur |].
  apply run_keeps_other_objects; assumption.
Qed.

Lemma caller_dataframe_unchanged_witness :
  heap (fst (validate (sample_env 20261104) sample_visits None)) !! 0%nat
  = Some sample_visits.
Proof.
  exact (proj2 (proj2 (caller_dataframe_unchanged (sample_env 20261104)
                         (caller_heap sample_visits) 0%nat None sample_visits
                         eq_refl))).
Defined.

(** ** What the checks do to the validator's dataset *)

Lemma heap_unchanged {A : Type} (m : M A) s :
  (forall I, recs_blind I -> results_blind I -> stable I m) ->
  heap (fst (m s)) = heap s /\ self_df (self (fst (m s))) = self_df (self s).
Proof.
  intros H.
  pose (J := fun (h' : gmap loc DataFrame) (l' : loc) =>
               h' = heap s /\ l' = self_df (self s)).
  apply (H (heap_inv J) (heap_inv_recs_blind J) (heap_inv_results_blind J) s).
  split; reflexivity.
Qed.

Lemma check_consistency_heap env s :
  heap (fst (check_consistency env s)) =
    (if has_column "date" (current_df s)
     then <[self_df (self s) := with_date_parsed env (current_df s)]> (heap s)
     else heap s)
  /\ self_df (self (fst (check_consistency env s))) = self_df (self s).
Proof.
  unfold with_date_parsed.
  destruct (has_column "date" (current_df s)) eqn:Hd.
  - pose (J := fun (h' : gmap loc DataFrame) (l' : loc) =>
        h' = <[self_df (self s) :=
                 set_column "date_parsed"
                   (to_datetime_coerce env (column "date" (current_df s)))
                   (current_df s)]> (heap s)
        /\ l' = self_df (self s)).
    change (heap_inv J (fst (check_consistency env s))).
    pose proof (heap_inv_recs_blind J) as Hrecs.
    pose proof (heap_inv_results_blind J) as Hres.
    unfold check_consistency.
    unfold bind at 1. unfold get_df at 1. fold (current_df s). rewrite Hd.
    apply stable_after; [| intros; stable_auto].
    apply stable_after; [| intros; stable_auto].
    unfold assign_column, heap_inv, J. simpl. split; reflexivity.
  - pose (J := fun (h' : gmap loc DataFrame) (l' : loc) =>
        h' = heap s /\ l' = self_df (self s)).
    change (heap_inv J (fst (check_consistency env s))).
    pose proof (heap_inv_recs_blind J) as Hrecs.
    pose proof (heap_inv_results_blind J) as Hres.
    unfold check_consistency.
    unfold bind at 1. unfold get_df at 1. fold (current_df s). rewrite Hd.
    apply stable_after; [| intros; stable_auto].
    unfold ret, heap_inv, J. simpl. split; reflexivity.
Qed.

Lemma set_column_length c vals df :
  length vals = length (rows df) ->
  length (rows (set_column c vals df)) = length (rows df).
Proof.
  intros H. unfold set_column.
  destruct (col_index c (columns df)); simpl;
    rewrite length_map, length_combine; lia.
Qed.

Lemma column_length c df :
  has_column c df = true -> length (column c df) = length (rows df).
Proof.
  unfold has_column, column, column_at.
  destruct (col_index c (columns df)); [| discriminate].
  intros _. apply length_map.
Qed.

Lemma with_date_parsed_length env df :
  length (rows (with_date_parsed env df)) = length (rows df).
Proof.
  unfold with_date_parsed. destruct (has_column "date" df) eqn:Hd; [| reflexivity].
  apply set_column_length. unfold to_datetime_coerce.
  rewrite length_map. apply column_length. exact Hd.
Qed.

Lemma col_index_lt c cols i : col_index c cols = Some i -> (i < length cols)%nat.
Proof.
  revert i. induction cols as [| c' cols IH]; intros i; simpl; [discriminate |].
  destruct (String.eqb c c').
  - intros [= <-]. lia.
  - destruct (col_index c cols) as [j |]; simpl; [| discriminate].
    intros [= <-]. specialize (IH j eq_refl). lia.
Qed.

Lemma col_index_inj c c' cols i :
  col_index c cols = Some i -> col_index c' cols = Some i -> c = c'.
Proof.
  revert i. induction cols as [| x cols IH]; intros i; simpl; [discriminate |].
  destruct (String.eqb c x) eqn:E1, (String.eqb c' x) eqn:E2.
  - apply String.eqb_eq in E1, E2. congruence.
  - intros [= <-]. destruct (col_index c' cols); simpl; discriminate.
  - destruct (col_index c cols); simpl; [| discriminate].
    intros [= <-]. discriminate.
  - destruct (col_index c cols) as [j |] eqn:Ej; simpl; [| discriminate].
    destruct (col_index c' cols) as [j' |] eqn:Ej'; simpl; [| discriminate].
    intros [= <-] [= ->]. eapply IH; eauto.
Qed.

Lemma col_index_app_l c cols extra i :
  col_index c cols = Some i -> col_index c (cols ++ extra) = Some i.
Proof.
  revert i. induction cols as [| x cols IH]; intros i; simpl; [discriminate |].
  destruct (String.eqb c x); [auto |].
  destruct (col_index c cols) as [j |]; simpl; [| discriminate].
  intros [= <-]. rewrite (IH j eq_refl). reflexivity.
Qed.

Lemma map_ext_combine {A B C : Type} (f : A * B -> C) (g : A -> C)
  (P : A -> Prop) (l : list A) (l' : list B) :
  length l' = length l -> Forall P l ->
  (forall a b, P a -> f (a, b) = g a) ->
  map f (combine l l') = map g l.
Proof.
  intros Hlen HP Hfg. revert l' Hlen.
  induction HP as [| a l Ha HP IH]; intros [| b l']; simpl; try discriminate.
  - reflexivity.
  - intros [= H]. rewrite IH by exact H. rewrite Hfg by exact Ha. reflexivity.
Qed.

(** Assigning a column leaves the cells of every other column as they were. *)
Lemma set_column_other c vals df c' :
  well_formed df -> length vals = length (rows df) ->
  c' <> c -> has_column c' df = true ->
  column c' (set_column c vals df) = column c' df.
Proof.
  intros Hwf Hlen Hne Hc'. unfold has_column in Hc'.
  destruct (col_index c' (columns df)) as [j |] eqn:Ej; [| discriminate].
  unfold set_column, column.
  destruct (col_index c (columns df)) as [i |] eqn:Ei; simpl.
  - rewrite Ej. unfold column_at. simpl. rewrite map_map.
    assert (Hij : i <> j).
    { intros ->. apply Hne. eapply col_index_inj; eauto. }
    apply (map_ext_combine _ _ (fun _ => True)); auto.
    + clear. induction (rows df); constructor; auto.
    + intros a b _. cbn [fst snd]. unfold cell. rewrite !nth_lookup.
      rewrite list_lookup_insert_ne by exact Hij. reflexivity.
  - rewrite (col_index_app_l _ _ _ _ Ej), Ej. unfold column_at. simpl.
    rewrite map_map.
    apply (map_ext_combine _ _ (fun r => length r = length (columns df)));
      auto.
    intros a b Ha. simpl. unfold cell.
    apply col_index_lt in Ej. rewrite app_nth1 by lia. reflexivity.
Qed.

(** C4 (as amended).  [check_completeness], [check_uniqueness],
    [check_validity] and [check_accuracy] leave the heap, hence the
    validator's dataset, exactly as it was.  [check_consistency] changes no
    other object than [self.df]; on [self.df] it keeps the number of rows
    and, when a [date] column is present, it assigns the column
    [date_parsed] (the coerced dates), every other column of a well-formed
    dataset keeping its cells; without a [date] column it changes nothing. *)
Theorem checkers_effect_on_dataset env s :
  heap (fst (check_completeness s)) = heap s /\
  heap (fst (check_uniqueness s)) = heap s /\
  heap (fst (check_validity env s)) = heap s /\
  heap (fst (check_accuracy s)) = heap s /\
  current_df (fst (check_consistency env s))
    = with_date_parsed env (current_df s) /\
  (forall l, l <> self_df (self s) ->
     heap (fst (check_consistency env s)) !! l = heap s !! l) /\
  length (rows (current_df (fst (check_consistency env s))))
    = length (rows (current_df s)) /\
  (has_column "date" (current_df s) = false ->
     heap (fst (check_consistency env s)) = heap s) /\
  (well_formed (current_df s) ->
   forall c, c <> "date_parsed" -> has_column c (current_df s) = true ->
     column c (current_df (fst (check_consistency env s)))
       = column c (current_df s)).
Proof.
  destruct (check_consistency_heap env s) as [Hh Hl].
  assert (Hcur : current_df (fst (check_consistency env s))
                 = with_date_parsed env (current_df s)).
  { unfold current_df at 1. rewrite Hl, Hh.
    destruct (has_column "date" (current_df s)) eqn:Hd.
    - unfold deref. rewrite lookup_insert_eq. reflexivity.
    - unfold with_date_parsed. rewrite Hd. reflexivity. }
  repeat split.
  - apply (heap_unchanged check_completeness s).
    intros I. apply check_completeness_stable.
  - apply (heap_unchanged check_uniqueness s).
    intros I. apply check_uniqueness_stable.
  - apply (heap_unchanged (check_validity env) s).
    intros I HI. apply check_validity_stable. exact HI.
  - apply (heap_unchanged check_accuracy s).
    intros I. apply check_accuracy_stable.
  - exact Hcur.
  - intros l Hne. rewrite Hh.
    destruct (has_column "date" (current_df s)); [| reflexivity].
    rewrite lookup_insert_ne by congruence. reflexivity.
  - rewrite Hcur. apply with_date_parsed_length.
  - intros Hd. rewrite Hh, Hd. reflexivity.
  - intros Hwf c Hc Hhas. rewrite Hcur. unfold with_date_parsed.
    destruct (has_column "date" (current_df s)) eqn:Hd; [| reflexivity].
    apply set_column_other; auto.
    unfold to_datetime_coerce. rewrite length_map.
    apply column_length. exact Hd.
Qed.

(** C4, counterexample.  On the sample visits, [check_consistency] turns the
    validator's nine-column dataset into a ten-column one. *)
Lemma check_consistency_mutates_dataset :
  let s := __init__ (caller_heap sample_visits) 0%nat None in
  columns (current_df s) = visit_columns /\
  columns (current_df (fst (check_consistency (sample_env 20261104) s)))
    = (visit_columns ++ ["date_parsed"])%list.
Proof. vm_compute. split; reflexivity. Qed.

(** ** Masks and selections *)

Lemma select_map {A : Type} (f : A -> bool) (l : list A) :
  select (map f l) l = List.filter f l.
Proof.
  unfold select. induction l as [| a l IH]; simpl; [reflexivity |].
  destruct (f a); simpl; rewrite IH; reflexivity.
Qed.

Lemma select_length_le {A : Type} (m : list bool) (l : list A) :
  (length (select m l) <= length l)%nat.
Proof.
  unfold select. rewrite length_map.
  etransitivity; [apply List.filter_length_le |].
  rewrite length_combine. lia.
Qed.

Lemma map_res_ok {A B : Type} (f : A -> res B) (g : A -> B) (l : list A) bs :
  (forall a b, f a = Ok b -> b = g a) ->
  map_res f l = Ok bs -> bs = map g l.
Proof.
  intros Hfg. revert bs. induction l as [| a l IH]; intros bs; simpl.
  - intros [= <-]. reflexivity.
  - destruct (f a) as [b |] eqn:Ea; [| discriminate].
    destruct (map_res f l) as [bs' |]; [| discriminate].
    intros [= <-]. rewrite (Hfg a b Ea), (IH bs' eq_refl). reflexivity.
Qed.

Lemma mask_or_map {A : Type} (f g : A -> bool) (l : list A) :
  mask_or (map f l) (map g l) = map (fun a => f a || g a) l.
Proof.
  unfold mask_or. induction l as [| a l IH]; simpl; [reflexivity |].
  rewrite IH. reflexivity.
Qed.

Lemma mask_and_map {A : Type} (f g : A -> bool) (l : list A) :
  mask_and (map f l) (map g l) = map (fun a => f a && g a) l.
Proof.
  unfold mask_and. induction l as [| a l IH]; simpl; [reflexivity |].
  rewrite IH. reflexivity.
Qed.

Lemma compare_cell_ok op x v b :
  compare_cell op x v = Ok b ->
  b = match v with
      | VNull => false
      | _ => match num_of v with Some q => cmp_Q op q x | None => false end
      end.
Proof.
  unfold compare_cell. destruct v; simpl; intros [= <-]; reflexivity.
Qed.

Lemma has_column_index c df :
  has_column c df = true -> exists i, col_index c (columns df) = Some i.
Proof.
  unfold has_column. destruct (col_index c (columns df)) as [i |];
    [eauto | discriminate].
Qed.

Lemma column_column_at c df i :
  col_index c (columns df) = Some i -> column c df = column_at i df.
Proof. intros H. unfold column. rewrite H. reflexivity. Qed.

(** The rows selected by the range check are those whose cell is a number
    (or a boolean) lying outside the bounds. *)
Lemma out_of_range_filter lo hi i df vs :
  out_of_range lo hi (column_at i df) df = Ok vs ->
  vs = List.filter (fun r => outside lo hi (cell i r)) (rows df).
Proof.
  unfold out_of_range, compare_series.
  destruct (map_res (compare_cell LT lo) (column_at i df)) as [below |] eqn:Eb;
    [| discriminate].
  destruct (map_res (compare_cell GT hi) (column_at i df)) as [above |] eqn:Ea;
    [| discriminate].
  intros [= <-].
  apply (map_res_ok _ _ _ _ (compare_cell_ok LT lo)) in Eb.
  apply (map_res_ok _ _ _ _ (compare_cell_ok GT hi)) in Ea.
  subst below above. unfold column_at. rewrite !map_map, mask_or_map.
  rewrite select_map. apply List.filter_ext. intros r. unfold outside.
  destruct (cell i r); simpl; try reflexivity.
Qed.

(** ** The range check of [check_validity] *)

Lemma Qltb_lt a b : Qltb a b = true <-> (a < b)%Q.
Proof.
  unfold Qltb. rewrite negb_true_iff. split.
  - intros H. apply Qnot_le_lt. intros Hle.
    apply Qle_bool_iff in Hle. congruence.
  - intros H. destruct (Qle_bool b a) eqn:E; [| reflexivity].
    apply Qle_bool_iff in E. exfalso. exact (Qlt_not_le _ _ H E).
Qed.

Lemma Qltb_ge a b : Qltb a b = false <-> (b <= a)%Q.
Proof.
  unfold Qltb. rewrite negb_false_iff. apply Qle_bool_iff.
Qed.

Lemma outside_num lo hi q :
  outside lo hi (VNum q) = true <-> (q < lo)%Q \/ (hi < q)%Q.
Proof.
  unfold outside. simpl. rewrite orb_true_iff, !Qltb_lt. reflexivity.
Qed.

(** C8.  A record whose value in the checked column is null is never among
    the violations of the range check, so the violations are at most as many
    as the non-null values of the column. *)
Theorem null_never_range_violation df c i lo hi vs :
  col_index c (columns df) = Some i ->
  out_of_range lo hi (column c df) df = Ok vs ->
  (forall r, In r (rows df) -> cell i r = VNull -> ~ In r vs) /\
  (len_list vs <= len_list (List.filter notna (column c df)))%Z.
Proof.
  intros Hi Hvs. rewrite (column_column_at _ _ _ Hi) in *.
  apply out_of_range_filter in Hvs. subst vs. split.
  - intros r Hr Hnull Hin. apply List.filter_In in Hin.
    destruct Hin as [_ Hout]. rewrite Hnull in Hout. discriminate.
  - unfold len_list, column_at. apply inj_le.
    induction (rows df) as [| r l IH]; simpl; [lia |].
    unfold outside at 1, notna at 1.
    destruct (cell i r) as [| q | s | b | t]; simpl; try lia;
      destruct (Qltb _ _ || Qltb _ _); simpl; lia.
Qed.

Lemma null_never_range_violation_witness :
  (forall r, In r (rows boundary_ages) -> cell 0 r = VNull ->
     ~ In r [[VNum (-1)]; [VNum 121]]) /\
  (len_list [[VNum (-1)]; [VNum 121]]
   <= len_list (List.filter notna (column "patient_age" boundary_ages)))%Z.
Proof.
  exact (null_never_range_violation boundary_ages "patient_age" 0%nat 0 120
           [[VNum (-1)]; [VNum 121]] eq_refl eq_refl).
Defined.

(** ** Outcomes of computations *)

Lemma wp_ret {A : Type} (a : A) Q s : Q (Ok a) s -> wp (ret a) Q s.
Proof. intros H. exact H. Qed.

Lemma wp_lift {A : Type} (r : res A) Q s : Q r s -> wp (lift r) Q s.
Proof. intros H. exact H. Qed.

Lemma wp_bind {A B : Type} (m : M A) (k : A -> M B) Q s :
  wp m (bind_post k Q) s -> wp (bind m k) Q s.
Proof.
  unfold wp, bind_post, bind. destruct (m s) as [s1 [a | e]]; simpl; auto.
Qed.

Lemma wp_mono {A : Type} (m : M A) (Q Q' : res A -> State -> Prop) s :
  wp m Q s -> (forall r s', Q r s' -> Q' r s') -> wp m Q' s.
Proof. unfold wp. intros H HQ. apply HQ. exact H. Qed.

Lemma wp_for_fold {A B : Type} (body : B -> A -> M B) (l : list A)
  (Inv : B -> State -> Prop) Q :
  (forall acc a s, In a l -> Inv acc s ->
     wp (body acc a) (loop_post Inv Q) s) ->
  (forall acc s, Inv acc s -> Q (Ok acc) s) ->
  forall acc s, Inv acc s -> wp (for_fold body l acc) Q s.
Proof.
  intros Hbody Hend. induction l as [| a l IH]; intros acc s Hacc; simpl.
  - apply wp_ret. apply Hend. exact Hacc.
  - apply wp_bind.
    eapply wp_mono; [apply Hbody; [left; reflexivity | exact Hacc] |].
    intros [acc' | e] s'; simpl; [| auto].
    apply IH. intros acc0 a0 s0 Hin. apply Hbody. right. exact Hin.
Qed.

Lemma wp_for_fold_visited {A B : Type} (body : B -> A -> M B) (l : list A)
  (Inv : list A -> B -> State -> Prop) Q :
  (forall visited a acc s, Inv visited acc s ->
     wp (body acc a) (loop_post (Inv (visited ++ [a])%list) Q) s) ->
  (forall acc s, Inv l acc s -> Q (Ok acc) s) ->
  forall acc s, Inv [] acc s -> wp (for_fold body l acc) Q s.
Proof.
  intros Hbody Hend.
  assert (H : forall rest visited acc s,
             l = (visited ++ rest)%list -> Inv visited acc s ->
             wp (for_fold body rest acc) Q s).
  { induction rest as [| a rest IH]; intros visited acc s Hl Hinv; simpl.
    - rewrite app_nil_r in Hl. subst visited. apply wp_ret, Hend, Hinv.
    - apply wp_bind.
      eapply wp_mono; [apply Hbody; exact Hinv |].
      intros [acc' | e] s'; simpl; [| auto].
      apply IH. rewrite <- app_assoc. exact Hl. }
  intros acc s. apply (H l []). reflexivity.
Qed.

Lemma wp_when (b : bool) (m : M unit) Q s :
  (b = true -> wp m Q s) -> (b = false -> Q (Ok tt) s) -> wp (when b m) Q s.
Proof.
  intros Ht Hf. destruct b; simpl; [apply Ht | apply wp_ret, Hf]; reflexivity.
Qed.

Lemma wp_get_df Q s : Q (Ok (current_df s)) s -> wp get_df Q s.
Proof. intros H. exact H. Qed.

Lemma wp_get_config Q s : Q (Ok (self_config (self s))) s -> wp get_config Q s.
Proof. intros H. exact H. Qed.

Lemma wp_get_results Q s :
  Q (Ok (validation_results (self s))) s -> wp get_results Q s.
Proof. intros H. exact H. Qed.

Lemma wp_get_recommendations Q s :
  Q (Ok (recommendations (self s))) s -> wp get_recommendations Q s.
Proof. intros H. exact H. Qed.

Lemma wp_append_recommendation r Q s :
  Q (Ok tt) (fst (append_recommendation r s)) ->
  wp (append_recommendation r) Q s.
Proof. intros H. exact H. Qed.

Lemma wp_update_results f Q s :
  Q (Ok tt) (fst (update_results f s)) -> wp (update_results f) Q s.
Proof. intros H. exact H. Qed.

Lemma wp_assign_column c vals Q s :
  Q (Ok tt) (fst (assign_column c vals s)) -> wp (assign_column c vals) Q s.
Proof. intros H. exact H. Qed.

Lemma wp_outcome {A : Type} (m : M A) Q s s' r :
  m s = (s', r) -> wp m Q s -> Q r s'.
Proof. unfold wp. intros ->. auto. Qed.

Ltac wp_step :=
  lazymatch goal with
  | |- wp (bind _ _) _ _ => apply wp_bind
  | |- wp (ret _) _ _ => apply wp_ret
  | |- wp (lift _) _ _ => apply wp_lift
  | |- wp get_df _ _ => apply wp_get_df
  | |- wp get_config _ _ => apply wp_get_config
  | |- wp get_results _ _ => apply wp_get_results
  | |- wp get_recommendations _ _ => apply wp_get_recommendations
  | |- wp (append_recommendation _) _ _ => apply wp_append_recommendation
  | |- wp (update_results _) _ _ => apply wp_update_results
  | |- wp (assign_column _ _) _ _ => apply wp_assign_column
  | |- bind_post _ _ (Ok _) _ => unfold bind_post at 1
  | |- bind_post _ _ (Raise _) _ => unfold bind_post at 1
  | |- loop_post _ _ (Ok _) _ => unfold loop_post at 1
  | |- loop_post _ _ (Raise _) _ => unfold loop_post at 1
  end.

Ltac wp_steps := repeat wp_step.

(** ** The empty dataset *)

Lemma column_no_rows c df : rows df = [] -> column c df = [].
Proof.
  intros H. unfold column, column_at. rewrite H.
  destruct (col_index c (columns df)); reflexivity.
Qed.

Lemma sum_Z_zero {A : Type} (f : A -> Z) (l : list A) :
  (forall a, f a = 0%Z) -> sum_Z (map f l) = 0%Z.
Proof.
  intros H. induction l as [| a l IH]; simpl; [reflexivity |].
  rewrite H, IH. reflexivity.
Qed.

Lemma check_completeness_empty s :
  rows (current_df s) = [] ->
  wp check_completeness
    (fun r s' =>
       (exists c, r = Ok c /\ completeness_score c = NaN
                  /\ cp_percentage (missing_by_record c) = NaN) /\
       recommendations (self s') = recommendations (self s) /\
       heap s' = heap s /\ self_df (self s') = self_df (self s) /\
       overall (validation_results (self s'))
         = overall (validation_results (self s)))
    s.
Proof.
  intros Hrows. unfold check_completeness.
  assert (Hlen : len (current_df s) = 0%Z) by (unfold len; rewrite Hrows; reflexivity).
  wp_steps.
  apply (wp_for_fold _ _ (fun _ s' => s' = s)); [| | reflexivity].
  - intros acc col s' _ ->. rewrite (column_no_rows _ _ Hrows).
    change (null_count []) with 0%Z. rewrite andb_false_r.
    wp_steps. reflexivity.
  - intros acc s' ->. wp_steps. simpl. repeat split.
    eexists. split; [reflexivity |]. simpl.
    rewrite Hlen, Hrows. simpl.
    rewrite sum_Z_zero; [split; reflexivity |].
    intros i. unfold column_at. rewrite Hrows. reflexivity.
Qed.

Lemma check_uniqueness_empty s :
  rows (current_df s) = [] ->
  check_uniqueness s = (s, Raise ZeroDivisionError).
Proof.
  intros Hrows. unfold check_uniqueness.
  unfold bind at 1. unfold get_df at 1. fold (current_df s).
  unfold duplicated, df_empty, getitem_mask, percentage, py_div, len.
  rewrite Hrows. reflexivity.
Qed.

(** C1 (as amended).  On a dataset without records, [check_completeness]
    returns, with an undefined (NaN) completeness score and undefined
    percentages instead of 100, and appends no recommendation;
    [check_uniqueness] then raises ZeroDivisionError, so that
    [run_all_validations] raises it too: no recommendation is appended and
    no [overall] entry is written. *)
Theorem empty_dataset_run env s :
  rows (current_df s) = [] ->
  (exists c, snd (check_completeness s) = Ok c
             /\ completeness_score c = NaN
             /\ cp_percentage (missing_by_record c) = NaN) /\
  recommendations (self (fst (check_completeness s)))
    = recommendations (self s) /\
  snd (run_all_validations env s) = Raise ZeroDivisionError /\
  recommendations (self (fst (run_all_validations env s)))
    = recommendations (self s) /\
  overall (validation_results (self (fst (run_all_validations env s))))
    = overall (validation_results (self s)).
Proof.
  intros Hrows.
  pose proof (check_completeness_empty s Hrows) as Hc. unfold wp in Hc.
  destruct Hc as (Hc & Hrecs & Hheap & Hdf & Hov).
  split; [exact Hc |]. split; [exact Hrecs |].
  destruct Hc as (c & Hc & _).
  assert (Hrows1 : rows (current_df (fst (check_completeness s))) = []).
  { unfold current_df. rewrite Hheap, Hdf. exact Hrows. }
  assert (Hrun : run_all_validations env s
                 = (fst (check_completeness s), Raise ZeroDivisionError)).
  { unfold run_all_validations. unfold bind at 1.
    destruct (check_completeness s) as [s1 r1]. simpl in *. subst r1.
    unfold bind at 1. rewrite (check_uniqueness_empty s1 Hrows1).
    reflexivity. }
  rewrite Hrun. simpl. auto.
Qed.

Lemma empty_dataset_run_witness :
  snd (validate (sample_env 20261104) empty_visits None)
    = Raise ZeroDivisionError.
Proof.
  exact (proj1 (proj2 (proj2
           (empty_dataset_run (sample_env 20261104)
              (__init__ (caller_heap empty_visits) 0%nat None) eq_refl)))).
Defined.

(** C1, counterexample.  On the empty visits table, no score of 100 is
    produced: the run raises ZeroDivisionError, leaves no [overall] entry,
    and the completeness score it had computed is NaN. *)
Lemma empty_dataset_counterexample :
  let out := validate (sample_env 20261104) empty_visits None in
  snd out = Raise ZeroDivisionError /\
  overall (validation_results (self (fst out))) = None /\
  option_map completeness_score
    (completeness (validation_results (self (fst out)))) = Some NaN.
Proof. vm_compute. repeat split; reflexivity. Qed.

(** ** Equality of records *)

Lemma value_eqb_refl v : value_eqb v v = true.
Proof.
  destruct v as [| q | s | b | t]; simpl.
  - reflexivity.
  - apply Qeq_bool_refl.
  - apply String.eqb_refl.
  - destruct b; reflexivity.
  - apply Z.eqb_refl.
Qed.

Lemma value_eqb_sym v w : value_eqb v w = value_eqb w v.
Proof.
  destruct v as [| q | s | b | t], w as [| q' | s' | b' | t']; simpl;
    try reflexivity.
  - apply Qeq_bool_comm.
  - apply Qeq_bool_comm.
  - apply String.eqb_sym.
  - apply Qeq_bool_comm.
  - apply Qeq_bool_comm.
  - apply Z.eqb_sym.
Qed.

Lemma value_eqb_trans u v w :
  value_eqb u v = true -> value_eqb v w = true -> value_eqb u w = true.
Proof.
  destruct u as [| q | s | b | t], v as [| q' | s' | b' | t'],
    w as [| q'' | s'' | b'' | t'']; simpl; try discriminate; auto;
    try apply Qeq_bool_trans.
  - intros H1 H2. apply String.eqb_eq in H1, H2. subst. apply String.eqb_refl.
  - intros H1 H2. apply Z.eqb_eq in H1, H2. subst. apply Z.eqb_refl.
Qed.

Lemma key_eqb_refl k : key_eqb k k = true.
Proof.
  induction k as [| v k IH]; simpl; [reflexivity |].
  rewrite value_eqb_refl, IH. reflexivity.
Qed.

Lemma key_eqb_sym k k' : key_eqb k k' = key_eqb k' k.
Proof.
  revert k'. induction k as [| v k IH]; intros [| v' k']; simpl;
    try reflexivity.
  rewrite value_eqb_sym, IH. reflexivity.
Qed.

Lemma key_eqb_trans k1 k2 k3 :
  key_eqb k1 k2 = true -> key_eqb k2 k3 = true -> key_eqb k1 k3 = true.
Proof.
  revert k2 k3. induction k1 as [| v1 k1 IH]; intros [| v2 k2] [| v3 k3];
    simpl; try discriminate; auto.
  rewrite !andb_true_iff. intros [H1 H1'] [H2 H2']. split.
  - eapply value_eqb_trans; eauto.
  - eapply IH; eauto.
Qed.

(** Counting the marked rows, for any equivalence of rows given as a boolean
    relation. *)
Section OnePair.
Variable A : Type.
Variable E : A -> A -> bool.
Hypothesis E_refl : forall x, E x x = true.
Hypothesis E_sym : forall x y, E x y = E y x.
Hypothesis E_trans : forall x y z, E x y = true -> E y z = true -> E x z = true.

Lemma E_congr x y z : E x y = true -> E x z = E y z.
Proof.
  intros Hxy. destruct (E y z) eqn:Hyz.
  - eapply E_trans; eauto.
  - destruct (E x z) eqn:Hxz; [| reflexivity].
    rewrite <- Hyz. symmetry. eapply E_trans; [| exact Hxz].
    rewrite E_sym. exact Hxy.
Qed.

Lemma occ_app l l' x : occ E (l ++ l') x = (occ E l x + occ E l' x)%nat.
Proof. unfold occ. rewrite List.filter_app, length_app. reflexivity. Qed.

Lemma occ_cons y l x :
  occ E (y :: l) x = ((if E x y then 1 else 0) + occ E l x)%nat.
Proof. unfold occ. simpl. destruct (E x y); reflexivity. Qed.

Lemma occ_none l x : Forall (fun y => E x y = false) l -> occ E l x = 0%nat.
Proof.
  unfold occ. induction 1 as [| y l Hy _ IH]; simpl; [reflexivity |].
  rewrite Hy. exact IH.
Qed.

Lemma occ_distinct l x :
  ForallOrdPairs (fun y z => E y z = false) l -> In x l -> occ E l x = 1%nat.
Proof.
  induction 1 as [| y l Hy Hl IH]; intros Hin; [destruct Hin |].
  rewrite occ_cons. destruct Hin as [-> | Hin].
  - rewrite E_refl, occ_none by exact Hy. reflexivity.
  - rewrite IH by exact Hin.
    rewrite List.Forall_forall in Hy. rewrite E_sym, (Hy x Hin). reflexivity.
Qed.

Lemma filter_length_ext (f g : A -> bool) l :
  (forall x, In x l -> f x = g x) ->
  length (List.filter f l) = length (List.filter g l).
Proof.
  intros H. rewrite (List.filter_ext_in f g l H). reflexivity.
Qed.

(** Two equal rows in a list whose rows are otherwise pairwise distinct:
    exactly those two are marked. *)
Lemma one_pair_marked a r1 b r2 c :
  E r1 r2 = true ->
  ForallOrdPairs (fun y z => E y z = false) (a ++ r1 :: b ++ c) ->
  length (List.filter (marked E (a ++ r1 :: b ++ r2 :: c))
            (a ++ r1 :: b ++ r2 :: c)) = 2%nat.
Proof.
  intros H12 Hd.
  set (l0 := (a ++ r1 :: b ++ c)%list) in *.
  set (l := (a ++ r1 :: b ++ r2 :: c)%list).
  assert (Hocc : forall x, occ E l x = (occ E l0 x + (if E x r2 then 1 else 0))%nat).
  { intros x. unfold l, l0.
    rewrite !occ_app, !occ_cons, !occ_app, !occ_cons. lia. }
  assert (H1 : In r1 l0) by (unfold l0; rewrite in_app_iff; right; left; reflexivity).
  assert (Hr2 : occ E l0 r2 = 1%nat).
  { rewrite <- (occ_distinct l0 r1 Hd H1). unfold occ.
    apply filter_length_ext. intros x _. symmetry. apply E_congr. exact H12. }
  assert (Hm : forall x, In x l0 -> marked E l x = E r2 x).
  { intros x Hx. unfold marked. rewrite Hocc, (occ_distinct l0 x Hd Hx).
    rewrite (E_sym r2 x). destruct (E x r2); reflexivity. }
  assert (Hm2 : marked E l r2 = true).
  { unfold marked. rewrite Hocc, Hr2, E_refl. reflexivity. }
  assert (Hsplit : length (List.filter (marked E l) l)
                   = (length (List.filter (marked E l) l0) + 1)%nat).
  { unfold l at 2, l0.
    rewrite !List.filter_app. simpl. rewrite !List.filter_app. simpl.
    rewrite Hm2. destruct (marked E l r1); simpl;
      rewrite ?length_app; simpl; rewrite ?length_app; simpl; lia. }
  rewrite Hsplit, (filter_length_ext _ _ _ Hm).
  fold (occ E l0 r2). rewrite Hr2. reflexivity.
Qed.
End OnePair.

(** ** Exact duplicates in [check_uniqueness] *)

Lemma key_eqb_cells S r r' :
  key_eqb (row_key S r) (row_key S r') = true <->
  (forall i, In i S -> value_eqb (cell i r) (cell i r') = true).
Proof.
  unfold row_key. induction S as [| i S IH]; simpl.
  - split; [intros _ i [] | reflexivity].
  - rewrite andb_true_iff, IH. split.
    + intros [Hi HS] j [<- | Hj]; auto.
    + intros H. split; [apply H; left; reflexivity |].
      intros j Hj. apply H. right. exact Hj.
Qed.

Lemma same_key_subset df S r r' :
  same_key (all_columns df) r r' = true ->
  (forall i, In i S -> (i < length (columns df))%nat) ->
  same_key S r r' = true.
Proof.
  unfold same_key. rewrite !key_eqb_cells. intros H HS i Hi.
  apply H. unfold all_columns. apply in_seq. specialize (HS i Hi). lia.
Qed.

Lemma same_key_refl S r : same_key S r r = true.
Proof. apply key_eqb_refl. Qed.

Lemma same_key_sym S r r' : same_key S r r' = same_key S r' r.
Proof. apply key_eqb_sym. Qed.

Lemma same_key_trans S r1 r2 r3 :
  same_key S r1 r2 = true -> same_key S r2 r3 = true ->
  same_key S r1 r3 = true.
Proof. apply key_eqb_trans. Qed.

Lemma duplicated_mask_marked S rs :
  duplicated_mask S rs = map (marked (same_key S) rs) rs.
Proof. reflexivity. Qed.

Lemma duplicated_mask_length S rs :
  length (duplicated_mask S rs) = length rs.
Proof. apply length_map. Qed.

Lemma getitem_duplicated S df :
  getitem_mask (duplicated_mask S (rows df)) df
  = Ok (List.filter (marked (same_key S) (rows df)) (rows df)).
Proof.
  unfold getitem_mask. rewrite duplicated_mask_length, Nat.eqb_refl.
  rewrite duplicated_mask_marked, select_map. reflexivity.
Qed.

(** A row that has a twin elsewhere in the list is marked. *)
Lemma pair_member_marked {A : Type} (E : A -> A -> bool) a r1 b r2 c :
  (forall x, E x x = true) -> E r1 r2 = true ->
  marked E (a ++ r1 :: b ++ r2 :: c) r1 = true.
Proof.
  intros Hrefl H12. unfold marked.
  rewrite occ_app, occ_cons, occ_app, occ_cons, Hrefl, H12.
  apply Nat.leb_le. lia.
Qed.

Lemma filter_nonempty {A : Type} (f : A -> bool) l x :
  In x l -> f x = true -> (0 < len_list (List.filter f l))%Z.
Proof.
  intros Hin Hf. assert (H : In x (List.filter f l)) by (apply List.filter_In; auto).
  unfold len_list. destruct (List.filter f l); [destruct H | simpl; lia].
Qed.

Lemma percentage_ok a b : b <> 0%Z -> exists p, percentage a b = Ok p.
Proof.
  intros Hb. unfold percentage, py_div.
  destruct (Z.eqb_spec b 0); [contradiction | eauto].
Qed.

Lemma py_div_ok a b : b <> 0%Z -> exists q, py_div a b = Ok q.
Proof.
  intros Hb. unfold py_div.
  destruct (Z.eqb_spec b 0); [contradiction | eauto].
Qed.

(** The cardinality loop of [check_uniqueness] on a frame with records:
    it returns and leaves the state alone. *)
Lemma unique_constraints_loop df cols acc s :
  len df <> 0%Z ->
  wp (for_fold (fun acc col =>
        if has_column col df then
          bind (lift (py_div (nunique (column col df)) (len df)))
            (fun ratio =>
               ret (dict_set col
                      (mkUniqueConstraint (nunique (column col df)) (len df)
                         (Fin (round4 ratio)))
                      acc))
        else ret acc) cols acc)
    (fun r s' => s' = s /\ exists acc', r = Ok acc') s.
Proof.
  intros Hlen.
  apply (wp_for_fold _ _ (fun _ s' => s' = s)); [| eauto | reflexivity].
  intros acc0 col s' _ ->. destruct (has_column col df).
  - destruct (py_div_ok (nunique (column col df)) (len df) Hlen) as [q Hq].
    rewrite Hq. wp_steps. reflexivity.
  - wp_steps. reflexivity.
Qed.

Lemma duplicated_all df :
  df_empty df = false ->
  duplicated None df = Ok (duplicated_mask (all_columns df) (rows df)).
Proof. intros H. unfold duplicated. rewrite H. reflexivity. Qed.

Lemma duplicated_keys df i j :
  df_empty df = false ->
  col_index "patient_id" (columns df) = Some i ->
  col_index "date" (columns df) = Some j ->
  duplicated (Some ["patient_id"; "date"]) df
  = Ok (duplicated_mask [i; j] (rows df)).
Proof.
  intros H Hi Hj. unfold duplicated, has_column. rewrite H. simpl.
  rewrite Hi, Hj. reflexivity.
Qed.

(** C9.  When exactly two records of a dataset (with its [patient_id] and
    [date] columns) are identical across every column, all other records
    being pairwise different, [check_uniqueness] reports 2 exact duplicates
    and appends two recommendations: exactly one of MEDIUM severity, for
    the exact duplicates, followed by the HIGH one for the repeated
    identifier and date. *)
Theorem one_duplicate_pair s a r1 b r2 c :
  has_column "patient_id" (current_df s) = true ->
  has_column "date" (current_df s) = true ->
  rows (current_df s) = (a ++ r1 :: b ++ r2 :: c)%list ->
  same_key (all_columns (current_df s)) r1 r2 = true ->
  ForallOrdPairs
    (fun x y => same_key (all_columns (current_df s)) x y = false)
    (a ++ r1 :: b ++ c)%list ->
  exists u m h,
    snd (check_uniqueness s) = Ok u /\
    cp_count (exact_duplicates u) = 2%Z /\
    recommendations (self (fst (check_uniqueness s)))
      = (recommendations (self s) ++ [m; h])%list /\
    severity m = MEDIUM /\ severity h = HIGH.
Proof.
  intros Hpid Hdate Hrows H12 Hd.
  set (df := current_df s) in *.
  destruct (has_column_index _ _ Hpid) as [i Hi].
  destruct (has_column_index _ _ Hdate) as [j Hj].
  assert (Hne : df_empty df = false).
  { unfold df_empty. rewrite Hrows.
    destruct (columns df); [discriminate |].
    destruct a; reflexivity. }
  assert (Hlen : len df <> 0%Z).
  { unfold len. rewrite Hrows, length_app. simpl. lia. }
  assert (Hexact :
    len_list (List.filter (marked (same_key (all_columns df)) (rows df))
                (rows df)) = 2%Z).
  { unfold len_list. rewrite Hrows.
    rewrite (one_pair_marked row (same_key (all_columns df))
               (same_key_refl _) (same_key_sym _) (same_key_trans _)
               a r1 b r2 c H12 Hd). reflexivity. }
  assert (Hkeys :
    (0 <? len_list (List.filter (marked (same_key [i; j]) (rows df))
                      (rows df)))%Z = true).
  { apply Z.ltb_lt. apply (filter_nonempty _ _ r1).
    - rewrite Hrows. apply in_app_iff. right. left. reflexivity.
    - rewrite Hrows. apply pair_member_marked; [apply same_key_refl |].
      apply (same_key_subset df); [exact H12 |].
      intros k [<- | [<- | []]]; eapply col_index_lt; eauto. }
  change (wp check_uniqueness
            (fun r s' => exists u m h, r = Ok u /\
               cp_count (exact_duplicates u) = 2%Z /\
               recommendations (self s')
                 = (recommendations (self s) ++ [m; h])%list /\
               severity m = MEDIUM /\ severity h = HIGH) s).
  unfold check_uniqueness. wp_steps. fold df.
  rewrite (duplicated_all df Hne), (duplicated_keys df i j Hne Hi Hj).
  wp_steps. rewrite getitem_duplicated. wp_steps. rewrite Hexact.
  destruct (percentage_ok 2 (len df) Hlen) as [p Hp]. rewrite Hp. wp_steps.
  apply wp_when; [intros _ | discriminate]. wp_steps.
  rewrite getitem_duplicated. wp_steps.
  destruct (percentage_ok
              (len_list (List.filter (marked (same_key [i; j]) (rows df))
                           (rows df)))
              (len df) Hlen) as [p' Hp'].
  rewrite Hp'. wp_steps. rewrite Hkeys.
  apply wp_when; [intros _ | discriminate]. wp_steps.
  eapply wp_mono; [apply unique_constraints_loop; exact Hlen |].
  intros r s' [-> [acc' ->]]. wp_steps.
  do 3 eexists. split; [reflexivity |]. simpl.
  rewrite <- app_assoc. repeat split; reflexivity.
Qed.

Lemma one_duplicate_pair_witness :
  exists u m h,
    snd (check_uniqueness (__init__ (caller_heap sample_visits) 0%nat None))
      = Ok u /\
    cp_count (exact_duplicates u) = 2%Z /\
    recommendations
      (self (fst (check_uniqueness
                    (__init__ (caller_heap sample_visits) 0%nat None))))
      = ([] ++ [m; h])%list /\
    severity m = MEDIUM /\ severity h = HIGH.
Proof.
  refine (one_duplicate_pair
            (__init__ (caller_heap sample_visits) 0%nat None)
            []
            (visit "2020-03-20" "145-39-5406" "M" 69 (Some 10%Z) "White"
               false 39 None)
            [visit "2020-06-15" "316-34-3057" "F" 4 None "Asian" true 27
               (Some "Cardiology");
             visit "2020-06-20" "897-46-3852" "F" 56 (Some 9%Z) "White" true
               65 (Some "General Practice");
             visit "2020-02-04" "358-31-9711" "X" 121 (Some 2%Z) "Black"
               false 310 None]
            (visit "2020-03-20" "145-39-5406" "M" 69 (Some 10%Z) "White"
               false 39 None)
            [] eq_refl eq_refl eq_refl eq_refl _).
  repeat constructor.
Defined.

(** ** Absent columns *)

Lemma df_empty_false df :
  df_empty df = false -> len df <> 0%Z /\ columns df <> [].
Proof.
  unfold df_empty, len. destruct (rows df), (columns df); try discriminate.
  intros _. split; [simpl; lia | discriminate].
Qed.

(** C2, the defect.  On a dataset that has records and columns but lacks
    [patient_id] or [date], [check_uniqueness] raises KeyError for the
    absent labels: the subset of [duplicated] is not guarded by a presence
    test, unlike the cardinality loop below it and the other checks.  No
    uniqueness result is stored. *)
Theorem check_uniqueness_missing_key s :
  df_empty (current_df s) = false ->
  has_column "patient_id" (current_df s) && has_column "date" (current_df s)
    = false ->
  exists c missing,
    snd (check_uniqueness s) = Raise (KeyError (c :: missing)) /\
    c :: missing
      = List.filter (fun c => negb (has_column c (current_df s)))
          ["patient_id"; "date"] /\
    validation_results (self (fst (check_uniqueness s)))
      = validation_results (self s).
Proof.
  intros Hne Hkeys. set (df := current_df s) in *.
  destruct (df_empty_false df Hne) as [Hlen _].
  assert (Hmiss : exists c missing,
             List.filter (fun c => negb (has_column c df))
               ["patient_id"; "date"] = c :: missing).
  { simpl. destruct (has_column "patient_id" df); simpl; [| eauto].
    simpl in Hkeys. rewrite Hkeys. simpl. eauto. }
  destruct Hmiss as (c & missing & Hmiss).
  exists c, missing.
  change (wp check_uniqueness
            (fun r s' =>
               r = Raise (KeyError (c :: missing)) /\
               c :: missing
                 = List.filter (fun c => negb (has_column c df))
                     ["patient_id"; "date"] /\
               validation_results (self s') = validation_results (self s)) s).
  unfold check_uniqueness. wp_steps. fold df.
  rewrite (duplicated_all df Hne). wp_steps.
  rewrite getitem_duplicated. wp_steps.
  match goal with
  | |- context [percentage ?a (len df)] =>
      destruct (percentage_ok a (len df) Hlen) as [p Hp]; rewrite Hp
  end.
  wp_steps.
  assert (Hdup : duplicated (Some ["patient_id"; "date"]) df
                 = Raise (KeyError (c :: missing))).
  { unfold duplicated. rewrite Hne, Hmiss. reflexivity. }
  rewrite Hdup.
  apply wp_when; intros _; wp_steps; auto.
Qed.

Lemma check_uniqueness_missing_key_witness :
  exists c missing,
    snd (check_uniqueness (__init__ (caller_heap boundary_ages) 0%nat None))
      = Raise (KeyError (c :: missing)) /\
    c :: missing = ["patient_id"; "date"] /\
    validation_results
      (self (fst (check_uniqueness
                    (__init__ (caller_heap boundary_ages) 0%nat None))))
      = no_results.
Proof.
  exact (check_uniqueness_missing_key
           (__init__ (caller_heap boundary_ages) 0%nat None)
           eq_refl eq_refl).
Defined.

(** ** Percentages and their denominators *)

Lemma round_half_even_comp q q' :
  (q == q')%Q -> round_half_even q = round_half_even q'.
Proof.
  intros H. unfold round_half_even.
  rewrite (Qfloor_comp _ _ H).
  assert (Hc : (q - inject_Z (Qfloor q') ?= 1 # 2)%Q
               = (q' - inject_Z (Qfloor q') ?= 1 # 2)%Q).
  { apply Qcompare_comp; [rewrite H |]; reflexivity. }
  rewrite Hc. reflexivity.
Qed.

Lemma round2_comp q q' : (q == q')%Q -> round2 q = round2 q'.
Proof.
  intros H. unfold round2. f_equal. apply round_half_even_comp.
  rewrite H. reflexivity.
Qed.

Lemma div_times_100 a b :
  b <> 0%Z ->
  (inject_Z a / inject_Z b * 100 == inject_Z (100 * a) / inject_Z b)%Q.
Proof.
  intros Hb. rewrite inject_Z_mult. field.
  intros H. apply Hb. apply (inject_Z_injective b 0). exact H.
Qed.

(** [round((a / b) * 100, 2)] is the percentage of [a] in [b]. *)
Lemma percentage_percent_of a b p :
  percentage a b = Ok p -> p = percent_of a b /\ b <> 0%Z.
Proof.
  unfold percentage, py_div, percent_of.
  destruct (Z.eqb_spec b 0) as [| Hb]; [discriminate |].
  intros [= <-]. split; [| exact Hb].
  f_equal. apply round2_comp. apply div_times_100. exact Hb.
Qed.

(** The same with a numpy count as numerator, which never raises. *)
Lemma np_percentage_percent_of a b :
  (b = 0%Z -> a = 0%Z) ->
  fround2 (fmul100 (np_div a b)) = percent_of a b.
Proof.
  intros H0. unfold np_div, percent_of.
  destruct (Z.eqb_spec b 0) as [Hb | Hb].
  - rewrite (H0 Hb). reflexivity.
  - simpl. f_equal. apply round2_comp. apply div_times_100. exact Hb.
Qed.

Lemma dict_set_In {V : Type} k (v : V) d k' v' :
  In (k', v') (dict_set k v d) -> (k', v') = (k, v) \/ In (k', v') d.
Proof.
  induction d as [| [k0 v0] d IH]; simpl.
  - intros [H | []]. left. symmetry. exact H.
  - destruct (String.eqb k k0); simpl.
    + intros [H | H]; [left; symmetry; exact H | right; right; exact H].
    + intros [H | H]; [right; left; exact H |].
      destruct (IH H) as [H' | H']; [left | right; right]; exact H'.
Qed.

Lemma dict_set_keys {V : Type} k (v : V) d k' :
  In k' (map fst (dict_set k v d)) <-> k' = k \/ In k' (map fst d).
Proof.
  induction d as [| [k0 v0] d IH]; simpl.
  - intuition.
  - destruct (String.eqb_spec k k0) as [-> | Hne]; simpl.
    + intuition.
    + rewrite IH. intuition.
Qed.

Lemma in_keys {V : Type} (d : list (string * V)) k :
  In k (map fst d) <-> exists v, In (k, v) d.
Proof.
  rewrite in_map_iff. split.
  - intros ([k' v] & <- & H). eauto.
  - intros (v & H). exists (k, v). auto.
Qed.

Lemma count_true_bounds m : (0 <= count_true m <= Z.of_nat (length m))%Z.
Proof.
  unfold count_true. pose proof (List.filter_length_le (fun b => b) m). lia.
Qed.

Lemma null_count_no_rows c df : len df = 0%Z -> null_count (column c df) = 0%Z.
Proof.
  intros H. rewrite column_no_rows; [reflexivity |].
  unfold len in H. destruct (rows df); [reflexivity | simpl in H; lia].
Qed.

(** ** Bounds of the scores *)

Lemma round_half_even_bounds q a b :
  (inject_Z a <= q <= inject_Z b)%Q -> (a <= round_half_even q <= b)%Z.
Proof.
  intros [Ha Hb]. unfold round_half_even.
  pose proof (Qfloor_le q) as Hf1. pose proof (Qlt_floor q) as Hf2.
  assert (Haf : (a <= Qfloor q)%Z).
  { rewrite <- (Qfloor_Z a). apply Qfloor_resp_le. exact Ha. }
  assert (Hfb : (Qfloor q <= b)%Z).
  { rewrite <- (Qfloor_Z b). apply Qfloor_resp_le. exact Hb. }
  assert (Hup : (0 < q - inject_Z (Qfloor q))%Q -> (Qfloor q + 1 <= b)%Z).
  { intros Hpos. assert (Hlt : (inject_Z (Qfloor q) < inject_Z b)%Q).
    { apply Qlt_le_trans with q; [| exact Hb].
      apply Qlt_minus_iff. exact Hpos. }
    rewrite <- Zlt_Qlt in Hlt. lia. }
  destruct (Qcompare_spec (q - inject_Z (Qfloor q)) (1 # 2)) as [He | Hl | Hg].
  - destruct (Z.even (Qfloor q)); [lia |].
    split; [lia |]. apply Hup. rewrite He. reflexivity.
  - lia.
  - split; [lia |]. apply Hup. lra.
Qed.

Lemma round2_bounds q : (0 <= q <= 100)%Q -> (0 <= round2 q <= 100)%Q.
Proof.
  intros [H0 H1]. unfold round2.
  destruct (round_half_even_bounds (q * 100) 0 10000) as [Ha Hb].
  { unfold inject_Z. split; lra. }
  unfold Qle. simpl. lia.
Qed.

Lemma max0_bounds q : (q <= 100)%Q -> (0 <= max0 q <= 100)%Q.
Proof.
  intros H. unfold max0. destruct (Qltb 0 q) eqn:E.
  - apply Qltb_lt in E. lra.
  - lra.
Qed.

Lemma sum_Z_nonneg {A : Type} (f : A -> Z) l :
  (forall a, In a l -> (0 <= f a)%Z) -> (0 <= sum_Z (map f l))%Z.
Proof.
  intros H. induction l as [| a l IH]; simpl; [lia |].
  assert (0 <= f a)%Z by (apply H; left; reflexivity).
  assert (0 <= sum_Z (map f l))%Z by (apply IH; intros; apply H; right; auto).
  lia.
Qed.

Lemma sum_Z_le {A : Type} (f : A -> Z) l b :
  (forall a, In a l -> (0 <= f a <= b)%Z) ->
  (0 <= sum_Z (map f l) <= len_list l * b)%Z.
Proof.
  intros H. unfold len_list. induction l as [| a l IH]; simpl length; simpl sum_Z; [lia |].
  assert (0 <= f a <= b)%Z by (apply H; left; reflexivity).
  assert (0 <= sum_Z (map f l) <= Z.of_nat (length l) * b)%Z
    by (apply IH; intros; apply H; right; auto).
  lia.
Qed.

Lemma null_count_bounds i df : (0 <= null_count (column_at i df) <= len df)%Z.
Proof.
  unfold null_count, column_at, len.
  pose proof (count_true_bounds (map isnull (map (cell i) (rows df)))) as H.
  rewrite !length_map in H. exact H.
Qed.

Lemma rate_nonneg a b : (0 <= a)%Z -> (0 < b)%Z -> (0 <= inject_Z a / inject_Z b)%Q.
Proof.
  intros Ha Hb. apply Qle_shift_div_l.
  - change 0%Q with (inject_Z 0). rewrite <- Zlt_Qlt. exact Hb.
  - rewrite Qmult_0_l. change 0%Q with (inject_Z 0). rewrite <- Zle_Qle. exact Ha.
Qed.

Lemma rate_le_1 a b : (a <= b)%Z -> (0 < b)%Z -> (inject_Z a / inject_Z b <= 1)%Q.
Proof.
  intros Ha Hb. apply Qle_shift_div_r.
  - change 0%Q with (inject_Z 0). rewrite <- Zlt_Qlt. exact Hb.
  - rewrite Qmult_1_l. rewrite <- Zle_Qle. exact Ha.
Qed.

Lemma percent_of_bounds a b :
  (0 <= a <= b)%Z -> b <> 0%Z ->
  exists q, percent_of a b = Fin q /\ (0 <= q <= 100)%Q.
Proof.
  intros Ha Hb. unfold percent_of.
  destruct (Z.eqb_spec b 0); [contradiction |].
  eexists. split; [reflexivity |]. apply round2_bounds.
  assert (H0 : (0 <= inject_Z a / inject_Z b)%Q) by (apply rate_nonneg; lia).
  assert (H1 : (inject_Z a / inject_Z b <= 1)%Q) by (apply rate_le_1; lia).
  assert (E : (inject_Z (100 * a) / inject_Z b == 100 * (inject_Z a / inject_Z b))%Q).
  { rewrite inject_Z_mult. field. intros H. apply n.
    apply (inject_Z_injective b 0). exact H. }
  rewrite E. lra.
Qed.

Ltac wp_case H :=
  wp_steps;
  lazymatch goal with
  | |- bind_post _ _ ?r _ =>
      destruct r eqn:H; unfold bind_post at 1; [wp_steps | try exact I]
  end.

Lemma missing_cells_bounds df :
  (0 <= sum_Z (map (fun i => null_count (column_at i df)) (all_columns df))
   <= len df * len_list (columns df))%Z.
Proof.
  pose proof (sum_Z_le (fun i => null_count (column_at i df))
                (all_columns df) (len df)
                (fun i _ => null_count_bounds i df)) as H.
  unfold len_list, all_columns in *. rewrite length_seq in H. lia.
Qed.

Lemma check_completeness_content s :
  wp check_completeness
    (fun r s' =>
       on_ok (fun c =>
         (forall col m, In (col, m) (missing_by_column c) ->
            mc_percentage m = percent_of (mc_count m) (len (current_df s))) /\
         cp_percentage (missing_by_record c)
           = percent_of (cp_count (missing_by_record c)) (len (current_df s)) /\
         (df_empty (current_df s) = false ->
          exists q, completeness_score c = Fin q /\ (0 <= q <= 100)%Q) /\
         completeness (validation_results (self s')) = Some c)
         r)
    s.
Proof.
  unfold check_completeness. wp_steps. set (df := current_df s).
  apply (wp_for_fold _ _
           (fun acc _ => forall col m, In (col, m) acc ->
              mc_percentage m = percent_of (mc_count m) (len df))).
  - intros acc col s' _ Hacc. wp_steps.
    apply wp_when; intros _; wp_steps;
      intros col' m Hin; apply dict_set_In in Hin;
      (destruct Hin as [[= -> ->] | Hin]; [| apply Hacc in Hin; exact Hin]);
      simpl; apply np_percentage_percent_of; apply null_count_no_rows.
  - intros acc s' Hacc. wp_steps. simpl. split; [exact Hacc |].
    split; [| split; [| reflexivity]].
    + apply np_percentage_percent_of. intros Hlen.
      unfold len in Hlen.
      destruct (rows df); [reflexivity | simpl in Hlen; lia].
    + intros Hne. destruct (df_empty_false df Hne) as [Hlen Hcols].
      pose proof (missing_cells_bounds df) as Hm.
      assert (Hcols' : (0 < len_list (columns df))%Z).
      { unfold len_list. destruct (columns df); [contradiction | simpl; lia]. }
      assert (Hlen' : (0 < len df)%Z) by (unfold len in *; lia).
      rewrite np_percentage_percent_of by nia.
      apply percent_of_bounds; nia.
  - intros col m [].
Qed.

Lemma wp_when_append {B : Type} b r (k : unit -> M B) Q s :
  (forall s', wp (k tt) Q s') ->
  wp (when b (append_recommendation r)) (bind_post k Q) s.
Proof.
  intros H. apply wp_when; intros _; wp_steps; apply H.
Qed.

Lemma len_list_nonneg {A : Type} (l : list A) : (0 <= len_list l)%Z.
Proof. unfold len_list. lia. Qed.

Lemma getitem_mask_le mask df sel :
  getitem_mask mask df = Ok sel -> (len_list sel <= len df)%Z.
Proof.
  unfold getitem_mask.
  destruct (length mask =? length (rows df))%nat; [| discriminate].
  intros [= <-]. unfold len_list, len. apply inj_le. apply select_length_le.
Qed.

Lemma check_uniqueness_content s :
  wp check_uniqueness
    (fun r s' =>
       on_ok (fun u =>
         df_empty (current_df s) = false /\
         cp_percentage (exact_duplicates u)
           = percent_of (cp_count (exact_duplicates u)) (len (current_df s)) /\
         (0 <= cp_count (exact_duplicates u) <= len (current_df s))%Z /\
         cp_percentage (id_date_duplicates u)
           = percent_of (cp_count (id_date_duplicates u))
               (len (current_df s)) /\
         uniqueness (validation_results (self s')) = Some u)
         r)
    s.
Proof.
  unfold check_uniqueness. wp_steps. set (df := current_df s).
  wp_case Hmask. wp_case Hexact. wp_case Hp.
  apply percentage_percent_of in Hp. destruct Hp as [-> Hlen].
  assert (Hne : df_empty df = false).
  { unfold duplicated in Hmask. destruct (df_empty df) eqn:E; [| reflexivity].
    injection Hmask as <-. unfold getitem_mask in Hexact. simpl in Hexact.
    unfold len in Hlen. destruct (rows df); [simpl in Hlen; lia | discriminate]. }
  pose proof (getitem_mask_le _ _ _ Hexact) as Hle.
  apply wp_when_append. intros s1.
  wp_case Hmask'. wp_case Hid. wp_case Hp'.
  apply percentage_percent_of in Hp'. destruct Hp' as [-> _].
  apply wp_when_append. intros s2. wp_steps.
  eapply wp_mono; [apply unique_constraints_loop; exact Hlen |].
  intros r s' [-> [acc' ->]]. wp_steps. simpl.
  pose proof (len_list_nonneg a0). repeat split; auto; lia.
Qed.

Lemma out_of_range_le lo hi col df vs :
  out_of_range lo hi col df = Ok vs -> (0 <= len_list vs <= len df)%Z.
Proof.
  unfold out_of_range.
  destruct (compare_series LT lo col); [| discriminate].
  destruct (compare_series GT hi col); [| discriminate].
  intros [= <-]. split; [apply len_list_nonneg |].
  unfold len_list, len. apply inj_le. apply select_length_le.
Qed.

Lemma check_validity_content env s :
  wp (check_validity env)
    (fun r s' =>
       on_ok (fun v =>
         (forall col e, In (col, e) (range_violations v) ->
            rv_percentage e
              = percent_of (rv_violations e) (len (current_df s)) /\
            (0 <= rv_violations e)%Z /\
            exists lo hi vs,
              In (col, (lo, hi)) (expected_ranges (self_config (self s))) /\
              has_column col (current_df s) = true /\
              out_of_range (inject_Z lo) (inject_Z hi)
                (column col (current_df s)) (current_df s) = Ok vs /\
              rv_violations e = len_list vs) /\
         (forall col e, In (col, e) (value_violations v) ->
            (0 <= vv_violations e)%Z) /\
         validity (validation_results (self s')) = Some v)
         r)
    s.
Proof.
  unfold check_validity. wp_steps. set (df := current_df s).
  set (cfg := self_config (self s)).
  apply (wp_for_fold _ _
           (fun acc _ => forall col e, In (col, e) acc ->
              rv_percentage e = percent_of (rv_violations e) (len df) /\
              (0 <= rv_violations e)%Z /\
              exists lo hi vs,
                In (col, (lo, hi)) (expected_ranges cfg) /\
                has_column col df = true /\
                out_of_range (inject_Z lo) (inject_Z hi) (column col df) df
                  = Ok vs /\
                rv_violations e = len_list vs)).
  - intros acc [col [lo hi]] s' Hin Hacc. simpl.
    destruct (has_column col df) eqn:Hcol; [| wp_steps; exact Hacc].
    wp_case Hvs. wp_case Hp.
    apply percentage_percent_of in Hp. destruct Hp as [-> _].
    apply wp_when_append. intros s1. wp_steps.
    intros col' e He. apply dict_set_In in He.
    destruct He as [[= -> ->] | He]; [| apply Hacc; exact He].
    simpl. split; [reflexivity |]. split; [apply len_list_nonneg |].
    exists lo, hi, a. auto.
  - intros ranges s1 Hranges. wp_steps.
    apply (wp_for_fold _ _
             (fun acc _ => forall col e, In (col, e) acc ->
                (0 <= vv_violations e)%Z)).
    + intros acc [col valid] s' _ Hacc. simpl.
      destruct (has_column col df); [| wp_steps; exact Hacc].
      wp_steps. apply wp_when_append. intros s2. wp_steps.
      intros col' e He. apply dict_set_In in He.
      destruct He as [[= -> ->] | He]; [| eapply Hacc; exact He].
      simpl. apply len_list_nonneg.
    + intros values s2 Hvalues. wp_steps.
      destruct (has_column "date" df).
      * destruct (to_datetime_error env (column "date" df));
          wp_steps; simpl; auto.
      * wp_steps. simpl. auto.
    + intros col e [].
  - intros col e [].
Qed.

Lemma current_df_assign c vals s :
  current_df (fst (assign_column c vals s)) = set_column c vals (current_df s).
Proof.
  unfold current_df, assign_column, deref. simpl.
  rewrite lookup_insert_eq. reflexivity.
Qed.

Lemma len_with_date_parsed env df :
  has_column "date" df = true ->
  len (set_column "date_parsed" (to_datetime_coerce env (column "date" df)) df)
  = len df.
Proof.
  intros Hd. unfold len. f_equal. apply set_column_length.
  unfold to_datetime_coerce. rewrite length_map. apply column_length. exact Hd.
Qed.

Lemma wp_when_append_df {B : Type} b r (k : unit -> M B) Q s :
  (forall s', current_df s' = current_df s -> wp (k tt) Q s') ->
  wp (when b (append_recommendation r)) (bind_post k Q) s.
Proof.
  intros H. apply wp_when; intros _; wp_steps; apply H; reflexivity.
Qed.

Lemma check_consistency_content env s :
  wp (check_consistency env)
    (fun r s' =>
       on_ok (fun c =>
         (forall f, future_dates c = Some f ->
            cp_percentage f = percent_of (cp_count f) (len (current_df s)) /\
            (0 <= cp_count f)%Z) /\
         (forall h, high_sat_high_wait c = Some h ->
            cp_percentage h = percent_of (cp_count h) (len (current_df s))) /\
         consistency (validation_results (self s')) = Some c)
         r)
    s.
Proof.
  unfold check_consistency. wp_steps. set (df := current_df s).
  match goal with
  | |- wp _ (bind_post ?k ?Q) _ =>
      assert (Hk : forall fd s',
                 len (current_df s') = len df ->
                 (forall f, fd = Some f ->
                    cp_percentage f = percent_of (cp_count f) (len df) /\
                    (0 <= cp_count f)%Z) ->
                 wp (k fd) Q s')
  end.
  { intros fd s' Hlen Hfd. wp_steps.
    destruct (has_column "patient_sat_score" (current_df s')
              && has_column "patient_waittime" (current_df s')).
    - wp_case Hsat. wp_case Hwait. wp_case Hp.
      apply percentage_percent_of in Hp. destruct Hp as [-> _].
      rewrite Hlen.
      destruct (has_column "patient_age" (current_df s')
                && has_column "department_referral" (current_df s')).
      + wp_case Hyoung. simpl. split; [exact Hfd |].
        split; [intros h [= <-] |]; reflexivity.
      + wp_steps. simpl. split; [exact Hfd |].
        split; [intros h [= <-] |]; reflexivity.
    - wp_steps.
      destruct (has_column "patient_age" (current_df s')
                && has_column "department_referral" (current_df s')).
      + wp_case Hyoung. simpl.
        split; [exact Hfd | split; [discriminate | reflexivity]].
      + wp_steps. simpl.
        split; [exact Hfd | split; [discriminate | reflexivity]]. }
  destruct (has_column "date" df) eqn:Hd.
  - wp_steps. rewrite current_df_assign. fold df.
    pose proof (len_with_date_parsed env df Hd) as Hlen.
    wp_case Hlater. wp_case Hp. rewrite Hlen in Hp.
    apply percentage_percent_of in Hp. destruct Hp as [-> _].
    apply wp_when_append_df. intros s1 Hs1. cbv beta.
    apply wp_ret. unfold bind_post at 1. apply Hk.
    + rewrite Hs1, current_df_assign. exact Hlen.
    + intros f [= <-]. simpl. split; [reflexivity | apply len_list_nonneg].
  - apply wp_ret. unfold bind_post at 1. apply Hk; [reflexivity | discriminate].
Qed.

Lemma check_accuracy_content s :
  wp check_accuracy
    (fun r s' =>
       on_ok (fun a =>
         (forall col o, In (col, o) (outliers a) ->
            out_percentage o
              = percent_of (out_count o)
                  (len_list (List.filter notna (column col (current_df s)))) /\
            (0 <= out_count o <= len (current_df s))%Z) /\
         accuracy (validation_results (self s')) = Some a)
         r)
    s.
Proof.
  unfold check_accuracy. wp_steps. set (df := current_df s).
  apply (wp_for_fold _ _
           (fun acc _ => forall col o, In (col, o) (outliers acc) ->
              out_percentage o
                = percent_of (out_count o)
                    (len_list (List.filter notna (column col df))) /\
              (0 <= out_count o <= len df)%Z)).
  - intros acc col s' _ Hacc.
    destruct (has_column col df && existsb notna (column col df));
      [| wp_steps; exact Hacc].
    wp_case Hxs. wp_case Hfound. wp_case Hp.
    apply percentage_percent_of in Hp. destruct Hp as [-> _].
    apply wp_when_append. intros s1. wp_steps.
    intros col' o Ho. simpl in Ho. apply dict_set_In in Ho.
    destruct Ho as [[= -> ->] | Ho]; [| apply Hacc; exact Ho].
    simpl. split; [reflexivity |]. eapply out_of_range_le; eauto.
  - intros acc s1 Hacc. wp_steps. simpl. split; [exact Hacc | reflexivity].
  - intros col o [].
Qed.

Lemma wp_outcome_ok {A : Type} (m : M A) (P : State -> A -> Prop) s a :
  wp m (fun r s' => on_ok (P s') r) s ->
  snd (m s) = Ok a -> P (fst (m s)) a.
Proof. unfold wp. intros H E. rewrite E in H. exact H. Qed.

(** C6.  Every percentage that a check reports is the percentage of its
    count in the full number of records of the dataset, but for the outlier
    percentage of [check_accuracy], which is taken in the number of
    non-null values of the column. *)
Theorem percentage_denominators env s :
  (forall c, snd (check_completeness s) = Ok c ->
     (forall col m, In (col, m) (missing_by_column c) ->
        mc_percentage m = percent_of (mc_count m) (len (current_df s))) /\
     cp_percentage (missing_by_record c)
       = percent_of (cp_count (missing_by_record c)) (len (current_df s))) /\
  (forall u, snd (check_uniqueness s) = Ok u ->
     cp_percentage (exact_duplicates u)
       = percent_of (cp_count (exact_duplicates u)) (len (current_df s)) /\
     cp_percentage (id_date_duplicates u)
       = percent_of (cp_count (id_date_duplicates u)) (len (current_df s))) /\
  (forall v, snd (check_validity env s) = Ok v ->
     forall col e, In (col, e) (range_violations v) ->
       rv_percentage e = percent_of (rv_violations e) (len (current_df s))) /\
  (forall c, snd (check_consistency env s) = Ok c ->
     (forall f, future_dates c = Some f ->
        cp_percentage f = percent_of (cp_count f) (len (current_df s))) /\
     (forall h, high_sat_high_wait c = Some h ->
        cp_percentage h = percent_of (cp_count h) (len (current_df s)))) /\
  (forall a, snd (check_accuracy s) = Ok a ->
     forall col o, In (col, o) (outliers a) ->
       out_percentage o
         = percent_of (out_count o)
             (len_list (List.filter notna (column col (current_df s))))).
Proof.
  split; [| split; [| split; [| split]]].
  - intros c Hc.
    destruct (wp_outcome_ok _ _ _ _ (check_completeness_content s) Hc)
      as (H1 & H2 & _).
    split; assumption.
  - intros u Hu.
    destruct (wp_outcome_ok _ _ _ _ (check_uniqueness_content s) Hu)
      as (_ & H1 & _ & H2 & _).
    split; assumption.
  - intros v Hv col e He.
    destruct (wp_outcome_ok _ _ _ _ (check_validity_content env s) Hv)
      as [H _].
    apply (H col e He).
  - intros c Hc.
    destruct (wp_outcome_ok _ _ _ _ (check_consistency_content env s) Hc)
      as (H1 & H2 & _).
    split; [| exact H2]. intros f Hf. apply (H1 f Hf).
  - intros a Ha col o Ho.
    destruct (wp_outcome_ok _ _ _ _ (check_accuracy_content s) Ha)
      as [H _].
    apply (H col o Ho).
Qed.

(** ** Results of one check across the others *)

Lemma results_inv_recs_blind K : recs_blind (results_inv K).
Proof. intros r s H. exact H. Qed.

Lemma results_inv_assign_blind K : assign_blind (results_inv K).
Proof. intros c vals s H. exact H. Qed.

Ltac keeps_auto HK :=
  repeat first
    [ stable_step
    | lazymatch goal with
      | |- stable _ (update_results _) =>
          let s0 := fresh "s" in
          let Hs0 := fresh "Hs" in
          intros s0 Hs0; exact (HK _ _ Hs0)
      end ].

Section Keeps.
Variable K : Results -> Prop.

Lemma check_uniqueness_keeps :
  (forall r x, K r ->
     K (mkResults (completeness r) (Some x) (validity r) (consistency r)
          (accuracy r) (overall r))) ->
  stable (results_inv K) check_uniqueness.
Proof.
  intros HK. pose proof (results_inv_recs_blind K) as Hrecs.
  unfold check_uniqueness. keeps_auto HK.
Qed.

Lemma check_validity_keeps env :
  (forall r x, K r ->
     K (mkResults (completeness r) (uniqueness r) (Some x) (consistency r)
          (accuracy r) (overall r))) ->
  stable (results_inv K) (check_validity env).
Proof.
  intros HK. pose proof (results_inv_recs_blind K) as Hrecs.
  unfold check_validity. keeps_auto HK.
Qed.

Lemma check_consistency_keeps env :
  (forall r x, K r ->
     K (mkResults (completeness r) (uniqueness r) (validity r) (Some x)
          (accuracy r) (overall r))) ->
  stable (results_inv K) (check_consistency env).
Proof.
  intros HK. pose proof (results_inv_recs_blind K) as Hrecs.
  pose proof (results_inv_assign_blind K) as Hassign.
  unfold check_consistency. keeps_auto HK.
Qed.

Lemma check_accuracy_keeps :
  (forall r x, K r ->
     K (mkResults (completeness r) (uniqueness r) (validity r) (consistency r)
          (Some x) (overall r))) ->
  stable (results_inv K) check_accuracy.
Proof.
  intros HK. pose proof (results_inv_recs_blind K) as Hrecs.
  unfold check_accuracy. keeps_auto HK.
Qed.
End Keeps.

Lemma current_df_unchanged {A : Type} (m : M A) s :
  (forall I, recs_blind I -> results_blind I -> stable I m) ->
  current_df (fst (m s)) = current_df s.
Proof.
  intros H. destruct (heap_unchanged m s H) as [Hh Hl].
  unfold current_df. rewrite Hh, Hl. reflexivity.
Qed.

Lemma bind_ok {A B : Type} (m : M A) (k : A -> M B) s s' b :
  bind m k s = (s', Ok b) ->
  exists s1 a, m s = (s1, Ok a) /\ k a s1 = (s', Ok b).
Proof.
  unfold bind. destruct (m s) as [s1 [a | e]]; [eauto | discriminate].
Qed.

(** ** The scorer *)

Lemma max0_100_minus x : (0 <= x)%Q -> (0 <= max0 (100 - x) <= 100)%Q.
Proof. intros H. apply max0_bounds. lra. Qed.

Lemma rate_100_nonneg total n :
  (0 <= total)%Z -> (0 < n)%Z -> (0 <= inject_Z total / inject_Z n * 100)%Q.
Proof.
  intros Ht Hn. apply Qmult_le_0_compat; [apply rate_nonneg; assumption | lra].
Qed.

Lemma calculate_validity_score_ok s v :
  validity (validation_results (self s)) = Some v ->
  (forall col e, In (col, e) (range_violations v) -> (0 <= rv_violations e)%Z) ->
  (forall col e, In (col, e) (value_violations v) -> (0 <= vv_violations e)%Z) ->
  (0 < len (current_df s))%Z ->
  exists q, _calculate_validity_score s = (s, Ok (Fin q))
            /\ (0 <= q <= 100)%Q.
Proof.
  intros Hv Hr Hvv Hlen. unfold _calculate_validity_score.
  unfold bind at 1. unfold get_results at 1. unfold bind at 1.
  unfold get_df at 1. fold (current_df s). rewrite Hv.
  unfold bind, lift, py_div, ret.
  destruct (Z.eqb_spec (len (current_df s)) 0) as [E | _]; [lia |].
  eexists. split; [reflexivity |].
  assert (H1 : (0 <= sum_Z (map (fun e => rv_violations (snd e))
                              (range_violations v)))%Z).
  { apply sum_Z_nonneg. intros [col e] He. eapply Hr; exact He. }
  assert (H2 : (0 <= sum_Z (map (fun e => vv_violations (snd e))
                              (value_violations v)))%Z).
  { apply sum_Z_nonneg. intros [col e] He. eapply Hvv; exact He. }
  apply max0_100_minus. apply rate_100_nonneg; [lia | exact Hlen].
Qed.

Lemma calculate_consistency_score_ok s c :
  consistency (validation_results (self s)) = Some c ->
  (forall f, future_dates c = Some f -> (0 <= cp_count f)%Z) ->
  (0 < len (current_df s))%Z ->
  exists q, _calculate_consistency_score s = (s, Ok (Fin q))
            /\ (0 <= q <= 100)%Q.
Proof.
  intros Hc Hf Hlen. unfold _calculate_consistency_score.
  unfold bind at 1. unfold get_results at 1. unfold bind at 1.
  unfold get_df at 1. fold (current_df s). rewrite Hc.
  unfold bind, lift, py_div, ret.
  destruct (Z.eqb_spec (len (current_df s)) 0) as [E | _]; [lia |].
  eexists. split; [reflexivity |].
  apply max0_100_minus. apply rate_100_nonneg; [| exact Hlen].
  destruct (future_dates c) as [f |]; [apply Hf; reflexivity | lia].
Qed.

Lemma calculate_accuracy_score_ok s a :
  accuracy (validation_results (self s)) = Some a ->
  (forall col o, In (col, o) (outliers a) -> (0 <= out_count o)%Z) ->
  (0 < len (current_df s))%Z ->
  exists q, _calculate_accuracy_score s = (s, Ok (Fin q))
            /\ (0 <= q <= 100)%Q.
Proof.
  intros Ha Ho Hlen. unfold _calculate_accuracy_score.
  unfold bind at 1. unfold get_results at 1. unfold bind at 1.
  unfold get_df at 1. fold (current_df s). rewrite Ha.
  unfold bind, lift, py_div, ret.
  destruct (Z.eqb_spec (len (current_df s)) 0) as [E | _]; [lia |].
  eexists. split; [reflexivity |].
  assert (H1 : (0 <= sum_Z (map (fun e => out_count (snd e)) (outliers a)))%Z).
  { apply sum_Z_nonneg. intros [col o] Hin. eapply Ho; exact Hin. }
  apply max0_100_minus. apply Qmult_le_0_compat; [| lra].
  apply rate_100_nonneg; [exact H1 | exact Hlen].
Qed.

Lemma stable_outcome {A : Type} (I : State -> Prop) (m : M A) s s' r :
  stable I m -> m s = (s', r) -> I s -> I s'.
Proof. intros Hm E Hs. specialize (Hm s Hs). rewrite E in Hm. exact Hm. Qed.

Lemma mean_of_fin c u v co a :
  fround2 (mean_of_scores (mkScores (Fin c) (Fin u) (Fin v) (Fin co) (Fin a)))
  = Fin (round2 ((c + u + v + co + a) / 5)).
Proof.
  unfold mean_of_scores. simpl. f_equal. apply round2_comp.
  unfold inject_Z. field.
Qed.



(** ** Two runs on the same dataset *)

Lemma respects_ret {A : Type} (a : A) : respects (ret a).
Proof. intros s s' H. split; [reflexivity | exact H]. Qed.

Lemma respects_lift {A : Type} (r : res A) : respects (lift r).
Proof. intros s s' H. split; [reflexivity | exact H]. Qed.

Lemma respects_bind {A B : Type} (m : M A) (k : A -> M B) :
  respects m -> (forall a, respects (k a)) -> respects (bind m k).
Proof.
  intros Hm Hk s s' H. unfold bind.
  destruct (Hm s s' H) as [Hr Hs].
  destruct (m s) as [s1 r1], (m s') as [s1' r1']. simpl in *. subst r1'.
  destruct r1 as [a | e]; [apply Hk; exact Hs |].
  split; [reflexivity | exact Hs].
Qed.

Lemma respects_for_fold {A B : Type} (body : B -> A -> M B) (l : list A) :
  (forall acc a, respects (body acc a)) ->
  forall acc, respects (for_fold body l acc).
Proof.
  intros Hbody. induction l as [| a l IH]; intros acc; simpl.
  - apply respects_ret.
  - apply respects_bind; [apply Hbody | exact IH].
Qed.

Lemma respects_when b (m : M unit) : respects m -> respects (when b m).
Proof. intros H. destruct b; simpl; [exact H | apply respects_ret]. Qed.

Lemma respects_lookup_result {A : Type} k (o : option A) :
  respects (lookup_result k o).
Proof. destruct o; simpl; [apply respects_ret | apply respects_lift]. Qed.

Lemma respects_append_recommendation r : respects (append_recommendation r).
Proof.
  intros s s' (H1 & H2 & H3 & H4). split; [reflexivity |].
  repeat split; simpl; try assumption. rewrite H4. reflexivity.
Qed.

Lemma respects_update_results f : respects (update_results f).
Proof.
  intros s s' (H1 & H2 & H3 & H4). split; [reflexivity |].
  repeat split; simpl; try assumption. rewrite H3. reflexivity.
Qed.

Lemma respects_assign_column c vals : respects (assign_column c vals).
Proof.
  intros s s' (H1 & H2 & H3 & H4). split; [reflexivity |].
  split; [| repeat split; assumption].
  rewrite !current_df_assign, H1. reflexivity.
Qed.

Lemma respects_get_df : respects get_df.
Proof.
  intros s s' H. split; [| exact H].
  unfold get_df. simpl. fold (current_df s) (current_df s').
  destruct H as [H _]. rewrite H. reflexivity.
Qed.

Lemma respects_get_config : respects get_config.
Proof.
  intros s s' H. split; [| exact H].
  unfold get_config. simpl. destruct H as (_ & H & _). rewrite H. reflexivity.
Qed.

Lemma respects_get_results : respects get_results.
Proof.
  intros s s' H. split; [| exact H].
  unfold get_results. simpl. destruct H as (_ & _ & H & _).
  rewrite H. reflexivity.
Qed.

Lemma respects_get_recommendations : respects get_recommendations.
Proof.
  intros s s' H. split; [| exact H].
  unfold get_recommendations. simpl. destruct H as (_ & _ & _ & H).
  rewrite H. reflexivity.
Qed.

Ltac respects_step :=
  first
    [ apply respects_ret
    | apply respects_lift
    | apply respects_get_df
    | apply respects_get_config
    | apply respects_get_results
    | apply respects_get_recommendations
    | apply respects_append_recommendation
    | apply respects_update_results
    | apply respects_assign_column
    | apply respects_lookup_result
    | apply respects_when
    | apply respects_for_fold; intros
    | apply respects_bind; [| intros]
    | match goal with
      | |- respects (if ?b then _ else _) => destruct b
      | |- respects (match ?x with _ => _ end) => destruct x
      end ].

Ltac respects_auto := repeat respects_step.

Lemma check_completeness_respects : respects check_completeness.
Proof. unfold check_completeness. respects_auto. Qed.

Lemma check_uniqueness_respects : respects check_uniqueness.
Proof. unfold check_uniqueness. respects_auto. Qed.

Lemma check_validity_respects env : respects (check_validity env).
Proof. unfold check_validity. respects_auto. Qed.

Lemma check_consistency_respects env : respects (check_consistency env).
Proof. unfold check_consistency. respects_auto. Qed.

Lemma check_accuracy_respects : respects check_accuracy.
Proof. unfold check_accuracy. respects_auto. Qed.

Lemma calculate_validity_score_respects : respects _calculate_validity_score.
Proof. unfold _calculate_validity_score. respects_auto. Qed.

Lemma calculate_consistency_score_respects :
  respects _calculate_consistency_score.
Proof. unfold _calculate_consistency_score. respects_auto. Qed.

Lemma calculate_accuracy_score_respects : respects _calculate_accuracy_score.
Proof. unfold _calculate_accuracy_score. respects_auto. Qed.

Lemma run_all_validations_respects env : respects (run_all_validations env).
Proof.
  unfold run_all_validations.
  repeat first
    [ apply check_completeness_respects
    | apply check_uniqueness_respects
    | apply check_validity_respects
    | apply check_consistency_respects
    | apply check_accuracy_respects
    | apply calculate_validity_score_respects
    | apply calculate_consistency_score_respects
    | apply calculate_accuracy_score_respects
    | respects_step ].
Qed.

(** C3 (as amended).  Two validators constructed one after the other over
    the same dataframe of the caller, with the same configuration, and run
    with the same date parser at the same instant, give the same outcome:
    the same result records, or the same exception, and the same
    recommendations, the first run having left the caller's dataframe as
    it was. *)
Theorem fresh_validators_agree env h l cfg d :
  h !! l = Some d ->
  let first := run_all_validations env (__init__ h l cfg) in
  let second := run_all_validations env (__init__ (heap (fst first)) l cfg) in
  snd first = snd second /\
  validation_results (self (fst first))
    = validation_results (self (fst second)) /\
  recommendations (self (fst first)) = recommendations (self (fst second)).
Proof.
  intros Hd first second.
  destruct (init_self_df h l cfg d Hd) as (Hne & Hcur & Hheap).
  assert (Hd' : heap (fst first) !! l = Some d).
  { apply run_keeps_other_objects; assumption. }
  destruct (init_self_df (heap (fst first)) l cfg d Hd') as (_ & Hcur' & _).
  assert (Hview : same_view (__init__ h l cfg)
                    (__init__ (heap (fst first)) l cfg)).
  { split; [rewrite Hcur, Hcur'; reflexivity |]. repeat split. }
  destruct (run_all_validations_respects env _ _ Hview)
    as (Hr & _ & _ & Hres & Hrecs).
  repeat split; assumption.
Qed.

Lemma fresh_validators_agree_witness :
  let first := validate (sample_env 20261104) sample_visits None in
  let second :=
    run_all_validations (sample_env 20261104)
      (__init__ (heap (fst first)) 0%nat None) in
  snd first = snd second /\
  validation_results (self (fst first))
    = validation_results (self (fst second)) /\
  recommendations (self (fst first)) = recommendations (self (fst second)).
Proof.
  exact (fresh_validators_agree (sample_env 20261104)
           (caller_heap sample_visits) 0%nat None sample_visits eq_refl).
Defined.

(** C3, counterexample.  Run twice on the same validator, the second run
    finds one more column ([date_parsed]) and counts the recommendations of
    both runs; and two validators over the same visits, run at two instants,
    count different numbers of future dates. *)
Lemma second_run_differs :
  let s0 := __init__ (caller_heap sample_visits) 0%nat None in
  let s1 := fst (run_all_validations (sample_env 20261104) s0) in
  let s2 := fst (run_all_validations (sample_env 20261104) s1) in
  let early := fst (run_all_validations (sample_env 20200301) s0) in
  (option_map total_columns (completeness (validation_results (self s1)))
     = Some 9%Z /\
   option_map total_columns (completeness (validation_results (self s2)))
     = Some 10%Z) /\
  (option_map total_recommendations (overall (validation_results (self s1)))
     = Some 8%Z /\
   option_map total_recommendations (overall (validation_results (self s2)))
     = Some 16%Z) /\
  (option_map (fun c => option_map cp_count (future_dates c))
     (consistency (validation_results (self s1))) = Some (Some 0%Z) /\
   option_map (fun c => option_map cp_count (future_dates c))
     (consistency (validation_results (self early))) = Some (Some 4%Z)).
Proof. vm_compute. repeat split; reflexivity. Qed.

(** ** Runs that return *)

Lemma compare_series_numeric op x col :
  forallb numeric_or_null col = true ->
  exists m, compare_series op x col = Ok m.
Proof.
  unfold compare_series. induction col as [| v col IH]; simpl.
  - eauto.
  - rewrite andb_true_iff. intros [Hv Hcol].
    destruct (IH Hcol) as [m Hm]. rewrite Hm.
    destruct v; try discriminate; simpl; eauto.
Qed.

Lemma out_of_range_numeric lo hi col df :
  forallb numeric_or_null col = true ->
  exists vs, out_of_range lo hi col df = Ok vs.
Proof.
  intros H. unfold out_of_range.
  destruct (compare_series_numeric LT lo col H) as [m1 ->].
  destruct (compare_series_numeric GT hi col H) as [m2 ->]. eauto.
Qed.

Lemma numeric_values_numeric col :
  forallb numeric_or_null col = true -> exists xs, numeric_values col = Ok xs.
Proof.
  induction col as [| v col IH]; simpl; [eauto |].
  rewrite andb_true_iff. intros [Hv Hcol]. destruct (IH Hcol) as [xs Hxs].
  destruct v; try discriminate; rewrite Hxs; eauto.
Qed.

Lemma notna_count_pos col :
  existsb notna col = true -> len_list (List.filter notna col) <> 0%Z.
Proof.
  intros H. apply existsb_exists in H. destruct H as (v & Hin & Hv).
  pose proof (filter_nonempty notna col v Hin Hv). lia.
Qed.

Lemma wp_returns {A : Type} (m : M A) s :
  wp m (fun r _ => exists a, r = Ok a) s -> returns m s.
Proof. intros H. exact H. Qed.

Lemma check_completeness_returns s : returns check_completeness s.
Proof.
  apply wp_returns. unfold check_completeness. wp_steps.
  apply (wp_for_fold _ _ (fun _ _ => True)); [| | exact I].
  - intros acc col s' _ _. wp_steps. apply wp_when_append. intros s1.
    wp_steps. exact I.
  - intros acc s' _. wp_steps. eauto.
Qed.

Lemma check_uniqueness_returns s :
  df_empty (current_df s) = false ->
  has_column "patient_id" (current_df s) = true ->
  has_column "date" (current_df s) = true ->
  returns check_uniqueness s.
Proof.
  intros Hne Hpid Hdate. apply wp_returns.
  destruct (has_column_index _ _ Hpid) as [i Hi].
  destruct (has_column_index _ _ Hdate) as [j Hj].
  destruct (df_empty_false _ Hne) as [Hlen _].
  unfold check_uniqueness. wp_steps.
  rewrite (duplicated_all _ Hne), (duplicated_keys _ i j Hne Hi Hj).
  wp_steps. rewrite getitem_duplicated. wp_steps.
  match goal with
  | |- context [percentage ?a ?n] =>
      destruct (percentage_ok a n Hlen) as [p ->]
  end.
  wp_steps. apply wp_when_append. intros s1. wp_steps.
  rewrite getitem_duplicated. wp_steps.
  match goal with
  | |- context [percentage ?a ?n] =>
      destruct (percentage_ok a n Hlen) as [p' ->]
  end.
  wp_steps. apply wp_when_append. intros s2. wp_steps.
  eapply wp_mono; [apply unique_constraints_loop; exact Hlen |].
  intros r s' [_ [acc' ->]]. wp_steps. eauto.
Qed.

Lemma check_validity_returns env s :
  len (current_df s) <> 0%Z ->
  (forall c, In c (map fst (expected_ranges (self_config (self s)))) ->
     forallb numeric_or_null (column c (current_df s)) = true) ->
  returns (check_validity env) s.
Proof.
  intros Hlen Hnum. apply wp_returns. unfold check_validity. wp_steps.
  apply (wp_for_fold _ _ (fun _ _ => True)); [| | exact I].
  - intros acc [col [lo hi]] s' Hin _. simpl.
    destruct (has_column col (current_df s)); [| wp_steps; exact I].
    destruct (out_of_range_numeric (inject_Z lo) (inject_Z hi)
                (column col (current_df s)) (current_df s)) as [vs ->].
    { apply Hnum. apply in_map_iff. exists (col, (lo, hi)). auto. }
    wp_steps.
    match goal with
    | |- context [percentage ?a ?n] =>
        destruct (percentage_ok a n Hlen) as [p ->]
    end.
    wp_steps. apply wp_when_append. intros s1. wp_steps. exact I.
  - intros ranges s1 _. wp_steps.
    apply (wp_for_fold _ _ (fun _ _ => True)); [| | exact I].
    + intros acc [col valid] s' _ _. simpl.
      destruct (has_column col (current_df s)); [| wp_steps; exact I].
      wp_steps. apply wp_when_append. intros s2. wp_steps. exact I.
    + intros values s2 _. wp_steps.
      destruct (has_column "date" (current_df s)).
      * destruct (to_datetime_error env (column "date" (current_df s)));
          wp_steps; eauto.
      * wp_steps. eauto.
Qed.

Lemma check_accuracy_returns s :
  (forall c, In c (numeric_columns (self_config (self s))) ->
     forallb numeric_or_null (column c (current_df s)) = true) ->
  returns check_accuracy s.
Proof.
  intros Hnum. apply wp_returns. unfold check_accuracy. wp_steps.
  apply (wp_for_fold _ _ (fun _ _ => True)); [| | exact I].
  - intros acc col s' Hin _.
    destruct (has_column col (current_df s)); simpl; [| wp_steps; exact I].
    destruct (existsb notna (column col (current_df s))) eqn:Hany;
      [| wp_steps; exact I].
    destruct (numeric_values_numeric _ (Hnum col Hin)) as [xs ->]. wp_steps.
    match goal with
    | |- context [out_of_range ?lo ?hi ?c ?d] =>
        destruct (out_of_range_numeric lo hi c d (Hnum col Hin)) as [vs ->]
    end.
    wp_steps.
    match goal with
    | |- context [percentage ?a ?n] =>
        destruct (percentage_ok a n (notna_count_pos _ Hany)) as [p ->]
    end.
    wp_steps. apply wp_when_append. intros s1. wp_steps. exact I.
  - intros acc s1 _. wp_steps. eauto.
Qed.

Lemma current_df_after_consistency env s :
  current_df (fst (check_consistency env s))
  = with_date_parsed env (current_df s).
Proof.
  destruct (check_consistency_heap env s) as [Hh Hl].
  unfold current_df at 1. rewrite Hl, Hh.
  destruct (has_column "date" (current_df s)) eqn:Hd.
  - unfold deref. rewrite lookup_insert_eq. reflexivity.
  - unfold with_date_parsed. rewrite Hd. reflexivity.
Qed.

(** ** From the five checks to the overall score *)

Lemma bind_eq {A B : Type} (m : M A) (k : A -> M B) s s1 a :
  m s = (s1, Ok a) -> bind m k s = k a s1.
Proof. intros E. unfold bind. rewrite E. reflexivity. Qed.

Lemma run_after_checks env s s1 c1 s2 u2 s3 v3 s4 co4 s5 a5 :
  check_completeness s = (s1, Ok c1) ->
  check_uniqueness s1 = (s2, Ok u2) ->
  check_validity env s2 = (s3, Ok v3) ->
  check_consistency env s3 = (s4, Ok co4) ->
  check_accuracy s4 = (s5, Ok a5) ->
  exists s' r, run_all_validations env s = (s', Ok r) /\ scored r.
Proof.
  intros E1 E2 E3 E4 E5.
  (* what each check established *)
  pose proof (wp_outcome _ _ _ _ _ E1 (check_completeness_content s))
    as (_ & _ & Hc1 & Hr1). simpl in Hc1, Hr1.
  pose proof (wp_outcome _ _ _ _ _ E2 (check_uniqueness_content s1))
    as (Hne & Hu & Hub & _ & Hr2). simpl in Hne, Hu, Hub, Hr2.
  pose proof (wp_outcome _ _ _ _ _ E3 (check_validity_content env s2))
    as (Hv & Hvv & Hr3). simpl in Hv, Hvv, Hr3.
  pose proof (wp_outcome _ _ _ _ _ E4 (check_consistency_content env s3))
    as (Hco & _ & Hr4). simpl in Hco, Hr4.
  pose proof (wp_outcome _ _ _ _ _ E5 (check_accuracy_content s4))
    as (Ha & Hr5). simpl in Ha, Hr5.
  (* the dataset along the run *)
  pose proof (current_df_unchanged check_completeness s
                (fun I H1 H2 => check_completeness_stable I H1 H2)) as D1.
  pose proof (current_df_unchanged check_uniqueness s1
                (fun I H1 H2 => check_uniqueness_stable I H1 H2)) as D2.
  pose proof (current_df_unchanged (check_validity env) s2
                (fun I H1 H2 => check_validity_stable I H1 env H2)) as D3.
  pose proof (with_date_parsed_length env (current_df s3)) as D4.
  pose proof (current_df_after_consistency env s3) as D4'.
  pose proof (current_df_unchanged check_accuracy s4
                (fun I H1 H2 => check_accuracy_stable I H1 H2)) as D5.
  rewrite E1 in D1. rewrite E2 in D2. rewrite E3 in D3. rewrite E4 in D4'.
  rewrite E5 in D5. simpl in D1, D2, D3, D4', D5.
  (* the results of earlier checks survive the later ones *)
  assert (K1 : completeness (validation_results (self s5)) = Some c1).
  { pose (K := fun r : Results => completeness r = Some c1).
    apply (stable_outcome _ _ _ _ _ (check_accuracy_keeps K (fun _ _ H => H)) E5).
    apply (stable_outcome _ _ _ _ _
             (check_consistency_keeps K env (fun _ _ H => H)) E4).
    apply (stable_outcome _ _ _ _ _
             (check_validity_keeps K env (fun _ _ H => H)) E3).
    apply (stable_outcome _ _ _ _ _
             (check_uniqueness_keeps K (fun _ _ H => H)) E2).
    exact Hr1. }
  assert (K2 : uniqueness (validation_results (self s5)) = Some u2).
  { pose (K := fun r : Results => uniqueness r = Some u2).
    apply (stable_outcome _ _ _ _ _ (check_accuracy_keeps K (fun _ _ H => H)) E5).
    apply (stable_outcome _ _ _ _ _
             (check_consistency_keeps K env (fun _ _ H => H)) E4).
    apply (stable_outcome _ _ _ _ _
             (check_validity_keeps K env (fun _ _ H => H)) E3).
    exact Hr2. }
  assert (K3 : validity (validation_results (self s5)) = Some v3).
  { pose (K := fun r : Results => validity r = Some v3).
    apply (stable_outcome _ _ _ _ _ (check_accuracy_keeps K (fun _ _ H => H)) E5).
    apply (stable_outcome _ _ _ _ _
             (check_consistency_keeps K env (fun _ _ H => H)) E4).
    exact Hr3. }
  assert (K4 : consistency (validation_results (self s5)) = Some co4).
  { pose (K := fun r : Results => consistency r = Some co4).
    apply (stable_outcome _ _ _ _ _ (check_accuracy_keeps K (fun _ _ H => H)) E5).
    exact Hr4. }
  (* the number of records *)
  assert (Hlen : (0 < len (current_df s5))%Z).
  { destruct (df_empty_false _ Hne) as [Hn _].
    rewrite D5. unfold len in *. rewrite D4', D4, D3, D2. lia. }
  (* the scorer *)
  destruct (calculate_validity_score_ok s5 v3 K3
              (fun col e He => proj1 (proj2 (Hv col e He))) Hvv Hlen)
    as (qv & Ev & Bv).
  destruct (calculate_consistency_score_ok s5 co4 K4
              (fun f Hf => proj2 (Hco f Hf)) Hlen)
    as (qco & Eco & Bco).
  destruct (calculate_accuracy_score_ok s5 a5 Hr5
              (fun col o Ho => proj1 (proj2 (Ha col o Ho))) Hlen)
    as (qa & Ea & Ba).
  destruct Hc1 as (qc & Ec & Bc); [rewrite <- D1; exact Hne |].
  destruct (percent_of_bounds _ _ Hub (proj1 (df_empty_false _ Hne)))
    as (qu & Equ & Bu).
  unfold run_all_validations.
  rewrite (bind_eq _ _ _ _ _ E1), (bind_eq _ _ _ _ _ E2),
    (bind_eq _ _ _ _ _ E3), (bind_eq _ _ _ _ _ E4), (bind_eq _ _ _ _ _ E5).
  unfold bind at 1. unfold get_results at 1.
  rewrite K1, K2. simpl lookup_result.
  unfold bind at 1. unfold ret at 1.
  unfold bind at 1. unfold ret at 1.
  rewrite (bind_eq _ _ _ _ _ Ev), (bind_eq _ _ _ _ _ Eco),
    (bind_eq _ _ _ _ _ Ea).
  unfold bind, get_recommendations, update_results, get_results.
  simpl. do 2 eexists. split; [reflexivity |].
  rewrite Hu, Equ, Ec. simpl.
  exists (mkOverall
            (fround2 (mean_of_scores
               (mkScores (Fin qc) (Fin (100 - qu)) (Fin qv) (Fin qco) (Fin qa))))
            (mkScores (Fin qc) (Fin (100 - qu)) (Fin qv) (Fin qco) (Fin qa))
            (len_list (recommendations (self s5)))
            (len_list (List.filter is_high (recommendations (self s5))))),
         qc, (100 - qu)%Q, qv, qco, qa, c1, u2.
  simpl. rewrite K1, K2.
  repeat split; try assumption; try reflexivity; try lra.
  - apply mean_of_fin.
  - rewrite Hu, Equ. reflexivity.
Qed.

Lemma col_index_app_none c cols c' :
  col_index c cols = None -> c <> c' -> col_index c (cols ++ [c']) = None.
Proof.
  intros H Hne. induction cols as [| x cols IH]; simpl in *.
  - destruct (String.eqb_spec c c'); [contradiction | reflexivity].
  - destruct (String.eqb c x); [discriminate |].
    destruct (col_index c cols); [discriminate |].
    rewrite IH; reflexivity.
Qed.

(** Assigning a column leaves every other column as it was, also the
    absent ones. *)
Lemma set_column_other_any c vals df c' :
  well_formed df -> length vals = length (rows df) -> c' <> c ->
  column c' (set_column c vals df) = column c' df.
Proof.
  intros Hwf Hlen Hne.
  destruct (has_column c' df) eqn:Hc'; [apply set_column_other; assumption |].
  unfold has_column in Hc'. unfold column, set_column.
  destruct (col_index c' (columns df)) eqn:E; [discriminate |].
  destruct (col_index c (columns df)); simpl.
  - rewrite E. reflexivity.
  - rewrite (col_index_app_none _ _ _ E Hne). reflexivity.
Qed.

Lemma with_date_parsed_other env df c :
  well_formed df -> c <> "date_parsed" ->
  column c (with_date_parsed env df) = column c df.
Proof.
  intros Hwf Hne. unfold with_date_parsed.
  destruct (has_column "date" df) eqn:Hd; [| reflexivity].
  apply set_column_other_any; auto.
  unfold to_datetime_coerce. rewrite length_map. apply column_length. exact Hd.
Qed.

Lemma check_consistency_returns env s :
  len (current_df s) <> 0%Z -> well_formed (current_df s) ->
  (forall c, In c ["patient_sat_score"; "patient_waittime"; "patient_age"] ->
     forallb numeric_or_null (column c (current_df s)) = true) ->
  (has_column "date" (current_df s) = true ->
   tz_aware env (column "date" (current_df s)) = false) ->
  returns (check_consistency env) s.
Proof.
  intros Hlen Hwf Hnum Htz. apply wp_returns. unfold check_consistency.
  wp_steps.
  set (df := current_df s) in *.
  match goal with
  | |- wp _ (bind_post ?k ?Q) _ =>
      assert (Hk : forall fd s',
                 len (current_df s') <> 0%Z ->
                 (forall c,
                    In c ["patient_sat_score"; "patient_waittime";
                          "patient_age"] ->
                    forallb numeric_or_null (column c (current_df s')) = true) ->
                 wp (k fd) Q s')
  end.
  { intros fd s' Hlen' Hnum'. wp_steps.
    destruct (compare_series_numeric GE 8
                (column "patient_sat_score" (current_df s'))) as [m1 E1];
      [apply Hnum'; simpl; tauto |].
    destruct (compare_series_numeric GE 60
                (column "patient_waittime" (current_df s'))) as [m2 E2];
      [apply Hnum'; simpl; tauto |].
    destruct (compare_series_numeric LT 13
                (column "patient_age" (current_df s'))) as [m3 E3];
      [apply Hnum'; simpl; tauto |].
    destruct (has_column "patient_sat_score" (current_df s')
              && has_column "patient_waittime" (current_df s')).
    - rewrite E1. wp_steps. rewrite E2. wp_steps.
      match goal with
      | |- context [percentage ?a ?n] =>
          destruct (percentage_ok a n Hlen') as [p ->]
      end.
      wp_steps.
      destruct (has_column "patient_age" (current_df s')
                && has_column "department_referral" (current_df s')).
      + rewrite E3. wp_steps. eauto.
      + wp_steps. eauto.
    - wp_steps.
      destruct (has_column "patient_age" (current_df s')
                && has_column "department_referral" (current_df s')).
      + rewrite E3. wp_steps. eauto.
      + wp_steps. eauto. }
  destruct (has_column "date" df) eqn:Hd.
  - wp_steps. rewrite current_df_assign. fold df.
    pose proof (len_with_date_parsed env df Hd) as Hlen'.
    unfold after_now_series. rewrite (Htz eq_refl). wp_steps.
    match goal with
    | |- context [percentage ?a ?n] =>
        destruct (percentage_ok a n ltac:(rewrite Hlen'; exact Hlen)) as [p ->]
    end.
    wp_steps. apply wp_when_append_df. intros s1 Hs1. cbv beta.
    apply wp_ret. unfold bind_post at 1. apply Hk.
    + rewrite Hs1, current_df_assign. fold df. rewrite Hlen'. exact Hlen.
    + intros c Hc. rewrite Hs1, current_df_assign. fold df.
      rewrite set_column_other_any; [apply Hnum; exact Hc | exact Hwf | |].
      * unfold to_datetime_coerce. rewrite length_map.
        apply column_length. exact Hd.
      * simpl in Hc. intuition (subst; discriminate).
  - apply wp_ret. unfold bind_post at 1. apply Hk; assumption.
Qed.

Lemma mem_string_false s l c : mem_string s l = false -> In c l -> c <> s.
Proof.
  unfold mem_string. intros H Hin ->.
  assert (Ht : existsb (String.eqb s) l = true).
  { apply existsb_exists. exists s. split; [exact Hin | apply String.eqb_refl]. }
  congruence.
Qed.

Lemma config_recs_blind cfg : recs_blind (fun s => self_config (self s) = cfg).
Proof. intros r s H. exact H. Qed.

Lemma config_results_blind cfg :
  results_blind (fun s => self_config (self s) = cfg).
Proof. intros f s H. exact H. Qed.

Lemma config_assign_blind cfg :
  assign_blind (fun s => self_config (self s) = cfg).
Proof. intros c vals s H. exact H. Qed.

Lemma outcome_of {A : Type} (m : M A) s :
  returns m s -> exists s1 a, m s = (s1, Ok a).
Proof.
  intros [a Ha]. destruct (m s) as [s1 r]. simpl in Ha. subst r. eauto.
Qed.

Lemma run_all_validations_returns env s :
  df_empty (current_df s) = false ->
  has_column "patient_id" (current_df s) = true ->
  has_column "date" (current_df s) = true ->
  well_typed (self_config (self s)) (current_df s) ->
  tz_aware env (column "date" (current_df s)) = false ->
  exists s' r, run_all_validations env s = (s', Ok r) /\ scored r.
Proof.
  intros Hne Hpid Hdate (Hwf & Hdp & Hnum) Htz.
  set (df := current_df s) in *. set (cfg := self_config (self s)) in *.
  destruct (df_empty_false _ Hne) as [Hlen _].
  pose (IC := fun s0 : State => self_config (self s0) = cfg).
  pose proof (config_recs_blind cfg) as B1.
  pose proof (config_results_blind cfg) as B2.
  pose proof (config_assign_blind cfg) as B3.
  (* completeness *)
  destruct (outcome_of _ _ (check_completeness_returns s)) as (s1 & c1 & E1).
  pose proof (current_df_unchanged check_completeness s
                (fun I H1 H2 => check_completeness_stable I H1 H2)) as D1.
  rewrite E1 in D1. simpl in D1. fold df in D1.
  pose proof (stable_outcome IC _ _ _ _ (check_completeness_stable IC B1 B2)
                E1 eq_refl) as C1.
  (* uniqueness *)
  destruct (outcome_of _ _ (check_uniqueness_returns s1
              ltac:(rewrite D1; exact Hne) ltac:(rewrite D1; exact Hpid)
              ltac:(rewrite D1; exact Hdate))) as (s2 & u2 & E2).
  pose proof (current_df_unchanged check_uniqueness s1
                (fun I H1 H2 => check_uniqueness_stable I H1 H2)) as D2.
  rewrite E2, D1 in D2. simpl in D2.
  pose proof (stable_outcome IC _ _ _ _ (check_uniqueness_stable IC B1 B2)
                E2 C1) as C2.
  (* validity *)
  assert (Hv : returns (check_validity env) s2).
  { apply check_validity_returns; rewrite D2; [exact Hlen |].
    intros c Hc. apply Hnum. unfold numeric_names.
    rewrite C2 in Hc. apply in_app_iff. left. exact Hc. }
  destruct (outcome_of _ _ Hv) as (s3 & v3 & E3).
  pose proof (current_df_unchanged (check_validity env) s2
                (fun I H1 H2 => check_validity_stable I H1 env H2)) as D3.
  rewrite E3, D2 in D3. simpl in D3.
  pose proof (stable_outcome IC _ _ _ _ (check_validity_stable IC B1 env B2)
                E3 C2) as C3.
  (* consistency *)
  assert (Hco : returns (check_consistency env) s3).
  { apply check_consistency_returns; rewrite D3;
      [exact Hlen | exact Hwf | | intros _; exact Htz].
    intros c Hc. apply Hnum. unfold numeric_names.
    apply in_app_iff. right. apply in_app_iff. right. exact Hc. }
  destruct (outcome_of _ _ Hco) as (s4 & co4 & E4).
  pose proof (current_df_after_consistency env s3) as D4.
  rewrite E4, D3 in D4. simpl in D4.
  pose proof (stable_outcome IC _ _ _ _
                (check_consistency_stable IC B1 env B2 B3) E4 C3) as C4.
  (* accuracy *)
  assert (Ha : returns check_accuracy s4).
  { apply check_accuracy_returns. rewrite D4, C4. intros c Hc.
    assert (Hin : In c (numeric_names cfg)).
    { unfold numeric_names. apply in_app_iff. right.
      apply in_app_iff. left. exact Hc. }
    rewrite with_date_parsed_other; [apply Hnum; exact Hin | exact Hwf |].
    eapply mem_string_false; eauto. }
  destruct (outcome_of _ _ Ha) as (s5 & a5 & E5).
  eapply run_after_checks; eauto.
Qed.

(** C5.  Whenever [run_all_validations] returns, the [overall] entry of its
    results holds five dimension scores, each a number between 0 and 100,
    and [quality_score] is their arithmetic mean rounded to two decimals
    (see [scored]).  And it does return on every well-formed dataset that
    has records, has its [patient_id] and [date] columns, holds numbers
    or nulls in the columns treated as numbers, and whose dates carry no
    time zone (with one, the comparison with [datetime.now()] raises). *)
Theorem overall_score_is_mean env s :
  (forall s' r, run_all_validations env s = (s', Ok r) -> scored r) /\
  (df_empty (current_df s) = false ->
   has_column "patient_id" (current_df s) = true ->
   has_column "date" (current_df s) = true ->
   well_typed (self_config (self s)) (current_df s) ->
   tz_aware env (column "date" (current_df s)) = false ->
   exists s' r, run_all_validations env s = (s', Ok r) /\ scored r).
Proof.
  split; [| apply run_all_validations_returns].
  intros s' r Hrun. pose proof Hrun as Hrun'.
  unfold run_all_validations in Hrun.
  apply bind_ok in Hrun as (s1 & c1 & E1 & Hrun).
  apply bind_ok in Hrun as (s2 & u2 & E2 & Hrun).
  apply bind_ok in Hrun as (s3 & v3 & E3 & Hrun).
  apply bind_ok in Hrun as (s4 & co4 & E4 & Hrun).
  apply bind_ok in Hrun as (s5 & a5 & E5 & _).
  destruct (run_after_checks env s _ _ _ _ _ _ _ _ _ _ E1 E2 E3 E4 E5)
    as (s'' & r'' & Hrun'' & Hscored).
  rewrite Hrun' in Hrun''. injection Hrun'' as _ <-. exact Hscored.
Qed.

Lemma overall_score_is_mean_witness :
  scored sample_results /\
  exists s' r,
    validate (sample_env 20261104) sample_visits None = (s', Ok r) /\ scored r.
Proof.
  pose proof (overall_score_is_mean (sample_env 20261104)
                (__init__ (caller_heap sample_visits) 0%nat None)) as [H1 H2].
  split.
  - apply (H1 (fst (validate (sample_env 20261104) sample_visits None))).
    vm_compute. reflexivity.
  - apply H2; try reflexivity.
    split; [repeat constructor |]. split; [reflexivity |].
    intros c Hc. simpl in Hc.
    repeat (destruct Hc as [<- | Hc]; [reflexivity |]). destruct Hc.
Defined.

(** ** The checks that guard their columns *)

Section RaisesOnly.
Variable P : exn -> Prop.

Lemma raises_only_ret {A : Type} (a : A) : raises_only P (ret a).
Proof. intros s e H. discriminate. Qed.

Lemma raises_only_lift {A : Type} (r : res A) :
  res_raises_only P r -> raises_only P (lift r).
Proof. intros H s e E. apply H. exact E. Qed.

Lemma raises_only_bind {A B : Type} (m : M A) (k : A -> M B) :
  raises_only P m -> (forall a, raises_only P (k a)) ->
  raises_only P (bind m k).
Proof.
  intros Hm Hk s e. unfold bind. specialize (Hm s).
  destruct (m s) as [s1 [a | e1]]; simpl in *.
  - apply Hk.
  - intros [= <-]. apply Hm. reflexivity.
Qed.

Lemma raises_only_for_fold {A B : Type} (body : B -> A -> M B) (l : list A) :
  (forall acc a, raises_only P (body acc a)) ->
  forall acc, raises_only P (for_fold body l acc).
Proof.
  intros Hbody. induction l as [| a l IH]; intros acc; simpl.
  - apply raises_only_ret.
  - apply raises_only_bind; [apply Hbody | exact IH].
Qed.

Lemma raises_only_when b (m : M unit) :
  raises_only P m -> raises_only P (when b m).
Proof. intros H. destruct b; simpl; [exact H | apply raises_only_ret]. Qed.

Lemma raises_only_get_df : raises_only P get_df.
Proof. intros s e H. discriminate. Qed.

Lemma raises_only_get_config : raises_only P get_config.
Proof. intros s e H. discriminate. Qed.

Lemma raises_only_append_recommendation r :
  raises_only P (append_recommendation r).
Proof. intros s e H. discriminate. Qed.

Lemma raises_only_update_results f : raises_only P (update_results f).
Proof. intros s e H. discriminate. Qed.

Lemma raises_only_assign_column c vals : raises_only P (assign_column c vals).
Proof. intros s e H. discriminate. Qed.
End RaisesOnly.

Lemma percentage_raises a b :
  res_raises_only type_or_zero_division (percentage a b).
Proof.
  intros e. unfold percentage, py_div. destruct (b =? 0)%Z; [| discriminate].
  intros [= <-]. right. reflexivity.
Qed.

Lemma map_res_raises {A B : Type} (P : exn -> Prop) (f : A -> res B) l :
  (forall a, res_raises_only P (f a)) -> res_raises_only P (map_res f l).
Proof.
  intros Hf. induction l as [| a l IH]; intros e; simpl; [discriminate |].
  destruct (f a) as [b |] eqn:Ea.
  - destruct (map_res f l); [discriminate |].
    intros [= <-]. apply IH. reflexivity.
  - intros [= <-]. apply (Hf a). exact Ea.
Qed.

Lemma compare_series_raises op x col :
  res_raises_only type_or_zero_division (compare_series op x col).
Proof.
  apply map_res_raises. intros v e. unfold compare_cell.
  destruct v; simpl; try discriminate; intros [= <-]; left; reflexivity.
Qed.

Lemma out_of_range_raises lo hi col df :
  res_raises_only type_or_zero_division (out_of_range lo hi col df).
Proof.
  intros e. unfold out_of_range.
  destruct (compare_series LT lo col) eqn:E1.
  - destruct (compare_series GT hi col) eqn:E2; [discriminate |].
    intros [= <-]. apply (compare_series_raises GT hi col). exact E2.
  - intros [= <-]. apply (compare_series_raises LT lo col). exact E1.
Qed.

Lemma numeric_values_raises col :
  res_raises_only type_or_zero_division (numeric_values col).
Proof.
  induction col as [| v col IH]; intros e; simpl; [discriminate |].
  destruct v; try (intros [= <-]; left; reflexivity); try apply IH.
  destruct (numeric_values col); [discriminate |].
  intros [= <-]. apply IH. reflexivity.
Qed.

Lemma after_now_series_raises env dates parsed :
  res_raises_only type_or_zero_division (after_now_series env dates parsed).
Proof.
  intros e. unfold after_now_series. destruct (tz_aware env dates).
  - intros [= <-]. left. reflexivity.
  - discriminate.
Qed.

Ltac raises_step :=
  first
    [ apply raises_only_ret
    | apply raises_only_get_df
    | apply raises_only_get_config
    | apply raises_only_append_recommendation
    | apply raises_only_update_results
    | apply raises_only_assign_column
    | apply raises_only_when
    | apply raises_only_lift;
      first [ apply percentage_raises | apply compare_series_raises
            | apply out_of_range_raises | apply numeric_values_raises
            | apply after_now_series_raises ]
    | apply raises_only_for_fold; intros
    | apply raises_only_bind; [| intros]
    | match goal with
      | |- raises_only _ (if ?b then _ else _) => destruct b
      | |- raises_only _ (match ?x with _ => _ end) => destruct x
      end ].

(** Whatever columns the dataset has or lacks, [check_completeness] never
    raises and [check_validity], [check_consistency] and [check_accuracy]
    can only raise for a cell of the wrong type, for dates that carry a time
    zone, or for an empty dataset: every column they read is guarded by a
    presence test. *)
Lemma guarded_checks_raise_no_key_error env :
  raises_only (fun _ => False) check_completeness /\
  raises_only type_or_zero_division (check_validity env) /\
  raises_only type_or_zero_division (check_consistency env) /\
  raises_only type_or_zero_division check_accuracy.
Proof.
  repeat split.
  - unfold check_completeness. repeat raises_step.
  - unfold check_validity. repeat raises_step.
  - unfold check_consistency. repeat raises_step.
  - unfold check_accuracy. repeat raises_step.
Qed.

(** ** The range check, as [check_validity] reports it *)

(** The number of violations that [check_validity] reports for a column is
    the number of rows that the range check selects for a configured range
    of that column. *)
Lemma check_validity_counts_selection env s v col e :
  snd (check_validity env s) = Ok v ->
  In (col, e) (range_violations v) ->
  exists lo hi vs,
    In (col, (lo, hi)) (expected_ranges (self_config (self s))) /\
    out_of_range (inject_Z lo) (inject_Z hi) (column col (current_df s))
      (current_df s) = Ok vs /\
    rv_violations e = len_list vs.
Proof.
  intros Hv He.
  destruct (wp_outcome_ok _ _ _ _ (check_validity_content env s) Hv) as [H _].
  destruct (H col e He) as (_ & _ & lo & hi & vs & H1 & _ & H2 & H3).
  exists lo, hi, vs. auto.
Qed.

(** The ranges of the default configuration are ordered. *)
Lemma default_ranges_ordered :
  Forall (fun entry => (fst (snd entry) <= snd (snd entry))%Z)
    (expected_ranges _default_config).
Proof. repeat constructor; simpl; lia. Qed.

(** Every configured range whose column is in the dataset has an entry in
    the range violations that [check_validity] reports. *)
Lemma check_validity_ranges env s :
  wp (check_validity env)
    (fun r s' =>
       on_ok (fun v =>
         forall col lo hi,
           In (col, (lo, hi)) (expected_ranges (self_config (self s))) ->
           has_column col (current_df s) = true ->
           In col (map fst (range_violations v)))
         r)
    s.
Proof.
  unfold check_validity. wp_steps. set (df := current_df s).
  set (cfg := self_config (self s)).
  apply (wp_for_fold_visited _ _
           (fun visited acc _ => forall col lo hi,
              In (col, (lo, hi)) visited -> has_column col df = true ->
              In col (map fst acc))).
  - intros visited [col [lo hi]] acc s' Hinv. simpl.
    destruct (has_column col df) eqn:Hcol.
    + wp_case Hvs. wp_case Hp. apply wp_when_append. intros s1. wp_steps.
      intros c l h Hin Hc. apply dict_set_keys.
      apply in_app_iff in Hin as [Hin | [[= -> -> ->] | []]];
        [right; eapply Hinv; eauto | left; reflexivity].
    + wp_steps. intros c l h Hin Hc.
      apply in_app_iff in Hin as [Hin | [[= -> -> ->] | []]];
        [eapply Hinv; eauto | congruence].
  - intros ranges s1 Hranges. wp_steps.
    apply (wp_for_fold _ _ (fun _ _ => True)); [| | exact I].
    + intros acc [col valid] s' _ _. simpl.
      destruct (has_column col df); [| wp_steps; exact I].
      wp_steps. apply wp_when_append. intros s2. wp_steps. exact I.
    + intros values s2 _. wp_steps.
      destruct (has_column "date" df).
      * destruct (to_datetime_error env (column "date" df));
          wp_steps; simpl; exact Hranges.
      * wp_steps. simpl. exact Hranges.
  - intros col lo hi [].
Qed.

(** C7.  What [check_validity] reports on ranges.  Every configured range
    whose column is in the dataset has an entry, and the entry of a column
    holds, as its number of violations, the number of records that the range
    check selects for a configured range [lo]-[hi] of that column.  When
    [lo <= hi], a record whose value equals [lo] or [hi] is not among the
    records selected, and a record whose value is one unit below [lo] or one
    unit above [hi] is: the bounds are inclusive. *)
Theorem range_bounds_inclusive env s v :
  snd (check_validity env s) = Ok v ->
  (forall col lo hi,
     In (col, (lo, hi)) (expected_ranges (self_config (self s))) ->
     has_column col (current_df s) = true ->
     exists e, In (col, e) (range_violations v)) /\
  (forall col e, In (col, e) (range_violations v) ->
     exists lo hi i vs,
       In (col, (lo, hi)) (expected_ranges (self_config (self s))) /\
       col_index col (columns (current_df s)) = Some i /\
       out_of_range (inject_Z lo) (inject_Z hi) (column col (current_df s))
         (current_df s) = Ok vs /\
       rv_violations e = len_list vs /\
       ((lo <= hi)%Z ->
        forall r q, In r (rows (current_df s)) -> cell i r = VNum q ->
          ((q == inject_Z lo \/ q == inject_Z hi)%Q -> ~ In r vs) /\
          ((q == inject_Z lo - 1 \/ q == inject_Z hi + 1)%Q -> In r vs))).
Proof.
  intros Hv. split.
  - intros col lo hi Hin Hcol. apply in_keys.
    exact (wp_outcome_ok _ _ _ _ (check_validity_ranges env s) Hv
             col lo hi Hin Hcol).
  - intros col e He.
    destruct (wp_outcome_ok _ _ _ _ (check_validity_content env s) Hv)
      as [H _].
    destruct (H col e He) as (_ & _ & lo & hi & vs & Hin & Hcol & Hvs & Hn).
    destruct (has_column_index _ _ Hcol) as [i Hi].
    exists lo, hi, i, vs. repeat (split; [assumption |]).
    intros Hle r q Hr Hq.
    rewrite (column_column_at _ _ _ Hi) in Hvs.
    apply out_of_range_filter in Hvs. subst vs.
    assert (Hle' : (inject_Z lo <= inject_Z hi)%Q)
      by (rewrite <- Zle_Qle; exact Hle).
    split.
    + intros Hb Hin'. apply List.filter_In in Hin'.
      destruct Hin' as [_ Hout].
      rewrite Hq in Hout. apply outside_num in Hout.
      destruct Hb as [Hb | Hb]; rewrite Hb in Hout;
        destruct Hout as [H0 | H0]; lra.
    + intros Hb. apply List.filter_In. split; [exact Hr |].
      rewrite Hq. apply outside_num.
      destruct Hb as [Hb | Hb]; rewrite Hb; [left | right]; lra.
Qed.

Lemma range_bounds_inclusive_witness :
  exists e vs,
    In ("patient_age", e) (range_violations boundary_validity) /\
    rv_violations e = len_list vs /\ rv_violations e = 2%Z /\
    (~ In [VNum 0] vs /\ ~ In [VNum 120] vs) /\
    (In [VNum (-1)] vs /\ In [VNum 121] vs).
Proof.
  pose proof (range_bounds_inclusive (sample_env 20261104)
                (__init__ (caller_heap boundary_ages) 0%nat None)
                boundary_validity eq_refl) as [H1 H2].
  destruct (H1 "patient_age" 0%Z 120%Z (or_introl eq_refl) eq_refl)
    as [e He].
  destruct (H2 _ _ He) as (lo & hi & i & vs & Hin & Hi & _ & Hn & Hb).
  exists e, vs. split; [exact He |]. split; [exact Hn |].
  split; [destruct He as [[= <-] | []]; reflexivity |].
  simpl in Hin. destruct Hin as [[= <- <-] | [[=] | [[=] | []]]].
  injection Hi as <-. specialize (Hb ltac:(lia)).
  split; split.
  - apply (Hb [VNum 0] 0%Q);
      [vm_compute; tauto | reflexivity | left; reflexivity].
  - apply (Hb [VNum 120] 120%Q);
      [vm_compute; tauto | reflexivity | right; reflexivity].
  - apply (Hb [VNum (-1)] (-1)%Q);
      [vm_compute; tauto | reflexivity | left; reflexivity].
  - apply (Hb [VNum 121] 121%Q);
      [vm_compute; tauto | reflexivity | right; reflexivity].
Defined.

(** ** The checks on the sample visits *)

(** On the sample visits the five checks return, each one run on a validator
    of its own. *)
Example sample_checks_return :
  let s := __init__ (caller_heap sample_visits) 0%nat None in
  let env := sample_env 20261104 in
  returns check_completeness s /\ returns check_uniqueness s /\
  returns (check_validity env) s /\ returns (check_consistency env) s /\
  returns check_accuracy s.
Proof. repeat split; eexists; vm_compute; reflexivity. Qed.

(** ** The recommendations of the checks *)

Lemma appended_refl P s : appended P s s.
Proof. exists []. split; [rewrite app_nil_r; reflexivity | constructor]. Qed.

Lemma appended_append P s r :
  P r -> stable (appended P s) (append_recommendation r).
Proof.
  intros Hr s' (e & H & F). exists (e ++ [r])%list. simpl. split.
  - rewrite H, app_assoc. reflexivity.
  - apply Forall_app. split; [exact F | repeat constructor; exact Hr].
Qed.

Lemma appended_results_blind P s : results_blind (appended P s).
Proof. intros f s' H. exact H. Qed.

Lemma appended_assign_blind P s : assign_blind (appended P s).
Proof. intros c vals s' H. exact H. Qed.

Ltac appends_auto :=
  repeat first
    [ apply appended_append; split; simpl; tauto
    | stable_step ].

Lemma check_completeness_appends s :
  stable (appended (rec_of "Completeness" [HIGH]) s) check_completeness.
Proof.
  pose proof (appended_results_blind (rec_of "Completeness" [HIGH]) s).
  unfold check_completeness. appends_auto.
Qed.

Lemma check_uniqueness_appends s :
  stable (appended (rec_of "Uniqueness" [MEDIUM; HIGH]) s) check_uniqueness.
Proof.
  pose proof (appended_results_blind (rec_of "Uniqueness" [MEDIUM; HIGH]) s).
  unfold check_uniqueness. appends_auto.
Qed.

Lemma check_validity_appends env s :
  stable (appended (rec_of "Validity" [MEDIUM; HIGH]) s) (check_validity env).
Proof.
  pose proof (appended_results_blind (rec_of "Validity" [MEDIUM; HIGH]) s).
  unfold check_validity. appends_auto.
Qed.

Lemma check_consistency_appends env s :
  stable (appended (rec_of "Consistency" [HIGH]) s) (check_consistency env).
Proof.
  pose proof (appended_results_blind (rec_of "Consistency" [HIGH]) s).
  pose proof (appended_assign_blind (rec_of "Consistency" [HIGH]) s).
  unfold check_consistency. appends_auto.
Qed.

Lemma check_accuracy_appends s :
  stable (appended (rec_of "Accuracy" [LOW]) s) check_accuracy.
Proof.
  pose proof (appended_results_blind (rec_of "Accuracy" [LOW]) s).
  unfold check_accuracy. appends_auto.
Qed.

(** X1.  Each check only appends to [self.recommendations]: what was there
    stays in place, and every recommendation that a check adds carries the
    category of its own dimension and one of its severities, HIGH for
    completeness and consistency, MEDIUM or HIGH for uniqueness and
    validity, LOW for accuracy.  This holds whether the check returns or
    raises. *)
Theorem checks_append_own_recommendations env s :
  appended (rec_of "Completeness" [HIGH]) s (fst (check_completeness s)) /\
  appended (rec_of "Uniqueness" [MEDIUM; HIGH]) s (fst (check_uniqueness s)) /\
  appended (rec_of "Validity" [MEDIUM; HIGH]) s (fst (check_validity env s)) /\
  appended (rec_of "Consistency" [HIGH]) s (fst (check_consistency env s)) /\
  appended (rec_of "Accuracy" [LOW]) s (fst (check_accuracy s)).
Proof.
  repeat split.
  - apply check_completeness_appends, appended_refl.
  - apply check_uniqueness_appends, appended_refl.
  - apply check_validity_appends, appended_refl.
  - apply check_consistency_appends, appended_refl.
  - apply check_accuracy_appends, appended_refl.
Qed.

Lemma in_segments_nil Ps : in_segments Ps [].
Proof.
  induction Ps as [| P Ps IH]; simpl; [reflexivity |].
  exists [], []. repeat split; [constructor | exact IH].
Qed.

Lemma segments_bind {A B : Type} P Ps (m : M A) (k : A -> M B) :
  (forall s, appended P s (fst (m s))) ->
  (forall a s, exists extra,
     recommendations (self (fst (k a s)))
       = (recommendations (self s) ++ extra)%list /\
     in_segments Ps extra) ->
  forall s, exists extra,
    recommendations (self (fst (bind m k s)))
      = (recommendations (self s) ++ extra)%list /\
    in_segments (P :: Ps) extra.
Proof.
  intros Hm Hk s. destruct (Hm s) as (e & He & Fe). unfold bind.
  destruct (m s) as [s1 [a | x]]; simpl in *.
  - destruct (Hk a s1) as (rest & Hrest & Srest).
    exists (e ++ rest)%list. split.
    + rewrite Hrest, He, app_assoc. reflexivity.
    + exists e, rest. auto.
  - exists e. split; [exact He |].
    exists e, []. rewrite app_nil_r. repeat split; auto using in_segments_nil.
Qed.

Lemma run_appends_segments env s :
  exists extra,
    recommendations (self (fst (run_all_validations env s)))
      = (recommendations (self s) ++ extra)%list /\
    in_segments
      [rec_of "Completeness" [HIGH]; rec_of "Uniqueness" [MEDIUM; HIGH];
       rec_of "Validity" [MEDIUM; HIGH]; rec_of "Consistency" [HIGH];
       rec_of "Accuracy" [LOW]] extra.
Proof.
  unfold run_all_validations. revert s.
  apply segments_bind;
    [intros s; apply check_completeness_appends, appended_refl | intros _].
  apply segments_bind;
    [intros s; apply check_uniqueness_appends, appended_refl | intros _].
  apply segments_bind;
    [intros s; apply check_validity_appends, appended_refl | intros _].
  apply segments_bind;
    [intros s; apply check_consistency_appends, appended_refl | intros _].
  apply segments_bind;
    [intros s; apply check_accuracy_appends, appended_refl | intros _].
  intros s. exists []. split; [| reflexivity]. rewrite app_nil_r.
  match goal with
  | |- recommendations (self (fst (?tail s))) = _ =>
      assert (Htail : stable
                (fun s' => recommendations (self s') = recommendations (self s))
                tail)
  end.
  { assert (Hres : results_blind
              (fun s' => recommendations (self s') = recommendations (self s))).
    { intros f s' H. exact H. }
    repeat first
      [ apply calculate_validity_score_stable
      | apply calculate_consistency_score_stable
      | apply calculate_accuracy_score_stable
      | stable_step ]. }
  apply (Htail s eq_refl).
Qed.

(** X2.  [run_all_validations] leaves the recommendations that the validator
    already held in place and appends the new ones grouped by dimension, in
    the order of the checks: completeness, uniqueness, validity,
    consistency, accuracy (a group is empty when its check found nothing or
    was not reached); computing the scores adds none. *)
Theorem run_recommendations_in_order env s :
  exists e1 e2 e3 e4 e5,
    recommendations (self (fst (run_all_validations env s)))
      = (recommendations (self s) ++ e1 ++ e2 ++ e3 ++ e4 ++ e5)%list /\
    Forall (rec_of "Completeness" [HIGH]) e1 /\
    Forall (rec_of "Uniqueness" [MEDIUM; HIGH]) e2 /\
    Forall (rec_of "Validity" [MEDIUM; HIGH]) e3 /\
    Forall (rec_of "Consistency" [HIGH]) e4 /\
    Forall (rec_of "Accuracy" [LOW]) e5.
Proof.
  destruct (run_appends_segments env s)
    as (extra & Hrecs & e1 & r1 & -> & F1 & e2 & r2 & -> & F2
        & e3 & r3 & -> & F3 & e4 & r4 & -> & F4 & e5 & r5 & -> & F5 & ->).
  exists e1, e2, e3, e4, e5. rewrite app_nil_r in Hrecs. auto 10.
Qed.

Lemma scorer_state {A : Type} (m : M A) s s' a :
  (forall I, stable I m) -> m s = (s', Ok a) -> s' = s.
Proof.
  intros Hm E. exact (stable_outcome (fun x => x = s) m s s' _ (Hm _) E eq_refl).
Qed.

Lemma filter_len_le {A : Type} (f : A -> bool) (l : list A) :
  (0 <= len_list (List.filter f l) <= len_list l)%Z.
Proof.
  unfold len_list. pose proof (List.filter_length_le f l). lia.
Qed.

(** X3.  When [run_all_validations] returns, the results it returns are the
    validator's [validation_results], and their [overall] entry counts the
    recommendations that the validator holds at that moment, those from
    before the run included: [total_recommendations] is their number and
    [critical_issues] the number of HIGH ones among them. *)
Theorem overall_counts_recommendations env s s' r :
  run_all_validations env s = (s', Ok r) ->
  exists o,
    overall r = Some o /\ r = validation_results (self s') /\
    total_recommendations o = len_list (recommendations (self s')) /\
    critical_issues o
      = len_list (List.filter is_high (recommendations (self s'))) /\
    (len_list (recommendations (self s)) <= total_recommendations o)%Z /\
    (0 <= critical_issues o <= total_recommendations o)%Z.
Proof.
  intros Hrun.
  destruct (run_appends_segments env s) as (extra & Hrecs & _).
  rewrite Hrun in Hrecs. simpl in Hrecs.
  unfold run_all_validations in Hrun.
  apply bind_ok in Hrun as (s1 & c1 & _ & Hrun).
  apply bind_ok in Hrun as (s2 & u2 & _ & Hrun).
  apply bind_ok in Hrun as (s3 & v3 & _ & Hrun).
  apply bind_ok in Hrun as (s4 & co4 & _ & Hrun).
  apply bind_ok in Hrun as (s5 & a5 & _ & Hrun).
  apply bind_ok in Hrun as (s6 & r0 & E & Hrun). injection E as <- <-.
  apply bind_ok in Hrun as (s6 & c & E & Hrun).
  apply (scorer_state _ _ _ _ (fun I => stable_lookup_result I _ _)) in E.
  subst s6.
  apply bind_ok in Hrun as (s6 & u & E & Hrun).
  apply (scorer_state _ _ _ _ (fun I => stable_lookup_result I _ _)) in E.
  subst s6.
  apply bind_ok in Hrun as (s6 & vs & E & Hrun).
  apply (scorer_state _ _ _ _ calculate_validity_score_stable) in E. subst s6.
  apply bind_ok in Hrun as (s6 & cs & E & Hrun).
  apply (scorer_state _ _ _ _ calculate_consistency_score_stable) in E.
  subst s6.
  apply bind_ok in Hrun as (s6 & acs & E & Hrun).
  apply (scorer_state _ _ _ _ calculate_accuracy_score_stable) in E. subst s6.
  unfold bind, get_recommendations, update_results, get_results in Hrun.
  simpl in Hrun. injection Hrun as <- <-. simpl in *.
  eexists. split; [reflexivity |]. split; [reflexivity |]. simpl.
  split; [reflexivity |]. split; [reflexivity |].
  pose proof (filter_len_le is_high (recommendations (self s5))).
  split; [| lia].
  rewrite Hrecs. unfold len_list. rewrite length_app. lia.
Qed.

Lemma overall_counts_recommendations_witness :
  exists o,
    overall sample_results = Some o /\
    sample_results
      = validation_results
          (self (fst (validate (sample_env 20261104) sample_visits None))) /\
    total_recommendations o
      = len_list (recommendations
                    (self (fst (validate (sample_env 20261104) sample_visits
                                  None)))) /\
    critical_issues o
      = len_list (List.filter is_high
                    (recommendations
                       (self (fst (validate (sample_env 20261104)
                                     sample_visits None))))) /\
    (len_list (recommendations (self sample_validator))
     <= total_recommendations o)%Z /\
    (0 <= critical_issues o <= total_recommendations o)%Z.
Proof.
  apply (overall_counts_recommendations (sample_env 20261104) sample_validator).
  vm_compute. reflexivity.
Defined.

(** ** The two copies of the dataset *)

Lemma init_original_df h l cfg d :
  h !! l = Some d ->
  self_original_df (self (__init__ h l cfg)) <> self_df (self (__init__ h l cfg)) /\
  self_original_df (self (__init__ h l cfg)) <> l /\
  heap (__init__ h l cfg) !! self_original_df (self (__init__ h l cfg)) = Some d.
Proof.
  intros Hl. unfold __init__, copy. simpl.
  assert (H1 : fresh_loc h <> l) by (apply fresh_loc_fresh; eauto).
  assert (H2 : fresh_loc (<[fresh_loc h := deref h l]> h) <> l).
  { apply fresh_loc_fresh. rewrite lookup_insert_ne by exact H1. eauto. }
  assert (H3 : fresh_loc (<[fresh_loc h := deref h l]> h) <> fresh_loc h).
  { apply fresh_loc_fresh. rewrite lookup_insert_eq. eauto. }
  split; [exact H3 |]. split; [exact H2 |].
  rewrite lookup_insert_eq. f_equal. unfold deref.
  rewrite lookup_insert_ne by exact H1. rewrite Hl. reflexivity.
Qed.

Lemma run_current_df env s s' r :
  run_all_validations env s = (s', Ok r) ->
  current_df s' = with_date_parsed env (current_df s).
Proof.
  intros Hrun. unfold run_all_validations in Hrun.
  apply bind_ok in Hrun as (s1 & c1 & E1 & Hrun).
  apply bind_ok in Hrun as (s2 & u2 & E2 & Hrun).
  apply bind_ok in Hrun as (s3 & v3 & E3 & Hrun).
  apply bind_ok in Hrun as (s4 & co4 & E4 & Hrun).
  apply bind_ok in Hrun as (s5 & a5 & E5 & Hrun).
  pose proof (current_df_unchanged check_completeness s
                (fun I H1 H2 => check_completeness_stable I H1 H2)) as D1.
  pose proof (current_df_unchanged check_uniqueness s1
                (fun I H1 H2 => check_uniqueness_stable I H1 H2)) as D2.
  pose proof (current_df_unchanged (check_validity env) s2
                (fun I H1 H2 => check_validity_stable I H1 env H2)) as D3.
  pose proof (current_df_after_consistency env s3) as D4.
  pose proof (current_df_unchanged check_accuracy s4
                (fun I H1 H2 => check_accuracy_stable I H1 H2)) as D5.
  rewrite E1 in D1. rewrite E2 in D2. rewrite E3 in D3. rewrite E4 in D4.
  rewrite E5 in D5. simpl in D1, D2, D3, D4, D5.
  match type of Hrun with
  | ?tail s5 = _ =>
      pose proof (current_df_unchanged tail s5) as D6
  end.
  rewrite Hrun in D6. simpl in D6.
  rewrite D6, D5, D4, D3, D2, D1; [reflexivity |].
  intros I Hrecs Hres.
  repeat first
    [ apply calculate_validity_score_stable
    | apply calculate_consistency_score_stable
    | apply calculate_accuracy_score_stable
    | stable_step ].
Qed.

(** X4.  The constructor takes two copies of the caller's dataframe.  The
    second one, [self.original_df], is another object than [self.df] and is
    never touched: after [run_all_validations], returning or not, the
    validator still refers to it and it still holds the dataset as it was
    given, while after a run that returns [self.df] holds that dataset with
    the column [date_parsed] assigned (when it has a [date] column). *)
Theorem original_df_kept env h l cfg d :
  h !! l = Some d ->
  self_original_df (self (__init__ h l cfg))
    <> self_df (self (__init__ h l cfg)) /\
  self_original_df (self (fst (run_all_validations env (__init__ h l cfg))))
    = self_original_df (self (__init__ h l cfg)) /\
  heap (fst (run_all_validations env (__init__ h l cfg)))
    !! self_original_df (self (__init__ h l cfg)) = Some d /\
  (forall r, snd (run_all_validations env (__init__ h l cfg)) = Ok r ->
     current_df (fst (run_all_validations env (__init__ h l cfg)))
       = with_date_parsed env d).
Proof.
  intros Hl. set (s := __init__ h l cfg).
  destruct (init_original_df h l cfg d Hl) as (Hne & _ & Ho). fold s in Hne, Ho.
  destruct (init_self_df h l cfg d Hl) as (_ & Hcur & _). fold s in Hcur.
  split; [exact Hne |]. split; [| split].
  - apply (run_all_validations_stable
             (fun s' => self_original_df (self s') = self_original_df (self s)));
      [intros x s0 H | intros f s0 H | intros c vals s0 H | reflexivity];
      exact H.
  - apply run_keeps_other_objects; [exact Ho | congruence].
  - intros r Hr. rewrite <- Hcur.
    apply (run_current_df env s _ r).
    destruct (run_all_validations env s) as [s' r']. simpl in *.
    rewrite Hr. reflexivity.
Qed.

Lemma original_df_kept_witness :
  deref (heap (fst (validate (sample_env 20261104) sample_visits None)))
    (self_original_df
       (self (fst (validate (sample_env 20261104) sample_visits None))))
  = sample_visits /\
  columns (current_df (fst (validate (sample_env 20261104) sample_visits None)))
  = (visit_columns ++ ["date_parsed"])%list.
Proof.
  destruct (original_df_kept (sample_env 20261104) (caller_heap sample_visits)
              0%nat None sample_visits eq_refl) as (_ & H1 & H2 & H3).
  split.
  - unfold validate, deref. rewrite H1, H2. reflexivity.
  - unfold validate. rewrite (H3 sample_results); [reflexivity |].
    vm_compute. reflexivity.
Defined.

(** ** Counting duplicates *)

Section Marked.
Variable A : Type.
Variable E : A -> A -> bool.
Hypothesis E_refl : forall x, E x x = true.
Hypothesis E_sym : forall x y, E x y = E y x.
Hypothesis E_trans : forall x y z, E x y = true -> E y z = true -> E x z = true.

Lemma occ_class l x y : E x y = true -> occ E l x = occ E l y.
Proof.
  intros H. unfold occ. apply filter_length_ext. intros z _.
  apply (E_congr A E E_sym E_trans). exact H.
Qed.

Lemma filter_length_mono (f g : A -> bool) l :
  (forall x, In x l -> f x = true -> g x = true) ->
  (length (List.filter f l) <= length (List.filter g l))%nat.
Proof.
  induction l as [| a l IH]; intros H; simpl; [lia |].
  assert (IH' : (length (List.filter f l) <= length (List.filter g l))%nat).
  { apply IH. intros x Hx. apply H. right. exact Hx. }
  destruct (f a) eqn:Ef.
  - rewrite (H a (or_introl eq_refl) Ef). simpl. lia.
  - destruct (g a); simpl; lia.
Qed.

(** A marked row brings its twins along: the marked rows are none, or two
    or more. *)
Lemma marked_count_not_one l :
  length (List.filter (marked E l) l) = 0%nat \/
  (2 <= length (List.filter (marked E l) l))%nat.
Proof.
  destruct (List.filter (marked E l) l) as [| x rest] eqn:Ef; [left; reflexivity |].
  right. rewrite <- Ef.
  assert (Hx : In x (List.filter (marked E l) l)) by (rewrite Ef; left; reflexivity).
  apply List.filter_In in Hx. destruct Hx as [Hin Hm].
  transitivity (length (List.filter (E x) l)).
  - unfold marked in Hm. apply Nat.leb_le in Hm. exact Hm.
  - apply filter_length_mono. intros y _ Hy. unfold marked.
    rewrite <- (occ_class l x y Hy). exact Hm.
Qed.

Lemma marked_none l :
  ForallOrdPairs (fun y z => E y z = false) l ->
  List.filter (marked E l) l = [].
Proof.
  intros Hd.
  assert (H : forall x, In x l -> marked E l x = false).
  { intros x Hx. unfold marked.
    rewrite (occ_distinct A E E_refl E_sym l x Hd Hx). reflexivity. }
  revert H. generalize (marked E l). intros f H.
  induction l as [| a l IH]; simpl; [reflexivity |].
  rewrite (H a (or_introl eq_refl)). apply IH.
  - inversion Hd; assumption.
  - intros x Hx. apply H. right. exact Hx.
Qed.
End Marked.

Lemma filter_count_perm {A : Type} (f : A -> bool) l l' :
  Permutation l l' -> length (List.filter f l) = length (List.filter f l').
Proof.
  induction 1 as [| x l l' _ IH | x y l | l l' l'' _ IH1 _ IH2]; simpl.
  - reflexivity.
  - destruct (f x); simpl; rewrite IH; reflexivity.
  - destruct (f x), (f y); reflexivity.
  - rewrite IH1. exact IH2.
Qed.

Lemma marked_count_perm {A : Type} (E : A -> A -> bool) l l' :
  Permutation l l' ->
  length (List.filter (marked E l) l) = length (List.filter (marked E l') l').
Proof.
  intros H. rewrite (filter_count_perm _ _ _ H).
  apply filter_length_ext. intros x _. unfold marked, occ.
  rewrite (filter_count_perm _ _ _ H). reflexivity.
Qed.

(** A coarser key marks at least the rows that a finer key marks. *)
Lemma marked_coarser {A : Type} (E E' : A -> A -> bool) l :
  (forall x y, E x y = true -> E' x y = true) ->
  (length (List.filter (marked E l) l) <= length (List.filter (marked E' l) l))%nat.
Proof.
  intros H. apply filter_length_mono. intros x _. unfold marked, occ.
  rewrite !Nat.leb_le. intros Hx.
  etransitivity; [exact Hx |]. apply filter_length_mono.
  intros y _. apply H.
Qed.

Lemma wp_when_append_recs {B : Type} (b : bool) (r : Recommendation)
  (k : unit -> M B) Q s :
  (forall s',
     recommendations (self s')
       = (recommendations (self s) ++ (if b then [r] else []))%list ->
     heap s' = heap s -> self_df (self s') = self_df (self s) ->
     validation_results (self s') = validation_results (self s) ->
     wp (k tt) Q s') ->
  wp (when b (append_recommendation r)) (bind_post k Q) s.
Proof.
  intros H. apply wp_when; intros ->; wp_steps; apply H; simpl;
    rewrite ?app_nil_r; reflexivity.
Qed.

Lemma duplicated_keys_inv df mask :
  df_empty df = false ->
  duplicated (Some ["patient_id"; "date"]) df = Ok mask ->
  exists i j,
    col_index "patient_id" (columns df) = Some i /\
    col_index "date" (columns df) = Some j /\
    mask = duplicated_mask [i; j] (rows df).
Proof.
  intros Hne. unfold duplicated, has_column. rewrite Hne. simpl.
  destruct (col_index "patient_id" (columns df)) as [i |];
    destruct (col_index "date" (columns df)) as [j |]; simpl;
    try discriminate.
  intros [= <-]. eauto.
Qed.

(** What [check_uniqueness] reports when it returns: the two counts are the
    numbers of rows whose key (all the columns; identifier and date) occurs
    at least twice, and a recommendation is appended for each count that is
    not zero, the MEDIUM one first. *)
Lemma check_uniqueness_counts s :
  wp check_uniqueness
    (fun r s' =>
       on_ok (fun u =>
         exists i j,
           col_index "patient_id" (columns (current_df s)) = Some i /\
           col_index "date" (columns (current_df s)) = Some j /\
           df_empty (current_df s) = false /\
           cp_count (exact_duplicates u)
             = len_list (List.filter
                 (marked (same_key (all_columns (current_df s)))
                    (rows (current_df s)))
                 (rows (current_df s))) /\
           cp_count (id_date_duplicates u)
             = len_list (List.filter
                 (marked (same_key [i; j]) (rows (current_df s)))
                 (rows (current_df s))) /\
           exists extra,
             recommendations (self s')
               = (recommendations (self s) ++ extra)%list /\
             map severity extra
               = ((if (0 <? cp_count (exact_duplicates u))%Z
                   then [MEDIUM] else [])
                  ++ (if (0 <? cp_count (id_date_duplicates u))%Z
                      then [HIGH] else []))%list)
         r)
    s.
Proof.
  unfold check_uniqueness. wp_steps. set (df := current_df s).
  wp_case Hmask. wp_case Hexact. wp_case Hp.
  apply percentage_percent_of in Hp. destruct Hp as [-> Hlen].
  assert (Hne : df_empty df = false).
  { unfold duplicated in Hmask. destruct (df_empty df) eqn:E; [| reflexivity].
    injection Hmask as <-. unfold getitem_mask in Hexact. simpl in Hexact.
    unfold len in Hlen. destruct (rows df); [simpl in Hlen; lia | discriminate]. }
  rewrite (duplicated_all df Hne) in Hmask. injection Hmask as <-.
  rewrite getitem_duplicated in Hexact. injection Hexact as <-.
  apply wp_when_append_recs. intros s1 R1 _ _ _.
  wp_case Hmask'.
  destruct (duplicated_keys_inv df _ Hne Hmask') as (i & j & Hi & Hj & ->).
  wp_case Hid. rewrite getitem_duplicated in Hid. injection Hid as <-.
  wp_case Hp'.
  apply wp_when_append_recs. intros s2 R2 _ _ _. wp_steps.
  eapply wp_mono; [apply unique_constraints_loop; exact Hlen |].
  intros r s' [-> [acc' ->]]. wp_steps. simpl.
  exists i, j. repeat split; auto.
  eexists. rewrite R2, R1, <- app_assoc. split; [reflexivity |].
  rewrite map_app.
  destruct (0 <? _)%Z; destruct (0 <? _)%Z; reflexivity.
Qed.

Lemma same_key_coarser df i j r r' :
  col_index "patient_id" (columns df) = Some i ->
  col_index "date" (columns df) = Some j ->
  same_key (all_columns df) r r' = true -> same_key [i; j] r r' = true.
Proof.
  intros Hi Hj H. apply (same_key_subset df); [exact H |].
  intros k [<- | [<- | []]]; eapply col_index_lt; eauto.
Qed.

(** X5.  When [check_uniqueness] returns, the records it counts as exact
    duplicates are among those it counts as sharing [patient_id] and [date]:
    the first count is at most the second, which is at most the number of
    records.  A recommendation is appended for each count that is not zero,
    the MEDIUM one (exact duplicates) before the HIGH one (identifier and
    date); so the MEDIUM one never comes alone. *)
Theorem exact_duplicates_are_id_date_duplicates s u :
  snd (check_uniqueness s) = Ok u ->
  (0 <= cp_count (exact_duplicates u) <= cp_count (id_date_duplicates u))%Z /\
  (cp_count (id_date_duplicates u) <= len (current_df s))%Z /\
  exists extra,
    recommendations (self (fst (check_uniqueness s)))
      = (recommendations (self s) ++ extra)%list /\
    map severity extra
      = ((if (0 <? cp_count (exact_duplicates u))%Z then [MEDIUM] else [])
         ++ (if (0 <? cp_count (id_date_duplicates u))%Z then [HIGH] else []))%list /\
    ((0 < cp_count (exact_duplicates u))%Z -> map severity extra = [MEDIUM; HIGH]).
Proof.
  intros Hu.
  destruct (wp_outcome_ok _ _ _ _ (check_uniqueness_counts s) Hu)
    as (i & j & Hi & Hj & Hne & He & Hd & extra & Hrecs & Hsev).
  assert (Hle : (cp_count (exact_duplicates u)
                 <= cp_count (id_date_duplicates u))%Z).
  { rewrite He, Hd. unfold len_list. apply inj_le. apply marked_coarser.
    intros x y. apply (same_key_coarser _ i j); assumption. }
  split; [split; [rewrite He; apply len_list_nonneg | exact Hle] |].
  split.
  { rewrite Hd. unfold len_list, len. apply inj_le. apply List.filter_length_le. }
  exists extra. split; [exact Hrecs |]. split; [exact Hsev |].
  intros Hpos. rewrite Hsev.
  destruct (Z.ltb_spec 0 (cp_count (exact_duplicates u))); [| lia].
  destruct (Z.ltb_spec 0 (cp_count (id_date_duplicates u))); [| lia].
  reflexivity.
Qed.

Lemma exact_duplicates_are_id_date_duplicates_witness :
  (0 <= cp_count (exact_duplicates sample_uniqueness)
   <= cp_count (id_date_duplicates sample_uniqueness))%Z /\
  (cp_count (id_date_duplicates sample_uniqueness) <= len sample_visits)%Z /\
  exists extra,
    recommendations (self (fst (check_uniqueness sample_validator)))
      = (recommendations (self sample_validator) ++ extra)%list /\
    map severity extra = [MEDIUM; HIGH] /\
    ((0 < 2)%Z -> map severity extra = [MEDIUM; HIGH]).
Proof.
  exact (exact_duplicates_are_id_date_duplicates sample_validator
           sample_uniqueness eq_refl).
Defined.

(** X6.  A duplicate count of [check_uniqueness] is never 1: every record
    that is counted has a twin that is counted too ([keep=False]), so each
    of the two counts is 0 or at least 2. *)
Theorem duplicate_counts_never_one s u :
  snd (check_uniqueness s) = Ok u ->
  (cp_count (exact_duplicates u) = 0 \/ 2 <= cp_count (exact_duplicates u))%Z /\
  (cp_count (id_date_duplicates u) = 0
   \/ 2 <= cp_count (id_date_duplicates u))%Z.
Proof.
  intros Hu.
  destruct (wp_outcome_ok _ _ _ _ (check_uniqueness_counts s) Hu)
    as (i & j & _ & _ & _ & He & Hd & _).
  rewrite He, Hd. unfold len_list. split.
  - destruct (marked_count_not_one row (same_key (all_columns (current_df s)))
                (same_key_sym _) (same_key_trans _) (rows (current_df s)))
      as [H | H]; [left | right]; lia.
  - destruct (marked_count_not_one row (same_key [i; j])
                (same_key_sym _) (same_key_trans _) (rows (current_df s)))
      as [H | H]; [left | right]; lia.
Qed.

Lemma duplicate_counts_never_one_witness :
  (cp_count (exact_duplicates sample_uniqueness) = 0
   \/ 2 <= cp_count (exact_duplicates sample_uniqueness))%Z /\
  (cp_count (id_date_duplicates sample_uniqueness) = 0
   \/ 2 <= cp_count (id_date_duplicates sample_uniqueness))%Z.
Proof.
  exact (duplicate_counts_never_one sample_validator sample_uniqueness
           eq_refl).
Defined.

Lemma percent_of_zero n : n <> 0%Z -> exists q, percent_of 0 n = Fin q /\ (q == 0)%Q.
Proof.
  intros Hn. unfold percent_of. destruct (Z.eqb_spec n 0); [contradiction |].
  eexists. split; [reflexivity |].
  assert (E : (inject_Z (100 * 0) / inject_Z n == 0)%Q).
  { simpl. unfold Qdiv. apply Qmult_0_l. }
  rewrite (round2_comp _ _ E). reflexivity.
Qed.

(** X7.  On a dataset with records in which no two records share both
    [patient_id] and [date], [check_uniqueness] returns, reports 0 exact
    duplicates and 0 identifier-and-date duplicates, each with a percentage
    of 0, and appends no recommendation. *)
Theorem no_shared_id_date_no_duplicates s i j :
  df_empty (current_df s) = false ->
  col_index "patient_id" (columns (current_df s)) = Some i ->
  col_index "date" (columns (current_df s)) = Some j ->
  ForallOrdPairs (fun r r' => same_key [i; j] r r' = false)
    (rows (current_df s)) ->
  exists u q,
    snd (check_uniqueness s) = Ok u /\
    exact_duplicates u = mkCountPct 0 (Fin q) /\
    id_date_duplicates u = mkCountPct 0 (Fin q) /\ (q == 0)%Q /\
    recommendations (self (fst (check_uniqueness s)))
      = recommendations (self s).
Proof.
  intros Hne Hi Hj Hd.
  assert (Hpid : has_column "patient_id" (current_df s) = true)
    by (unfold has_column; rewrite Hi; reflexivity).
  assert (Hdate : has_column "date" (current_df s) = true)
    by (unfold has_column; rewrite Hj; reflexivity).
  destruct (check_uniqueness_returns s Hne Hpid Hdate) as [u Hu].
  destruct (wp_outcome_ok _ _ _ _ (check_uniqueness_counts s) Hu)
    as (i' & j' & Hi' & Hj' & _ & He & Hid & extra & Hrecs & Hsev).
  rewrite Hi in Hi'. rewrite Hj in Hj'. injection Hi' as <-. injection Hj' as <-.
  destruct (wp_outcome_ok _ _ _ _ (check_uniqueness_content s) Hu)
    as (_ & Hpe & _ & Hpd & _).
  assert (Hle : (cp_count (exact_duplicates u)
                 <= cp_count (id_date_duplicates u))%Z).
  { rewrite He, Hid. unfold len_list. apply inj_le. apply marked_coarser.
    intros x y. apply (same_key_coarser _ i j); assumption. }
  rewrite (marked_none row (same_key [i; j]) (same_key_refl _) (same_key_sym _)
             _ Hd) in Hid.
  change (len_list []) with 0%Z in Hid.
  assert (He0 : cp_count (exact_duplicates u) = 0%Z).
  { pose proof (len_list_nonneg
                  (List.filter
                     (marked (same_key (all_columns (current_df s)))
                        (rows (current_df s)))
                     (rows (current_df s)))) as H0.
    rewrite <- He in H0. lia. }
  destruct (percent_of_zero (len (current_df s))
              (proj1 (df_empty_false _ Hne))) as (q & Hq & Hq0).
  exists u, q. split; [exact Hu |].
  rewrite He0, Hid in Hsev. simpl in Hsev.
  destruct extra; [| discriminate]. rewrite app_nil_r in Hrecs.
  rewrite He0 in Hpe. rewrite Hid in Hpd. rewrite Hq in Hpe, Hpd.
  destruct (exact_duplicates u), (id_date_duplicates u). simpl in *.
  subst. rewrite He0. auto.
Qed.

Lemma no_shared_id_date_no_duplicates_witness :
  exists u q,
    snd (check_uniqueness (__init__ (caller_heap two_visits) 0%nat None))
      = Ok u /\
    exact_duplicates u = mkCountPct 0 (Fin q) /\
    id_date_duplicates u = mkCountPct 0 (Fin q) /\ (q == 0)%Q /\
    recommendations
      (self (fst (check_uniqueness
                    (__init__ (caller_heap two_visits) 0%nat None))))
      = [].
Proof.
  refine (no_shared_id_date_no_duplicates
            (__init__ (caller_heap two_visits) 0%nat None)
            1%nat 0%nat eq_refl eq_refl eq_refl _).
  repeat constructor.
Defined.

Lemma count_pct_eq (a b : CountPct) :
  cp_count a = cp_count b -> cp_percentage a = cp_percentage b -> a = b.
Proof. destruct a, b. simpl. intros -> ->. reflexivity. Qed.

(** X8.  The duplicate counts and percentages of [check_uniqueness] do not
    depend on the order of the records: on two datasets with the same
    columns whose records are a permutation of each other, the check
    reports the same exact duplicates and the same identifier-and-date
    duplicates. *)
Theorem duplicate_counts_ignore_order s s' u u' :
  columns (current_df s) = columns (current_df s') ->
  Permutation (rows (current_df s)) (rows (current_df s')) ->
  snd (check_uniqueness s) = Ok u ->
  snd (check_uniqueness s') = Ok u' ->
  exact_duplicates u = exact_duplicates u' /\
  id_date_duplicates u = id_date_duplicates u'.
Proof.
  intros Hcols Hperm Hu Hu'.
  destruct (wp_outcome_ok _ _ _ _ (check_uniqueness_counts s) Hu)
    as (i & j & Hi & Hj & _ & He & Hd & _).
  destruct (wp_outcome_ok _ _ _ _ (check_uniqueness_counts s') Hu')
    as (i' & j' & Hi' & Hj' & _ & He' & Hd' & _).
  destruct (wp_outcome_ok _ _ _ _ (check_uniqueness_content s) Hu)
    as (_ & Hpe & _ & Hpd & _).
  destruct (wp_outcome_ok _ _ _ _ (check_uniqueness_content s') Hu')
    as (_ & Hpe' & _ & Hpd' & _).
  rewrite Hcols in Hi, Hj. rewrite Hi in Hi'. rewrite Hj in Hj'.
  injection Hi' as <-. injection Hj' as <-.
  assert (Hlen : len (current_df s) = len (current_df s')).
  { unfold len. rewrite (Permutation_length Hperm). reflexivity. }
  assert (Hall : all_columns (current_df s) = all_columns (current_df s')).
  { unfold all_columns. rewrite Hcols. reflexivity. }
  assert (E1 : cp_count (exact_duplicates u) = cp_count (exact_duplicates u')).
  { rewrite He, He', Hall. unfold len_list. f_equal.
    apply marked_count_perm. exact Hperm. }
  assert (E2 : cp_count (id_date_duplicates u)
               = cp_count (id_date_duplicates u')).
  { rewrite Hd, Hd'. unfold len_list. f_equal.
    apply marked_count_perm. exact Hperm. }
  split; apply count_pct_eq; try assumption.
  - rewrite Hpe, Hpe', E1, Hlen. reflexivity.
  - rewrite Hpd, Hpd', E2, Hlen. reflexivity.
Qed.

Lemma duplicate_counts_ignore_order_witness :
  exact_duplicates sample_uniqueness
  = exact_duplicates
      (report_of
         (snd (check_uniqueness
                 (__init__ (caller_heap sample_visits_reversed) 0%nat None)))
         sample_uniqueness) /\
  id_date_duplicates sample_uniqueness
  = id_date_duplicates
      (report_of
         (snd (check_uniqueness
                 (__init__ (caller_heap sample_visits_reversed) 0%nat None)))
         sample_uniqueness).
Proof.
  refine (duplicate_counts_ignore_order sample_validator
            (__init__ (caller_heap sample_visits_reversed) 0%nat None)
            sample_uniqueness _ eq_refl _ eq_refl eq_refl).
  apply Permutation_rev.
Defined.

(** ** Cardinalities *)

Lemma unique_from_length seen l :
  (length (unique_from seen l) <= length l)%nat.
Proof.
  revert seen. induction l as [| v l IH]; intros seen; simpl; [lia |].
  destruct (existsb (value_eqb v) seen).
  - specialize (IH seen). lia.
  - specialize (IH (v :: seen)). simpl. lia.
Qed.

Lemma nunique_bounds col : (0 <= nunique col <= len_list col)%Z.
Proof.
  unfold nunique, unique, len_list.
  pose proof (unique_from_length [] (List.filter notna col)).
  pose proof (List.filter_length_le notna col). lia.
Qed.

Lemma round4_bounds q : (0 <= q <= 1)%Q -> (0 <= round4 q <= 1)%Q.
Proof.
  intros [H0 H1]. unfold round4.
  destruct (round_half_even_bounds (q * 10000) 0 10000) as [Ha Hb].
  { unfold inject_Z. split; lra. }
  unfold Qle. simpl. lia.
Qed.

(** The cardinality entries of [check_uniqueness]. *)
Lemma check_uniqueness_cardinality s :
  wp check_uniqueness
    (fun r s' =>
       on_ok (fun u =>
         forall col e, In (col, e) (unique_constraints u) ->
           In col ["patient_id"; "patient_gender"; "patient_race";
                   "department_referral"] /\
           has_column col (current_df s) = true /\
           uc_unique_values e = nunique (column col (current_df s)) /\
           uc_total_records e = len (current_df s) /\
           len (current_df s) <> 0%Z /\
           uc_uniqueness_ratio e
             = Fin (round4 (inject_Z (nunique (column col (current_df s)))
                            / inject_Z (len (current_df s)))))
         r)
    s.
Proof.
  unfold check_uniqueness. wp_steps. set (df := current_df s).
  wp_case Hmask. wp_case Hexact. wp_case Hp.
  apply percentage_percent_of in Hp. destruct Hp as [_ Hlen].
  apply wp_when_append. intros s1.
  wp_case Hmask'. wp_case Hid. wp_case Hp'.
  apply wp_when_append. intros s2. wp_steps.
  apply (wp_for_fold _ _
           (fun acc _ => forall col e, In (col, e) acc ->
              In col ["patient_id"; "patient_gender"; "patient_race";
                      "department_referral"] /\
              has_column col df = true /\
              uc_unique_values e = nunique (column col df) /\
              uc_total_records e = len df /\
              len df <> 0%Z /\
              uc_uniqueness_ratio e
                = Fin (round4 (inject_Z (nunique (column col df))
                               / inject_Z (len df))))).
  - intros acc col s' Hin Hacc.
    destruct (has_column col df) eqn:Hcol; [| wp_steps; exact Hacc].
    unfold py_div. destruct (Z.eqb_spec (len df) 0); [contradiction |].
    wp_steps. intros col' e He. apply dict_set_In in He.
    destruct He as [[= -> ->] | He]; [| apply Hacc; exact He].
    simpl. repeat split; auto.
  - intros acc s' Hacc. wp_steps. simpl. exact Hacc.
  - intros col e [].
Qed.

(** X9.  The cardinality entries of [check_uniqueness] are made for the
    columns among [patient_id], [patient_gender], [patient_race] and
    [department_referral] that the dataset has.  Each one holds the number
    of distinct non-null values of its column, which is at most the number
    of records stored beside it, and a ratio between 0 and 1. *)
Theorem uniqueness_ratio_in_unit_interval s u col e :
  snd (check_uniqueness s) = Ok u ->
  In (col, e) (unique_constraints u) ->
  In col ["patient_id"; "patient_gender"; "patient_race";
          "department_referral"] /\
  has_column col (current_df s) = true /\
  uc_unique_values e = nunique (column col (current_df s)) /\
  uc_total_records e = len (current_df s) /\
  (0 <= uc_unique_values e <= uc_total_records e)%Z /\
  exists q, uc_uniqueness_ratio e = Fin q /\ (0 <= q <= 1)%Q.
Proof.
  intros Hu He.
  destruct (wp_outcome_ok _ _ _ _ (check_uniqueness_cardinality s) Hu col e He)
    as (H1 & H2 & H3 & H4 & Hlen & H5).
  pose proof (nunique_bounds (column col (current_df s))) as Hb.
  assert (Hcl : len_list (column col (current_df s)) = len (current_df s)).
  { unfold len_list, len. rewrite column_length by exact H2. reflexivity. }
  rewrite Hcl in Hb.
  split; [exact H1 |]. split; [exact H2 |]. split; [exact H3 |].
  split; [exact H4 |]. split; [rewrite H3, H4; exact Hb |].
  eexists. split; [exact H5 |]. apply round4_bounds.
  assert (Hpos : (0 < len (current_df s))%Z) by (unfold len in *; lia).
  split; [apply rate_nonneg | apply rate_le_1]; lia.
Qed.

Lemma uniqueness_ratio_in_unit_interval_witness :
  In "patient_id" ["patient_id"; "patient_gender"; "patient_race";
                   "department_referral"] /\
  has_column "patient_id" sample_visits = true /\
  4%Z = nunique (column "patient_id" sample_visits) /\
  5%Z = len sample_visits /\
  (0 <= 4 <= 5)%Z /\
  exists q, Fin (8000 # 10000) = Fin q /\ (0 <= q <= 1)%Q.
Proof.
  exact (uniqueness_ratio_in_unit_interval sample_validator sample_uniqueness
           "patient_id" (mkUniqueConstraint 4 5 (Fin (8000 # 10000)))
           eq_refl (or_introl eq_refl)).
Defined.

(** ** The completeness report *)

(** A loop whose invariant mentions the elements already visited. *)
(** What [check_completeness] reports: one entry per column of the dataset,
    holding the number of nulls of the column and whether the configuration
    lists it as critical, and one recommendation per critical column with
    nulls. *)
Lemma check_completeness_report s :
  wp check_completeness
    (fun r s' =>
       on_ok (fun c =>
         (forall col m, In (col, m) (missing_by_column c) ->
            In col (columns (current_df s)) /\
            mc_count m = null_count (column col (current_df s)) /\
            mc_is_critical m
              = mem_string col (critical_columns (self_config (self s)))) /\
         (forall col, In col (columns (current_df s)) ->
            exists m, In (col, m) (missing_by_column c)) /\
         total_records c = len (current_df s) /\
         total_columns c = len_list (columns (current_df s)) /\
         exists extra,
           recommendations (self s')
             = (recommendations (self s) ++ extra)%list /\
           length extra
             = length (critical_with_missing (self_config (self s))
                         (current_df s)))
         r)
    s.
Proof.
  unfold check_completeness. wp_steps. set (df := current_df s).
  set (cfg := self_config (self s)).
  set (crit := fun col => mem_string col (critical_columns cfg)
                          && (0 <? null_count (column col df))%Z).
  apply (wp_for_fold_visited _ _
           (fun visited acc s' =>
              (forall col m, In (col, m) acc ->
                 In col visited /\
                 mc_count m = null_count (column col df) /\
                 mc_is_critical m = mem_string col (critical_columns cfg)) /\
              (forall col, In col visited -> In col (map fst acc)) /\
              exists extra,
                recommendations (self s')
                  = (recommendations (self s) ++ extra)%list /\
                length extra = length (List.filter crit visited))).
  - intros visited col acc s' (Hacc & Hkeys & extra & Hrecs & Hlen).
    wp_steps. apply wp_when_append_recs. intros s1 R1 _ _ _. wp_steps.
    split; [| split].
    + intros col' m Hin. apply dict_set_In in Hin.
      destruct Hin as [[= -> ->] | Hin].
      * simpl. split; [apply in_app_iff; right; left; reflexivity | auto].
      * destruct (Hacc col' m Hin) as (H1 & H2).
        split; [apply in_app_iff; left; exact H1 | exact H2].
    + intros col' Hin. apply dict_set_keys. apply in_app_iff in Hin.
      destruct Hin as [Hin | [<- | []]]; [right; apply Hkeys; exact Hin | left; reflexivity].
    + eexists. rewrite R1, Hrecs, <- app_assoc. split; [reflexivity |].
      rewrite List.filter_app, !length_app, Hlen. simpl. fold (crit col).
      destruct (crit col); reflexivity.
  - intros acc s' (Hacc & Hkeys & extra & Hrecs & Hlen). wp_steps. simpl.
    split; [exact Hacc |]. split.
    { intros col Hin. apply in_keys. apply Hkeys. exact Hin. }
    split; [reflexivity |]. split; [reflexivity |].
    exists extra. split; [exact Hrecs | exact Hlen].
  - split; [intros col m [] |]. split; [intros col [] |].
    exists []. rewrite app_nil_r. split; reflexivity.
Qed.

(** X10.  [check_completeness] always returns.  Its [missing_by_column] has
    an entry for every column of the dataset and for nothing else, and the
    entry of a column holds the number of nulls of that column and whether
    the configuration lists the column as critical.  It appends one
    recommendation per critical column that has nulls (per column, not per
    missing value), and nothing for the other columns. *)
Theorem completeness_report_per_column s :
  exists c,
    snd (check_completeness s) = Ok c /\
    (forall col m, In (col, m) (missing_by_column c) ->
       In col (columns (current_df s)) /\
       mc_count m = null_count (column col (current_df s)) /\
       mc_is_critical m
         = mem_string col (critical_columns (self_config (self s)))) /\
    (forall col, In col (columns (current_df s)) ->
       exists m, In (col, m) (missing_by_column c)) /\
    exists extra,
      recommendations (self (fst (check_completeness s)))
        = (recommendations (self s) ++ extra)%list /\
      length extra
        = length (critical_with_missing (self_config (self s)) (current_df s)).
Proof.
  destruct (check_completeness_returns s) as [c Hc]. exists c.
  split; [exact Hc |].
  destruct (wp_outcome_ok _ _ _ _ (check_completeness_report s) Hc)
    as (H1 & H2 & _ & _ & H3).
  auto.
Qed.

Lemma count_true_none {A : Type} (f : A -> bool) l :
  (forall a, In a l -> f a = false) -> count_true (map f l) = 0%Z.
Proof.
  intros H. unfold count_true. induction l as [| a l IH]; simpl; [reflexivity |].
  rewrite (H a (or_introl eq_refl)). apply IH.
  intros x Hx. apply H. right. exact Hx.
Qed.

Lemma complete_column_at df i :
  complete df -> (i < length (columns df))%nat ->
  null_count (column_at i df) = 0%Z.
Proof.
  intros Hc Hi. unfold null_count, column_at. rewrite map_map.
  apply count_true_none. intros r Hr. apply Hc; assumption.
Qed.

Lemma complete_column df col :
  complete df -> null_count (column col df) = 0%Z.
Proof.
  intros Hc. unfold column.
  destruct (col_index col (columns df)) as [i |] eqn:Ei; [| reflexivity].
  apply complete_column_at; [exact Hc | eapply col_index_lt; eauto].
Qed.

Lemma complete_rows df :
  complete df -> count_true (map (row_has_null df) (rows df)) = 0%Z.
Proof.
  intros Hc. apply count_true_none. intros r Hr. unfold row_has_null.
  destruct (existsb _ _) eqn:E; [| reflexivity].
  apply existsb_exists in E. destruct E as (i & Hi & Hnull).
  unfold all_columns in Hi. apply in_seq in Hi.
  rewrite Hc in Hnull; [discriminate | exact Hr | lia].
Qed.

Lemma complete_missing_cells df :
  complete df ->
  sum_Z (map (fun i => null_count (column_at i df)) (all_columns df)) = 0%Z.
Proof.
  intros Hc. unfold all_columns.
  assert (H : forall l, (forall i, In i l -> (i < length (columns df))%nat) ->
            sum_Z (map (fun i => null_count (column_at i df)) l) = 0%Z).
  { induction l as [| i l IH]; intros Hl; simpl; [reflexivity |].
    rewrite complete_column_at, IH; auto.
    - intros k Hk. apply Hl. right. exact Hk.
    - apply Hl. left. reflexivity. }
  apply H. intros i Hi. apply in_seq in Hi. lia.
Qed.

(** X11.  On a dataset with records and columns in which no cell is null,
    [check_completeness] reports a completeness score of 100, no record
    with a missing value and a count of 0 for every column, and appends no
    recommendation. *)
Theorem complete_dataset_scores_100 s :
  df_empty (current_df s) = false -> complete (current_df s) ->
  exists c q,
    snd (check_completeness s) = Ok c /\
    completeness_score c = Fin q /\ (q == 100)%Q /\
    cp_count (missing_by_record c) = 0%Z /\
    (forall col m, In (col, m) (missing_by_column c) -> mc_count m = 0%Z) /\
    recommendations (self (fst (check_completeness s)))
      = recommendations (self s).
Proof.
  intros Hne Hc. set (df := current_df s) in *.
  destruct (check_completeness_returns s) as [c Hret].
  destruct (wp_outcome_ok _ _ _ _ (check_completeness_report s) Hret)
    as (Hcols & _ & _ & _ & extra & Hrecs & Hlen).
  assert (Hscore : wp check_completeness
            (fun r _ => on_ok (fun c =>
               cp_count (missing_by_record c) = 0%Z /\
               exists q, completeness_score c = Fin q /\ (q == 100)%Q) r) s).
  { unfold check_completeness. wp_steps. fold df.
    apply (wp_for_fold _ _ (fun _ _ => True)); [| | exact I].
    - intros acc col s' _ _. wp_steps. apply wp_when_append. intros s1.
      wp_steps. exact I.
    - intros acc s' _. wp_steps. simpl.
      rewrite complete_rows, complete_missing_cells by exact Hc.
      split; [reflexivity |].
      destruct (df_empty_false df Hne) as [Hlen' Hcols'].
      assert (Htotal : (len df * len_list (columns df))%Z <> 0%Z).
      { unfold len_list. destruct (columns df); [contradiction |].
        simpl length. lia. }
      rewrite Z.sub_0_r. unfold np_div.
      destruct (Z.eqb_spec (len df * len_list (columns df)) 0);
        [contradiction |].
      simpl. eexists. split; [reflexivity |].
      assert (E : (inject_Z (len df * len_list (columns df))
                   / inject_Z (len df * len_list (columns df)) * 100
                   == 100)%Q).
      { field. intros H. apply Htotal.
        apply (inject_Z_injective _ 0). exact H. }
      rewrite (round2_comp _ _ E). reflexivity. }
  destruct (wp_outcome_ok _ (fun _ c =>
               cp_count (missing_by_record c) = 0%Z /\
               exists q, completeness_score c = Fin q /\ (q == 100)%Q)
              _ _ Hscore Hret) as (Hrec & q & Hq & Hq100).
  exists c, q. split; [exact Hret |]. split; [exact Hq |].
  split; [exact Hq100 |]. split; [exact Hrec |]. split.
  - intros col m Hin. destruct (Hcols col m Hin) as (_ & -> & _).
    apply complete_column. exact Hc.
  - assert (Hnone : critical_with_missing (self_config (self s)) df = []).
    { unfold critical_with_missing.
      induction (columns df) as [| col l IH]; simpl; [reflexivity |].
      rewrite (complete_column df col Hc), andb_false_r. exact IH. }
    fold df in Hlen. rewrite Hnone in Hlen.
    destruct extra; [| discriminate]. rewrite app_nil_r in Hrecs. exact Hrecs.
Qed.

Lemma complete_dataset_scores_100_witness :
  exists c q,
    snd (check_completeness (__init__ (caller_heap two_visits) 0%nat None))
      = Ok c /\
    completeness_score c = Fin q /\ (q == 100)%Q /\
    cp_count (missing_by_record c) = 0%Z /\
    (forall col m, In (col, m) (missing_by_column c) -> mc_count m = 0%Z) /\
    recommendations
      (self (fst (check_completeness
                    (__init__ (caller_heap two_visits) 0%nat None)))) = [].
Proof.
  refine (complete_dataset_scores_100
            (__init__ (caller_heap two_visits) 0%nat None) eq_refl _).
  intros r i [<- | [<- | []]] Hi; change (i < 9)%nat in Hi;
    do 9 (destruct i as [| i]; [reflexivity |]); lia.
Defined.

(** ** Dates in the future *)

Lemma col_index_app_new c cols :
  col_index c cols = None -> col_index c (cols ++ [c]) = Some (length cols).
Proof.
  induction cols as [| x cols IH]; simpl.
  - rewrite String.eqb_refl. reflexivity.
  - destruct (String.eqb c x); [discriminate |].
    destruct (col_index c cols); [discriminate |].
    intros _. rewrite IH; reflexivity.
Qed.

Lemma map_snd_combine {A B : Type} (f : A * B -> B) (P : A -> Prop)
  (l : list A) (l' : list B) :
  length l' = length l -> Forall P l ->
  (forall a b, P a -> f (a, b) = b) ->
  map f (combine l l') = l'.
Proof.
  intros Hlen HP Hf. revert l' Hlen.
  induction HP as [| a l Ha HP IH]; intros [| b l']; simpl; try discriminate.
  - reflexivity.
  - intros [= H]. rewrite IH by exact H. rewrite Hf by exact Ha. reflexivity.
Qed.

(** Reading back the column that was just assigned *)
Lemma column_set_column c vals df :
  well_formed df -> length vals = length (rows df) ->
  column c (set_column c vals df) = vals.
Proof.
  intros Hwf Hlen. unfold set_column, column.
  destruct (col_index c (columns df)) as [i |] eqn:Ei; simpl.
  - rewrite Ei. unfold column_at. simpl. rewrite map_map.
    apply (map_snd_combine _ (fun r : row => length r = length (columns df)));
      auto.
    intros r v Hr. cbn [fst snd]. unfold cell.
    apply nth_lookup_Some. apply list_lookup_insert_eq.
    apply col_index_lt in Ei. lia.
  - rewrite (col_index_app_new _ _ Ei). unfold column_at. simpl.
    rewrite map_map.
    apply (map_snd_combine _ (fun r : row => length r = length (columns df)));
      auto.
    intros r v Hr. cbn [fst snd]. unfold cell.
    rewrite app_nth2 by lia. rewrite Hr, Nat.sub_diag. reflexivity.
Qed.

Lemma select_count {A : Type} (m : list bool) (l : list A) :
  length m = length l -> len_list (select m l) = count_true m.
Proof.
  unfold len_list, count_true, select. rewrite length_map. intros H. f_equal.
  revert l H. induction m as [| b m IH]; intros [| a l]; simpl;
    try discriminate; [reflexivity |].
  intros [= H]. destruct b; simpl; rewrite IH by exact H; reflexivity.
Qed.

Lemma count_true_map {A : Type} (f : A -> bool) l :
  count_true (map f l) = len_list (List.filter f l).
Proof.
  unfold count_true, len_list. f_equal.
  induction l as [| a l IH]; simpl; [reflexivity |].
  destruct (f a); simpl; rewrite IH; reflexivity.
Qed.

Lemma after_now_coerced env v :
  after_now env (default VNull (parse_cell env v)) = later_than_now env v.
Proof.
  unfold later_than_now. destruct (parse_cell env v) as [[| | | | t] |];
    reflexivity.
Qed.

Lemma check_consistency_future env s :
  well_formed (current_df s) ->
  wp (check_consistency env)
    (fun r s' =>
       on_ok (fun c =>
         (has_column "date" (current_df s) = false ->
            future_dates c = None /\
            recommendations (self s') = recommendations (self s)) /\
         (has_column "date" (current_df s) = true ->
            exists f extra,
              future_dates c = Some f /\
              cp_count f
                = len_list (List.filter (later_than_now env)
                              (column "date" (current_df s))) /\
              recommendations (self s')
                = (recommendations (self s) ++ extra)%list /\
              map severity extra
                = if (0 <? cp_count f)%Z then [HIGH] else []))
         r)
    s.
Proof.
  intros Hwf. unfold check_consistency. wp_steps. set (df := current_df s) in *.
  match goal with
  | |- wp _ (bind_post ?k ?Q) _ =>
      assert (Hk : forall fd s',
                 (has_column "date" df = false ->
                    fd = None /\
                    recommendations (self s') = recommendations (self s)) ->
                 (has_column "date" df = true ->
                    exists f extra,
                      fd = Some f /\
                      cp_count f
                        = len_list (List.filter (later_than_now env)
                                      (column "date" df)) /\
                      recommendations (self s')
                        = (recommendations (self s) ++ extra)%list /\
                      map severity extra
                        = if (0 <? cp_count f)%Z then [HIGH] else []) ->
                 wp (k fd) Q s')
  end.
  { intros fd s' H1 H2. wp_steps.
    destruct (has_column "patient_sat_score" (current_df s')
              && has_column "patient_waittime" (current_df s')).
    - wp_case Hsat. wp_case Hwait. wp_case Hp.
      destruct (has_column "patient_age" (current_df s')
                && has_column "department_referral" (current_df s')).
      + wp_case Hyoung. simpl. split; assumption.
      + wp_steps. simpl. split; assumption.
    - wp_steps.
      destruct (has_column "patient_age" (current_df s')
                && has_column "department_referral" (current_df s')).
      + wp_case Hyoung. simpl. split; assumption.
      + wp_steps. simpl. split; assumption. }
  destruct (has_column "date" df) eqn:Hd.
  - wp_steps. rewrite current_df_assign. fold df.
    assert (Hlen : length (to_datetime_coerce env (column "date" df))
                   = length (rows df)).
    { unfold to_datetime_coerce. rewrite length_map.
      apply column_length. exact Hd. }
    rewrite (column_set_column _ _ _ Hwf Hlen).
    assert (Hcount :
      len_list (select (map (after_now env)
                          (to_datetime_coerce env (column "date" df)))
                  (rows (set_column "date_parsed"
                           (to_datetime_coerce env (column "date" df)) df)))
      = len_list (List.filter (later_than_now env) (column "date" df))).
    { rewrite select_count.
      - unfold to_datetime_coerce. rewrite map_map, count_true_map.
        unfold len_list. f_equal. apply filter_length_ext.
        intros v _. apply after_now_coerced.
      - rewrite length_map, Hlen. symmetry. apply set_column_length.
        exact Hlen. }
    wp_case Hlater. unfold after_now_series in Hlater.
    destruct (tz_aware env (column "date" df)); [discriminate |].
    injection Hlater as <-. rewrite Hcount.
    wp_case Hp.
    apply wp_when_append_recs. intros s1 R1 _ _ _. cbv beta.
    apply wp_ret. unfold bind_post at 1. apply Hk; [discriminate |].
    intros _. do 2 eexists. split; [reflexivity |]. simpl.
    split; [reflexivity |]. split; [exact R1 |].
    destruct (0 <? _)%Z; reflexivity.
  - apply wp_ret. unfold bind_post at 1. apply Hk; [auto | discriminate].
Qed.

(** X12.  When [check_consistency] returns on a well-formed dataset with a
    [date] column, the number of future dates it reports is the number of
    records whose date holds, or is parsed to, an instant strictly later
    than the current one: a null date, a date that cannot be parsed and a
    date equal to the current instant are not counted.  It appends one HIGH
    recommendation when that number is not zero and none otherwise: the
    two logical findings never produce a recommendation.  Without a [date]
    column nothing is reported about dates and nothing is appended. *)
Theorem future_dates_counted env s c :
  well_formed (current_df s) ->
  snd (check_consistency env s) = Ok c ->
  (has_column "date" (current_df s) = false ->
     future_dates c = None /\
     recommendations (self (fst (check_consistency env s)))
       = recommendations (self s)) /\
  (has_column "date" (current_df s) = true ->
     exists f extra,
       future_dates c = Some f /\
       cp_count f
         = len_list (List.filter (later_than_now env)
                       (column "date" (current_df s))) /\
       recommendations (self (fst (check_consistency env s)))
         = (recommendations (self s) ++ extra)%list /\
       map severity extra = if (0 <? cp_count f)%Z then [HIGH] else []).
Proof.
  intros Hwf Hc.
  exact (wp_outcome_ok _ _ _ _ (check_consistency_future env s Hwf) Hc).
Qed.

Lemma future_dates_counted_witness :
  exists f extra,
    future_dates sample_consistency = Some f /\
    cp_count f
      = len_list (List.filter (later_than_now (sample_env 20200401))
                    (column "date" sample_visits)) /\
    recommendations
      (self (fst (check_consistency (sample_env 20200401) sample_validator)))
      = (recommendations (self sample_validator) ++ extra)%list /\
    map severity extra = if (0 <? cp_count f)%Z then [HIGH] else [].
Proof.
  refine (proj2 (future_dates_counted (sample_env 20200401) sample_validator
                   sample_consistency _ eq_refl) eq_refl).
  repeat constructor.
Defined.

(** ** Logical findings *)

Lemma compare_series_ok op x col m :
  compare_series op x col = Ok m -> m = map (compares op x) col.
Proof. apply map_res_ok. apply compare_cell_ok. Qed.

Lemma mask_and_combine {A B : Type} (f : A -> bool) (g : B -> bool) l l' :
  mask_and (map f l) (map g l')
  = map (fun p => f (fst p) && g (snd p)) (combine l l').
Proof.
  unfold mask_and. revert l'. induction l as [| a l IH]; intros [| b l'];
    simpl; try reflexivity.
  rewrite IH. reflexivity.
Qed.

Lemma has_column_with_date_parsed env df c :
  c <> "date_parsed" ->
  has_column c (with_date_parsed env df) = has_column c df.
Proof.
  intros Hne. unfold with_date_parsed.
  destruct (has_column "date" df); [| reflexivity].
  unfold has_column, set_column.
  destruct (col_index "date_parsed" (columns df)); simpl; [reflexivity |].
  destruct (col_index c (columns df)) as [i |] eqn:Ei.
  - rewrite (col_index_app_l _ _ _ _ Ei). reflexivity.
  - rewrite (col_index_app_none _ _ _ Ei Hne). reflexivity.
Qed.

Lemma pair_count {A : Type} (f : value * value -> bool) c c' df (rs : list A) :
  has_column c df = true -> has_column c' df = true ->
  length rs = length (rows df) ->
  len_list (select (map f (combine (column c df) (column c' df))) rs)
  = len_list (List.filter f (combine (column c df) (column c' df))).
Proof.
  intros Hc Hc' Hrs. rewrite select_count; [apply count_true_map |].
  rewrite length_map, length_combine, !column_length by assumption. lia.
Qed.

Lemma check_consistency_logical env s :
  well_formed (current_df s) ->
  wp (check_consistency env)
    (fun r s' =>
       on_ok (fun c =>
         high_sat_high_wait c
           = (if has_column "patient_sat_score" (current_df s)
                 && has_column "patient_waittime" (current_df s)
              then
                Some (mkCountPct
                  (len_list (List.filter high_sat_and_wait
                     (combine (column "patient_sat_score" (current_df s))
                        (column "patient_waittime" (current_df s)))))
                  (percent_of
                     (len_list (List.filter high_sat_and_wait
                        (combine (column "patient_sat_score" (current_df s))
                           (column "patient_waittime" (current_df s)))))
                     (len (current_df s))))
              else None) /\
         pediatric_in_adult_dept c
           = (if has_column "patient_age" (current_df s)
                 && has_column "department_referral" (current_df s)
              then
                Some (len_list (List.filter pediatric_in_adult
                        (combine (column "patient_age" (current_df s))
                           (column "department_referral" (current_df s)))))
              else None))
         r)
    s.
Proof.
  intros Hwf. unfold check_consistency. wp_steps. set (df := current_df s) in *.
  match goal with
  | |- wp _ (bind_post ?k ?Q) _ =>
      assert (Hk : forall fd s',
                 current_df s' = with_date_parsed env df -> wp (k fd) Q s')
  end.
  { intros fd s' Hs'. wp_steps. rewrite Hs'.
    rewrite !has_column_with_date_parsed by discriminate.
    rewrite !with_date_parsed_other by (try exact Hwf; discriminate).
    pose proof (with_date_parsed_length env df) as Hrows.
    assert (Hlen' : len (with_date_parsed env df) = len df)
      by (unfold len; rewrite Hrows; reflexivity).
    destruct (has_column "patient_sat_score" df) eqn:Hsat;
      destruct (has_column "patient_waittime" df) eqn:Hwait; simpl andb; cbv iota.
    1: { wp_case Es. wp_case Ew. wp_case Hp.
         apply compare_series_ok in Es, Ew. subst.
         rewrite mask_and_combine in *.
         rewrite (pair_count (fun p => compares GE 8 (fst p)
                                       && compares GE 60 (snd p))
                    _ _ df _ Hsat Hwait Hrows) in *.
         apply percentage_percent_of in Hp. destruct Hp as [-> _].
         rewrite Hlen'.
         destruct (has_column "patient_age" df) eqn:Hage;
           destruct (has_column "department_referral" df) eqn:Hdept;
           simpl andb; cbv iota.
         1: { wp_case Ey. apply compare_series_ok in Ey. subst.
              rewrite mask_and_combine.
              rewrite (pair_count (fun p => compares LT 13 (fst p)
                                    && isin [VStr "Cardiology";
                                             VStr "Gastroenterology"] (snd p))
                         _ _ df _ Hage Hdept Hrows).
              simpl. split; reflexivity. }
         all: wp_steps; simpl; split; reflexivity. }
    all: wp_steps;
      destruct (has_column "patient_age" df) eqn:Hage;
      destruct (has_column "department_referral" df) eqn:Hdept;
      simpl andb; cbv iota;
      try (wp_steps; simpl; split; reflexivity).
    all: wp_case Ey; apply compare_series_ok in Ey; subst;
      rewrite mask_and_combine;
      rewrite (pair_count (fun p => compares LT 13 (fst p)
                            && isin [VStr "Cardiology";
                                     VStr "Gastroenterology"] (snd p))
                 _ _ df _ Hage Hdept Hrows);
      simpl; split; reflexivity. }
  destruct (has_column "date" df) eqn:Hd.
  - wp_steps. rewrite current_df_assign. fold df.
    wp_case Hlater. wp_case Hp.
    apply wp_when_append_df. intros s1 Hs1. cbv beta.
    apply wp_ret. unfold bind_post at 1. apply Hk.
    rewrite Hs1, current_df_assign. fold df.
    unfold with_date_parsed. rewrite Hd. reflexivity.
  - apply wp_ret. unfold bind_post at 1. apply Hk.
    unfold with_date_parsed. fold df. rewrite Hd. reflexivity.
Qed.

Lemma high_sat_and_wait_numbers q w :
  high_sat_and_wait (VNum q, VNum w) = true <-> (8 <= q)%Q /\ (60 <= w)%Q.
Proof.
  unfold high_sat_and_wait. simpl. rewrite andb_true_iff, !Qle_bool_iff.
  reflexivity.
Qed.

(** X13.  When [check_consistency] returns on a well-formed dataset, the
    count of [high_sat_high_wait] is the number of records with a
    satisfaction score of 8 or more and a waiting time of 60 or more (both
    bounds included), its percentage being taken in the number of records,
    and [pediatric_in_adult_dept] is the number of records with an age
    strictly under 13 and a referral to Cardiology or Gastroenterology; a
    record in which one of the two fields is null is not counted.  Each
    finding is present exactly when its two columns are. *)
Theorem logical_consistency_counts env s c :
  well_formed (current_df s) ->
  snd (check_consistency env s) = Ok c ->
  high_sat_high_wait c
    = (if has_column "patient_sat_score" (current_df s)
          && has_column "patient_waittime" (current_df s)
       then
         Some (mkCountPct
           (len_list (List.filter high_sat_and_wait
              (combine (column "patient_sat_score" (current_df s))
                 (column "patient_waittime" (current_df s)))))
           (percent_of
              (len_list (List.filter high_sat_and_wait
                 (combine (column "patient_sat_score" (current_df s))
                    (column "patient_waittime" (current_df s)))))
              (len (current_df s))))
       else None) /\
  pediatric_in_adult_dept c
    = (if has_column "patient_age" (current_df s)
          && has_column "department_referral" (current_df s)
       then
         Some (len_list (List.filter pediatric_in_adult
                 (combine (column "patient_age" (current_df s))
                    (column "department_referral" (current_df s)))))
       else None) /\
  (forall q w, high_sat_and_wait (VNum q, VNum w) = true
               <-> (8 <= q)%Q /\ (60 <= w)%Q) /\
  (forall v, high_sat_and_wait (VNull, v) = false
             /\ high_sat_and_wait (v, VNull) = false) /\
  (forall q d, pediatric_in_adult (VNum q, VStr d) = true
               <-> (q < 13)%Q /\ (d = "Cardiology" \/ d = "Gastroenterology")).
Proof.
  intros Hwf Hc.
  destruct (wp_outcome_ok _ _ _ _ (check_consistency_logical env s Hwf) Hc)
    as [H1 H2].
  split; [exact H1 |]. split; [exact H2 |].
  split; [exact high_sat_and_wait_numbers |]. split.
  - intros v. split; [reflexivity |].
    unfold high_sat_and_wait. simpl. apply andb_false_r.
  - intros q d. unfold pediatric_in_adult. simpl.
    rewrite andb_true_iff, Qltb_lt, !orb_true_iff, !String.eqb_eq.
    intuition discriminate.
Qed.

Lemma logical_consistency_counts_witness :
  high_sat_high_wait sample_consistency
    = Some (mkCountPct 1 (percent_of 1 5)) /\
  pediatric_in_adult_dept sample_consistency = Some 1%Z.
Proof.
  destruct (logical_consistency_counts (sample_env 20200401) sample_validator
              sample_consistency) as (H1 & H2 & _).
  - repeat constructor.
  - reflexivity.
  - split; [exact H1 | exact H2].
Defined.

(** ** Assigning [date_parsed] again *)

Lemma well_formed_set_column c vals df :
  well_formed df -> length vals = length (rows df) ->
  well_formed (set_column c vals df).
Proof.
  intros Hwf Hlen. unfold well_formed, set_column in *.
  destruct (col_index c (columns df)) as [i |]; simpl.
  - apply Forall_map. revert vals Hlen.
    induction Hwf as [| r l Hr Hwf IH]; intros [| v vals]; simpl;
      try discriminate; constructor.
    + simpl. rewrite length_insert. exact Hr.
    + apply IH. simpl in Hlen. lia.
  - apply Forall_map. revert vals Hlen.
    induction Hwf as [| r l Hr Hwf IH]; intros [| v vals]; simpl;
      try discriminate; constructor.
    + simpl. rewrite !length_app, Hr. reflexivity.
    + apply IH. simpl in Hlen. lia.
Qed.

Lemma has_column_set_column c vals df c' :
  has_column c' df = true -> has_column c' (set_column c vals df) = true.
Proof.
  unfold has_column, set_column.
  destruct (col_index c' (columns df)) as [j |] eqn:Ej; [| discriminate].
  intros _. destruct (col_index c (columns df)); simpl.
  - rewrite Ej. reflexivity.
  - rewrite (col_index_app_l _ _ _ _ Ej). reflexivity.
Qed.

(** Assigning the same values to the same column twice is assigning them
    once. *)
Lemma set_column_twice c vals df :
  well_formed df -> length vals = length (rows df) ->
  set_column c vals (set_column c vals df) = set_column c vals df.
Proof.
  intros Hwf Hlen. unfold set_column at 2 3.
  destruct (col_index c (columns df)) as [i |] eqn:Ei.
  - unfold set_column. simpl. rewrite Ei. f_equal.
    revert vals Hlen. induction (rows df) as [| r l IH]; intros [| v vals];
      simpl; try discriminate; [reflexivity |].
    intros [= H]. rewrite list_insert_insert_eq, IH by exact H. reflexivity.
  - unfold set_column. simpl. rewrite (col_index_app_new _ _ Ei). f_equal.
    revert vals Hlen. unfold well_formed in Hwf.
    induction Hwf as [| r l Hr Hwf IH]; intros [| v vals];
      simpl; try discriminate; [reflexivity |].
    intros [= H]. rewrite IH by exact H. f_equal.
    rewrite <- Hr, <- (Nat.add_0_r (length r)), insert_app_r. reflexivity.
Qed.

(** X14.  [check_consistency] changes the dataset only the first time: run
    again on a well-formed dataset, it assigns the same [date_parsed]
    column and leaves [self.df] as the first run left it. *)
Theorem check_consistency_twice env s :
  well_formed (current_df s) ->
  current_df (fst (check_consistency env (fst (check_consistency env s))))
  = current_df (fst (check_consistency env s)).
Proof.
  intros Hwf. rewrite !current_df_after_consistency.
  set (df := current_df s) in *. unfold with_date_parsed at 2 3.
  destruct (has_column "date" df) eqn:Hd.
  - assert (Hlen : length (to_datetime_coerce env (column "date" df))
                   = length (rows df)).
    { unfold to_datetime_coerce. rewrite length_map.
      apply column_length. exact Hd. }
    unfold with_date_parsed.
    rewrite (has_column_set_column _ _ _ _ Hd).
    rewrite set_column_other; [| exact Hwf | exact Hlen | discriminate | exact Hd].
    apply set_column_twice; assumption.
  - unfold with_date_parsed. rewrite Hd. reflexivity.
Qed.

Lemma check_consistency_twice_witness :
  current_df
    (fst (check_consistency (sample_env 20261104)
            (fst (check_consistency (sample_env 20261104) sample_validator))))
  = current_df (fst (check_consistency (sample_env 20261104) sample_validator)).
Proof.
  apply (check_consistency_twice (sample_env 20261104) sample_validator).
  repeat constructor.
Defined.

(** ** Categories and the date format *)

Lemma unique_from_In seen l x :
  In x (unique_from seen l) -> In x l /\ existsb (value_eqb x) seen = false.
Proof.
  revert seen. induction l as [| v l IH]; intros seen; simpl; [intros [] |].
  destruct (existsb (value_eqb v) seen) eqn:Ev.
  - intros H. destruct (IH _ H) as [H1 H2]. auto.
  - intros [<- | H]; [auto |].
    destruct (IH _ H) as [H1 H2]. simpl in H2.
    apply orb_false_iff in H2. destruct H2 as [_ H2]. auto.
Qed.

Lemma unique_from_covers seen l x :
  In x l ->
  existsb (value_eqb x) seen = true \/
  exists y, In y (unique_from seen l) /\ value_eqb x y = true.
Proof.
  revert seen. induction l as [| v l IH]; intros seen; simpl; [intros [] |].
  intros [-> | Hin].
  - destruct (existsb (value_eqb x) seen) eqn:Ex; [left; reflexivity |].
    right. exists x. split; [left; reflexivity | apply value_eqb_refl].
  - destruct (existsb (value_eqb v) seen) eqn:Ev.
    + apply IH. exact Hin.
    + destruct (IH (v :: seen) Hin) as [H | (y & Hy & Hxy)].
      * simpl in H. apply orb_true_iff in H. destruct H as [H | H].
        -- right. exists v. split; [left; reflexivity | exact H].
        -- left. exact H.
      * right. exists y. split; [right; exact Hy | exact Hxy].
Qed.

Lemma unique_from_distinct seen l :
  ForallOrdPairs (fun a b => value_eqb a b = false) (unique_from seen l).
Proof.
  revert seen. induction l as [| v l IH]; intros seen; simpl; [constructor |].
  destruct (existsb (value_eqb v) seen); [apply IH |].
  constructor; [| apply IH].
  apply List.Forall_forall. intros y Hy.
  apply unique_from_In in Hy. destruct Hy as [_ Hy]. simpl in Hy.
  apply orb_false_iff in Hy. destruct Hy as [Hy _].
  rewrite value_eqb_sym. exact Hy.
Qed.

Lemma to_datetime_error_none env col :
  to_datetime_error env col = None <-> Forall (parseable env) col.
Proof.
  induction col as [| v col IH]; simpl.
  - split; [constructor | reflexivity].
  - destruct (parse_cell env v) as [w |] eqn:Ev.
    + rewrite IH. split.
      * intros H. constructor; [| exact H]. unfold parseable.
        destruct v; simpl in Ev; eauto; right; right;
          destruct (parse_datetime env _); discriminate.
      * intros H. inversion H; assumption.
    + split; [discriminate |]. intros H. inversion H as [| ? ? Hv _]; subst.
      exfalso. destruct Hv as [-> | [[t ->] | Hv]]; try discriminate.
      destruct v; try discriminate; simpl in Ev;
        destruct (parse_datetime env _); try discriminate; contradiction.
Qed.

Lemma unique_when_nonempty (l : list value) :
  (if (0 <? len_list l)%Z then unique l else []) = unique l.
Proof. destruct l; reflexivity. Qed.

(** What [check_validity] reports on categories and on the date format. *)
Lemma check_validity_values env s :
  wp (check_validity env)
    (fun r s' =>
       on_ok (fun v =>
         (forall col e, In (col, e) (value_violations v) ->
            In (col, vv_expected_values e)
              (valid_values (self_config (self s))) /\
            has_column col (current_df s) = true /\
            vv_violations e
              = len_list (List.filter (not_permitted (vv_expected_values e))
                            (column col (current_df s))) /\
            vv_invalid_values e
              = unique (List.filter (not_permitted (vv_expected_values e))
                          (column col (current_df s)))) /\
         format_violations v
           = (if has_column "date" (current_df s) then
                Some match to_datetime_error env
                             (column "date" (current_df s)) with
                     | None => Valid
                     | Some e => Invalid e
                     end
              else None))
         r)
    s.
Proof.
  unfold check_validity. wp_steps. set (df := current_df s).
  set (cfg := self_config (self s)).
  apply (wp_for_fold _ _ (fun _ _ => True)); [| | exact I].
  - intros acc [col [lo hi]] s' _ _. simpl.
    destruct (has_column col df); [| wp_steps; exact I].
    wp_case Hvs. wp_case Hp. apply wp_when_append. intros s1. wp_steps.
    exact I.
  - intros ranges s1 _. wp_steps.
    apply (wp_for_fold _ _
             (fun acc _ => forall col e, In (col, e) acc ->
                In (col, vv_expected_values e) (valid_values cfg) /\
                has_column col df = true /\
                vv_violations e
                  = len_list (List.filter
                                (not_permitted (vv_expected_values e))
                                (column col df)) /\
                vv_invalid_values e
                  = unique (List.filter
                              (not_permitted (vv_expected_values e))
                              (column col df)))).
    + intros acc [col valid] s' Hin Hacc. simpl.
      destruct (has_column col df) eqn:Hcol; [| wp_steps; exact Hacc].
      wp_steps. apply wp_when_append. intros s2. wp_steps.
      intros col' e He. apply dict_set_In in He.
      destruct He as [[= -> ->] | He]; [| apply Hacc; exact He].
      simpl. rewrite unique_when_nonempty, select_map.
      repeat split; auto.
    + intros values s2 Hvalues. wp_steps.
      destruct (has_column "date" df).
      * destruct (to_datetime_error env (column "date" df));
          wp_steps; simpl; auto.
      * wp_steps. simpl. auto.
    + intros col e [].
Qed.

(** X15.  For a column with permitted values, the number of violations that
    [check_validity] reports is the number of cells that are not null and
    hold none of the permitted values, and [invalid_values] lists the
    offending values once each: every value listed is such a cell of the
    column, every such cell equals a value listed, no two values listed are
    equal, and the list is empty exactly when there is no violation. *)
Theorem invalid_values_listed_once env s v col e :
  snd (check_validity env s) = Ok v ->
  In (col, e) (value_violations v) ->
  vv_violations e
    = len_list (List.filter (not_permitted (vv_expected_values e))
                  (column col (current_df s))) /\
  (forall x, In x (vv_invalid_values e) ->
     In x (column col (current_df s)) /\
     not_permitted (vv_expected_values e) x = true) /\
  (forall x, In x (column col (current_df s)) ->
     not_permitted (vv_expected_values e) x = true ->
     exists y, In y (vv_invalid_values e) /\ value_eqb x y = true) /\
  ForallOrdPairs (fun a b => value_eqb a b = false) (vv_invalid_values e) /\
  (vv_violations e = 0%Z <-> vv_invalid_values e = []).
Proof.
  intros Hv He.
  destruct (wp_outcome_ok _ _ _ _ (check_validity_values env s) Hv) as [H _].
  destruct (H col e He) as (_ & _ & Hcount & Hvals).
  set (bad := List.filter (not_permitted (vv_expected_values e))
                (column col (current_df s))) in *.
  split; [exact Hcount |]. rewrite Hvals. unfold unique.
  split; [| split; [| split]].
  - intros x Hx. apply unique_from_In in Hx. destruct Hx as [Hx _].
    apply List.filter_In in Hx. exact Hx.
  - intros x Hx Hbad.
    destruct (unique_from_covers [] bad x) as [H0 | H0];
      [apply List.filter_In; auto | discriminate | exact H0].
  - apply unique_from_distinct.
  - rewrite Hcount. unfold len_list. destruct bad as [| b bad]; simpl.
    + split; reflexivity.
    + split; [lia | discriminate].
Qed.

Lemma invalid_values_listed_once_witness :
  1%Z = len_list (List.filter (not_permitted [VStr "M"; VStr "F"])
                    (column "patient_gender" sample_visits)) /\
  (forall x, In x [VStr "X"] ->
     In x (column "patient_gender" sample_visits) /\
     not_permitted [VStr "M"; VStr "F"] x = true) /\
  (forall x, In x (column "patient_gender" sample_visits) ->
     not_permitted [VStr "M"; VStr "F"] x = true ->
     exists y, In y [VStr "X"] /\ value_eqb x y = true) /\
  ForallOrdPairs (fun a b => value_eqb a b = false) [VStr "X"] /\
  (1%Z = 0%Z <-> [VStr "X"] = []).
Proof.
  exact (invalid_values_listed_once (sample_env 20261104) sample_validator
           sample_validity "patient_gender"
           (mkValueViolation [VStr "M"; VStr "F"] 1 [VStr "X"])
           eq_refl (or_introl eq_refl)).
Defined.

Lemma parse_cell_parseable env v :
  parseable env v <-> parse_cell env v <> None.
Proof.
  unfold parseable.
  destruct v; simpl; try (split; [discriminate | eauto]);
    (split;
     [ intros [H | [[t H] | H]]; try discriminate;
       destruct (parse_datetime env _); [discriminate | contradiction]
     | intros H; right; right;
       destruct (parse_datetime env _); [discriminate | contradiction] ]).
Qed.

(** [pd.to_datetime] fails on the first cell that it cannot parse. *)
Lemma to_datetime_error_first env pre x post :
  Forall (parseable env) pre -> ~ parseable env x ->
  to_datetime_error env (pre ++ x :: post) = Some (parse_error env x).
Proof.
  intros Hpre Hx. induction Hpre as [| v pre Hv _ IH]; simpl.
  - destruct (parse_cell env x) eqn:Ex; [| reflexivity].
    exfalso. apply Hx, parse_cell_parseable. congruence.
  - apply parse_cell_parseable in Hv.
    destruct (parse_cell env v); [exact IH | contradiction].
Qed.

(** The recommendation that [check_validity] appends last when the dates
    cannot be parsed. *)
Lemma check_validity_date_recommendation env s :
  wp (check_validity env)
    (fun r s' =>
       on_ok (fun _ =>
         forall e,
           has_column "date" (current_df s) = true ->
           to_datetime_error env (column "date" (current_df s)) = Some e ->
           exists earlier,
             recommendations (self s')
             = (earlier
                ++ [mkRec HIGH "Validity"
                      ("Date format issues detected: " +:+ e)
                      "Standardize date format to YYYY-MM-DD"])%list)
         r)
    s.
Proof.
  unfold check_validity. wp_steps. set (df := current_df s).
  apply (wp_for_fold _ _ (fun _ _ => True)); [| | exact I].
  - intros acc [col [lo hi]] s' _ _. simpl.
    destruct (has_column col df); [| wp_steps; exact I].
    wp_case Hvs. wp_case Hp. apply wp_when_append. intros s1. wp_steps.
    exact I.
  - intros ranges s1 _. wp_steps.
    apply (wp_for_fold _ _ (fun _ _ => True)); [| | exact I].
    + intros acc [col valid] s' _ _. simpl.
      destruct (has_column col df); [| wp_steps; exact I].
      wp_steps. apply wp_when_append. intros s2. wp_steps. exact I.
    + intros values s2 _. wp_steps.
      destruct (has_column "date" df).
      * destruct (to_datetime_error env (column "date" df)) as [e |];
          wp_steps; simpl.
        -- intros e' _ [= <-]. eexists. reflexivity.
        -- intros e' _ [=].
      * wp_steps. simpl. intros e' [=].
Qed.

(** X16.  The date format status of [check_validity]: without a [date]
    column there is none; with one, it is Valid exactly when every date is
    null, a timestamp or a value that the parser reads.  Otherwise it is
    Invalid with the message of the parser on the first date that it cannot
    read, and the last recommendation of the check is the HIGH one on the
    date format, which quotes that message. *)
Theorem date_format_status env s v :
  snd (check_validity env s) = Ok v ->
  (has_column "date" (current_df s) = false -> format_violations v = None) /\
  (has_column "date" (current_df s) = true ->
     (format_violations v = Some Valid <->
      Forall (parseable env) (column "date" (current_df s))) /\
     (forall pre x post,
        column "date" (current_df s) = (pre ++ x :: post)%list ->
        Forall (parseable env) pre -> ~ parseable env x ->
        format_violations v = Some (Invalid (parse_error env x)) /\
        exists earlier,
          recommendations (self (fst (check_validity env s)))
          = (earlier
             ++ [mkRec HIGH "Validity"
                   ("Date format issues detected: " +:+ parse_error env x)
                   "Standardize date format to YYYY-MM-DD"])%list)).
Proof.
  intros Hv.
  destruct (wp_outcome_ok _ _ _ _ (check_validity_values env s) Hv) as [_ H].
  pose proof (wp_outcome_ok _ _ _ _
                (check_validity_date_recommendation env s) Hv) as Hrec.
  simpl in Hrec.
  rewrite H. split; intros Hd; rewrite Hd; [reflexivity |].
  split.
  - rewrite <- to_datetime_error_none.
    destruct (to_datetime_error env (column "date" (current_df s)));
      split; try discriminate; reflexivity.
  - intros pre x post Hcol Hpre Hx.
    pose proof (to_datetime_error_first env pre x post Hpre Hx) as E.
    rewrite <- Hcol in E. rewrite E. split; [reflexivity |].
    apply Hrec; assumption.
Qed.

Lemma date_format_status_witness :
  (format_violations sample_validity = Some Valid /\
   Forall (parseable (sample_env 20261104)) (column "date" sample_visits)) /\
  format_violations misdated_validity
  = Some (Invalid "Unknown datetime string format") /\
  exists earlier,
    recommendations
      (self (fst (check_validity (sample_env 20261104) misdated_validator)))
    = (earlier
       ++ [mkRec HIGH "Validity"
             "Date format issues detected: Unknown datetime string format"
             "Standardize date format to YYYY-MM-DD"])%list.
Proof.
  split.
  - split; [reflexivity |].
    apply (proj1 (proj2 (date_format_status (sample_env 20261104)
                           sample_validator sample_validity eq_refl)
                    eq_refl)).
    reflexivity.
  - apply (proj2 (proj2 (date_format_status (sample_env 20261104)
                           misdated_validator misdated_validity eq_refl)
                    eq_refl)
             [VStr "2020-03-20"] (VStr "21/03/2020") [] eq_refl).
    + constructor; [right; right; discriminate | constructor].
    + intros [H | [[t H] | H]]; [discriminate | discriminate |].
      apply H. reflexivity.
Defined.

(** ** Quartiles and the statistical summary *)

Lemma insert_sorted_In x l y : In y (insert_sorted x l) <-> y = x \/ In y l.
Proof.
  induction l as [| z l IH]; simpl; [intuition |].
  destruct (Qle_bool x z); simpl; [intuition |].
  rewrite IH. intuition.
Qed.

Lemma insert_sorted_length x l : length (insert_sorted x l) = S (length l).
Proof.
  induction l as [| z l IH]; simpl; [reflexivity |].
  destruct (Qle_bool x z); simpl; [reflexivity | rewrite IH; reflexivity].
Qed.

Lemma insert_sorted_sorted x l : sorted_Q l -> sorted_Q (insert_sorted x l).
Proof.
  induction l as [| z l IH]; simpl; [auto |].
  intros [Hz Hl]. destruct (Qle_bool x z) eqn:E; simpl.
  - apply Qle_bool_iff in E. repeat split; auto.
    constructor; [exact E |].
    eapply List.Forall_impl; [| exact Hz]. intros y Hy. lra.
  - split; [| apply IH; exact Hl].
    apply List.Forall_forall. intros y Hy. apply insert_sorted_In in Hy.
    destruct Hy as [-> | Hy].
    + assert (Hlt : ~ (x <= z)%Q)
        by (intros H; apply Qle_bool_iff in H; congruence).
      lra.
    + rewrite List.Forall_forall in Hz. apply Hz. exact Hy.
Qed.

Lemma sort_Q_sorted l : sorted_Q (sort_Q l).
Proof.
  induction l as [| x l IH]; simpl; [exact I |].
  apply insert_sorted_sorted. exact IH.
Qed.

Lemma sort_Q_length l : length (sort_Q l) = length l.
Proof.
  induction l as [| x l IH]; simpl; [reflexivity |].
  rewrite insert_sorted_length, IH. reflexivity.
Qed.

Lemma sorted_nth l i j :
  sorted_Q l -> (i <= j < length l)%nat -> (nth i l 0 <= nth j l 0)%Q.
Proof.
  revert i j. induction l as [| x l IH]; intros i j Hs Hij; simpl in *; [lia |].
  destruct Hs as [Hx Hl].
  destruct i as [| i], j as [| j]; try lia.
  - lra.
  - rewrite List.Forall_forall in Hx. apply Hx. apply nth_In. lia.
  - apply IH; [exact Hl | lia].
Qed.

Lemma round_half_even_mono q q' :
  (q <= q')%Q -> (round_half_even q <= round_half_even q')%Z.
Proof.
  intros H. unfold round_half_even.
  pose proof (Qfloor_resp_le _ _ H) as Hf.
  destruct (Z.eq_dec (Qfloor q) (Qfloor q')) as [E | E].
  - rewrite <- E.
    destruct (Qcompare_spec (q - inject_Z (Qfloor q)) (1 # 2));
      destruct (Qcompare_spec (q' - inject_Z (Qfloor q)) (1 # 2));
      try destruct (Z.even (Qfloor q)); try lia; exfalso; lra.
  - destruct (q - inject_Z (Qfloor q) ?= 1 # 2)%Q;
      destruct (q' - inject_Z (Qfloor q') ?= 1 # 2)%Q;
      try destruct (Z.even (Qfloor q)); try destruct (Z.even (Qfloor q'));
      lia.
Qed.

Lemma round2_mono q q' : (q <= q')%Q -> (round2 q <= round2 q')%Q.
Proof.
  intros H. unfold round2.
  assert (H100 : (q * 100 <= q' * 100)%Q) by lra.
  pose proof (round_half_even_mono _ _ H100). unfold Qle. simpl. lia.
Qed.

Lemma round2_nonneg q : (0 <= q)%Q -> (0 <= round2 q)%Q.
Proof.
  intros H. apply Qle_trans with (round2 0); [| apply round2_mono; exact H].
  vm_compute. discriminate.
Qed.

Section Quantiles.
Variable xs : list Q.
Hypothesis Hxs : xs <> [].

Lemma sorted_nonempty : (0 < length (sort_Q xs))%nat.
Proof. rewrite sort_Q_length. destruct xs; [contradiction | simpl; lia]. Qed.

(** The quantile lies between the two order statistics it interpolates. *)
Lemma quantile_between p :
  (0 <= p <= 1)%Q ->
  exists k,
    (k < length (sort_Q xs))%nat /\
    Z.of_nat k = Qfloor (inject_Z (Z.of_nat (length (sort_Q xs) - 1)) * p) /\
    (nth k (sort_Q xs) 0 <= quantile p xs)%Q /\
    (quantile p xs <= nth (Nat.min (S k) (length (sort_Q xs) - 1)) (sort_Q xs) 0)%Q.
Proof.
  intros [Hp0 Hp1]. pose proof sorted_nonempty as Hn.
  pose proof (sort_Q_sorted xs) as Hs. unfold quantile.
  set (s := sort_Q xs) in *.
  set (n1 := Z.of_nat (length s - 1)).
  set (pos := (inject_Z n1 * p)%Q).
  assert (Hn1 : (0 <= inject_Z n1)%Q).
  { change 0%Q with (inject_Z 0). rewrite <- Zle_Qle. unfold n1. lia. }
  assert (Hpos0 : (0 <= pos)%Q) by (unfold pos; nra).
  assert (Hpos1 : (pos <= inject_Z n1)%Q) by (unfold pos; nra).
  assert (Hlo0 : (0 <= Qfloor pos)%Z).
  { rewrite <- (Qfloor_Z 0). apply Qfloor_resp_le. exact Hpos0. }
  assert (Hlo1 : (Qfloor pos <= n1)%Z).
  { rewrite <- (Qfloor_Z n1). apply Qfloor_resp_le. exact Hpos1. }
  pose proof (Qfloor_le pos) as Hfl. pose proof (Qlt_floor pos) as Hfu.
  rewrite inject_Z_plus in Hfu. change (inject_Z 1) with 1%Q in Hfu.
  set (k := Z.to_nat (Qfloor pos)).
  assert (Hk : (k <= length s - 1)%nat) by (unfold k, n1 in *; lia).
  exists k. split; [lia |]. split; [unfold k; lia |].
  set (a := nth k s 0%Q).
  destruct (Nat.eq_dec k (length s - 1)) as [Hlast | Hin].
  - rewrite (nth_overflow s a) by lia. rewrite Nat.min_r by lia.
    rewrite <- Hlast. fold a. split; nra.
  - rewrite (nth_indep s a 0%Q) by lia. rewrite Nat.min_l by lia.
    set (b := nth (S k) s 0%Q).
    assert (Hab : (a <= b)%Q) by (apply sorted_nth; [exact Hs | lia]).
    split; nra.
Qed.

Lemma quantile_mono p p' :
  (0 <= p)%Q -> (p <= p')%Q -> (p' <= 1)%Q ->
  (quantile p xs <= quantile p' xs)%Q.
Proof.
  intros Hp0 Hpp Hp1. pose proof (sort_Q_sorted xs) as Hs.
  destruct (quantile_between p) as (k & Hk & Ek & Hlo & Hhi); [lra |].
  destruct (quantile_between p') as (k' & Hk' & Ek' & Hlo' & Hhi'); [lra |].
  set (s := sort_Q xs) in *.
  set (n1 := Z.of_nat (length s - 1)) in *.
  assert (Hn1 : (0 <= inject_Z n1)%Q).
  { change 0%Q with (inject_Z 0). rewrite <- Zle_Qle. unfold n1. lia. }
  assert (Hpos : (inject_Z n1 * p <= inject_Z n1 * p')%Q) by nra.
  pose proof (Qfloor_resp_le _ _ Hpos) as Hfl.
  destruct (Nat.eq_dec k k') as [<- | Hne].
  - unfold quantile. fold s. fold n1. rewrite <- Ek, <- Ek'. clear Ek'.
    rewrite Nat2Z.id.
    set (a := nth k s 0%Q). set (b := nth (S k) s a).
    assert (Hab : (a <= b)%Q).
    { unfold b. destruct (Nat.eq_dec k (length s - 1)) as [Hlast | Hin].
      - rewrite (nth_overflow s a) by lia. lra.
      - rewrite (nth_indep s a 0%Q) by lia. apply sorted_nth; [exact Hs | lia]. }
    nra.
  - apply Qle_trans with (nth k' s 0%Q); [| exact Hlo'].
    eapply Qle_trans; [exact Hhi |].
    apply sorted_nth; [exact Hs | lia].
Qed.

Lemma quartiles_ordered :
  (quantile (1 # 4) xs <= quantile (3 # 4) xs)%Q.
Proof. apply quantile_mono; lra. Qed.
End Quantiles.









Lemma numeric_values_nonempty col xs :
  numeric_values col = Ok xs -> existsb notna col = true -> xs <> [].
Proof.
  revert xs. induction col as [| v col IH]; intros xs; simpl; [discriminate |].
  destruct v; try discriminate.
  - simpl. apply IH.
  - destruct (numeric_values col); [| discriminate].
    intros [= <-] _. discriminate.
Qed.

(** The statistics that [check_accuracy] reports for a column are those of
    its non-null values, of which there is at least one. *)
Lemma check_accuracy_statistics s :
  wp check_accuracy
    (fun r s' =>
       on_ok (fun a =>
         (forall col o, In (col, o) (outliers a) ->
            exists xs,
              xs <> [] /\
              out_Q1 o = Fin (round2 (quantile (1 # 4) xs)) /\
              out_Q3 o = Fin (round2 (quantile (3 # 4) xs)) /\
              out_IQR o
                = Fin (round2 (quantile (3 # 4) xs - quantile (1 # 4) xs)) /\
              out_lower_bound o
                = Fin (round2 (quantile (1 # 4) xs
                               - (3 # 2) * (quantile (3 # 4) xs
                                            - quantile (1 # 4) xs))) /\
              out_upper_bound o
                = Fin (round2 (quantile (3 # 4) xs
                               + (3 # 2) * (quantile (3 # 4) xs
                                            - quantile (1 # 4) xs)))) /\
         (forall col m, In (col, m) (statistical_summary a) ->
            exists xs,
              xs <> [] /\
              sum_mean m = Fin (round2 (mean xs)) /\
              sum_median m = Fin (round2 (quantile (1 # 2) xs)) /\
              sum_min m = Fin (round2 (min_Q xs)) /\
              sum_max m = Fin (round2 (max_Q xs))))
         r)
    s.
Proof.
  unfold check_accuracy. wp_steps. set (df := current_df s).
  apply (wp_for_fold _ _
           (fun acc _ =>
              (forall col o, In (col, o) (outliers acc) ->
                 exists xs,
                   xs <> [] /\
                   out_Q1 o = Fin (round2 (quantile (1 # 4) xs)) /\
                   out_Q3 o = Fin (round2 (quantile (3 # 4) xs)) /\
                   out_IQR o
                     = Fin (round2 (quantile (3 # 4) xs
                                    - quantile (1 # 4) xs)) /\
                   out_lower_bound o
                     = Fin (round2 (quantile (1 # 4) xs
                                    - (3 # 2) * (quantile (3 # 4) xs
                                                 - quantile (1 # 4) xs))) /\
                   out_upper_bound o
                     = Fin (round2 (quantile (3 # 4) xs
                                    + (3 # 2) * (quantile (3 # 4) xs
                                                 - quantile (1 # 4) xs)))) /\
              (forall col m, In (col, m) (statistical_summary acc) ->
                 exists xs,
                   xs <> [] /\
                   sum_mean m = Fin (round2 (mean xs)) /\
                   sum_median m = Fin (round2 (quantile (1 # 2) xs)) /\
                   sum_min m = Fin (round2 (min_Q xs)) /\
                   sum_max m = Fin (round2 (max_Q xs))))).
  - intros acc col s' _ [Hout Hsum].
    destruct (has_column col df); simpl; [| wp_steps; split; assumption].
    destruct (existsb notna (column col df)) eqn:Hany;
      [| wp_steps; split; assumption].
    wp_case Hxs. wp_case Hfound. wp_case Hp.
    apply wp_when_append. intros s1. wp_steps.
    pose proof (numeric_values_nonempty _ _ Hxs Hany) as Hne.
    split.
    + intros col' o Ho. simpl in Ho. apply dict_set_In in Ho.
      destruct Ho as [[= -> ->] | Ho]; [| eapply Hout; exact Ho].
      exists a. simpl. repeat split; auto.
    + intros col' m Hm. simpl in Hm. apply dict_set_In in Hm.
      destruct Hm as [[= -> ->] | Hm]; [| eapply Hsum; exact Hm].
      exists a. simpl. repeat split; auto.
  - intros acc s1 Hacc. wp_steps. simpl. exact Hacc.
  - split; intros col o [].
Qed.

(** X17.  In every outlier entry of [check_accuracy] the reported numbers
    are in order: lower bound, first quartile, third quartile, upper bound,
    and the interquartile range is not negative (floats being read as exact
    rationals). *)
Theorem outlier_fences_ordered s a col o :
  snd (check_accuracy s) = Ok a ->
  In (col, o) (outliers a) ->
  exists lo q1 q3 hi iqr,
    out_lower_bound o = Fin lo /\ out_Q1 o = Fin q1 /\ out_Q3 o = Fin q3 /\
    out_upper_bound o = Fin hi /\ out_IQR o = Fin iqr /\
    (lo <= q1)%Q /\ (q1 <= q3)%Q /\ (q3 <= hi)%Q /\ (0 <= iqr)%Q.
Proof.
  intros Ha Ho.
  destruct (wp_outcome_ok _ _ _ _ (check_accuracy_statistics s) Ha) as [H _].
  destruct (H col o Ho) as (xs & Hxs & E1 & E3 & EI & EL & EU).
  pose proof (quartiles_ordered xs Hxs) as Hq.
  do 5 eexists. repeat (split; [eassumption |]).
  split; [apply round2_mono; lra |].
  split; [apply round2_mono; exact Hq |].
  split; [apply round2_mono; lra |].
  apply round2_nonneg. lra.
Qed.

Lemma outlier_fences_ordered_witness :
  exists lo q1 q3 hi iqr,
    Fin (3650 # 100) = Fin lo /\ Fin (5600 # 100) = Fin q1 /\
    Fin (6900 # 100) = Fin q3 /\ Fin (8850 # 100) = Fin hi /\
    Fin (1300 # 100) = Fin iqr /\
    (lo <= q1)%Q /\ (q1 <= q3)%Q /\ (q3 <= hi)%Q /\ (0 <= iqr)%Q.
Proof.
  exact (outlier_fences_ordered sample_validator sample_accuracy "patient_age"
           (mkOutliers 2 (Fin (4000 # 100)) (Fin (3650 # 100))
              (Fin (8850 # 100)) (Fin (5600 # 100)) (Fin (6900 # 100))
              (Fin (1300 # 100)))
           eq_refl (or_introl eq_refl)).
Defined.



(** ** The entry point and the master script *)

Lemma run_raises_with_uniqueness env s :
  (forall u, snd (check_uniqueness (fst (check_completeness s))) <> Ok u) ->
  forall r, snd (run_all_validations env s) <> Ok r.
Proof.
  intros Hu r Hr.
  destruct (run_all_validations env s) as [s' r'] eqn:Hrun. simpl in Hr.
  subst r'. unfold run_all_validations in Hrun.
  apply bind_ok in Hrun as (s1 & c1 & E1 & Hrun).
  apply bind_ok in Hrun as (s2 & u2 & E2 & _).
  apply (Hu u2). rewrite E1. simpl. rewrite E2. reflexivity.
Qed.

Lemma check_uniqueness_needs_records_and_keys s u :
  snd (check_uniqueness s) = Ok u ->
  rows (current_df s) <> [] /\
  has_column "patient_id" (current_df s) = true /\
  has_column "date" (current_df s) = true.
Proof.
  intros Hu.
  destruct (wp_outcome_ok _ _ _ _ (check_uniqueness_counts s) Hu)
    as (i & j & Hi & Hj & Hne & _).
  unfold has_column. rewrite Hi, Hj. repeat split.
  intros Hrows. unfold df_empty in Hne. rewrite Hrows in Hne. discriminate.
Qed.

(** X19.  [main] returns False, whatever the export would do, when the
    dataset that is read has no record or lacks the column [patient_id] or
    the column [date]: [check_uniqueness] raises and the exception is
    caught. *)
Theorem main_fails_without_records_or_keys env io df :
  read_csv io = Some df ->
  rows df = [] \/ has_column "patient_id" df = false
  \/ has_column "date" df = false ->
  main env io = false.
Proof.
  intros Hread Hbad. unfold main. rewrite Hread.
  set (s := __init__ (caller_heap df) 0%nat None).
  destruct (run_all_validations env s) as [s' [r |]] eqn:Hrun; [| reflexivity].
  exfalso. apply (run_raises_with_uniqueness env s) with (r := r).
  - intros u Hu.
    apply check_uniqueness_needs_records_and_keys in Hu.
    rewrite (current_df_unchanged check_completeness s
               (fun I H1 H2 => check_completeness_stable I H1 H2)) in Hu.
    assert (Hcur : current_df s = df).
    { apply (init_self_df (caller_heap df) 0%nat None df). reflexivity. }
    rewrite Hcur in Hu. destruct Hu as (H1 & H2 & H3).
    destruct Hbad as [H | [H | H]]; congruence.
  - rewrite Hrun. reflexivity.
Qed.

Lemma main_fails_without_records_or_keys_witness :
  main (sample_env 20261104) (sample_io empty_visits) = false /\
  main (sample_env 20261104) (sample_io boundary_ages) = false.
Proof.
  split.
  - apply (main_fails_without_records_or_keys (sample_env 20261104)
             (sample_io empty_visits) empty_visits eq_refl).
    left. reflexivity.
  - apply (main_fails_without_records_or_keys (sample_env 20261104)
             (sample_io boundary_ages) boundary_ages eq_refl).
    right. left. reflexivity.
Defined.

Lemma check_consistency_time_zone env s :
  has_column "date" (current_df s) = true ->
  tz_aware env (column "date" (current_df s)) = true ->
  check_consistency env s
  = (fst (assign_column "date_parsed"
            (to_datetime_coerce env (column "date" (current_df s))) s),
     Raise TypeError).
Proof.
  intros Hd Htz. unfold check_consistency.
  unfold bind at 1. unfold get_df at 1. fold (current_df s).
  rewrite Hd. unfold bind at 1. unfold bind at 1.
  unfold assign_column at 1. unfold bind at 1. unfold get_df at 1.
  unfold bind at 1. unfold lift at 1. unfold after_now_series.
  rewrite Htz. reflexivity.
Qed.

Lemma first_checks_keep_df env s s1 c1 s2 u2 s3 v3 :
  check_completeness s = (s1, Ok c1) ->
  check_uniqueness s1 = (s2, Ok u2) ->
  check_validity env s2 = (s3, Ok v3) ->
  current_df s3 = current_df s.
Proof.
  intros E1 E2 E3.
  pose proof (current_df_unchanged check_completeness s
                (fun I H1 H2 => check_completeness_stable I H1 H2)) as D1.
  pose proof (current_df_unchanged check_uniqueness s1
                (fun I H1 H2 => check_uniqueness_stable I H1 H2)) as D2.
  pose proof (current_df_unchanged (check_validity env) s2
                (fun I H1 H2 => check_validity_stable I H1 env H2)) as D3.
  rewrite E1 in D1. rewrite E2 in D2. rewrite E3 in D3. simpl in *.
  congruence.
Qed.

Lemma run_raises_with_time_zone env s :
  has_column "date" (current_df s) = true ->
  tz_aware env (column "date" (current_df s)) = true ->
  forall r, snd (run_all_validations env s) <> Ok r.
Proof.
  intros Hd Htz r Hr.
  destruct (run_all_validations env s) as [s' r'] eqn:Hrun. simpl in Hr.
  subst r'. unfold run_all_validations in Hrun.
  apply bind_ok in Hrun as (s1 & c1 & E1 & Hrun).
  apply bind_ok in Hrun as (s2 & u2 & E2 & Hrun).
  apply bind_ok in Hrun as (s3 & v3 & E3 & Hrun).
  apply bind_ok in Hrun as (s4 & co4 & E4 & _).
  pose proof (first_checks_keep_df env s s1 c1 s2 u2 s3 v3 E1 E2 E3) as D.
  rewrite check_consistency_time_zone in E4; rewrite ?D; try assumption.
  discriminate.
Qed.

(** X20.  [main] on a dataset with a [date] column.  When its dates carry
    a time zone, [main] returns False: the comparison of the parsed dates
    with [datetime.now()] raises and the exception is caught.  When they
    carry none and the dataset is well-formed, has records, has its
    [patient_id] column and holds numbers or nulls in the columns that the
    default configuration treats as numbers, the validation itself cannot
    fail: [main] returns True exactly when the reports can be written. *)
Theorem main_outcome_by_time_zone env io df :
  read_csv io = Some df ->
  has_column "date" df = true ->
  (tz_aware env (column "date" df) = true -> main env io = false) /\
  (tz_aware env (column "date" df) = false ->
   df_empty df = false -> has_column "patient_id" df = true ->
   well_typed _default_config df ->
   main env io
   = export_ok io
       (fst (run_all_validations env (__init__ (caller_heap df) 0%nat None)))).
Proof.
  intros Hread Hdate. unfold main. rewrite Hread.
  set (s := __init__ (caller_heap df) 0%nat None).
  assert (Hcur : current_df s = df).
  { apply (init_self_df (caller_heap df) 0%nat None df). reflexivity. }
  split.
  - intros Htz.
    destruct (run_all_validations env s) as [s' [r |]] eqn:Hrun;
      [| reflexivity].
    exfalso. apply (run_raises_with_time_zone env s) with (r := r);
      rewrite ?Hcur; try assumption.
    rewrite Hrun. reflexivity.
  - intros Htz Hne Hpid Hwt.
    destruct (run_all_validations_returns env s) as (s' & r & Hrun & Hscored);
      try (rewrite Hcur; assumption).
    rewrite Hrun. simpl.
    destruct Hscored as (o & _ & _ & _ & _ & _ & _ & _ & Ho & _).
    rewrite Ho. destruct (export_ok io s'); reflexivity.
Qed.

Lemma main_outcome_by_time_zone_witness :
  main (sample_env 20261104) (sample_io utc_visits) = false /\
  main (sample_env 20261104) (sample_io sample_visits) = true.
Proof.
  split.
  - apply (proj1 (main_outcome_by_time_zone (sample_env 20261104)
                    (sample_io utc_visits) utc_visits eq_refl eq_refl)).
    reflexivity.
  - apply (proj2 (main_outcome_by_time_zone (sample_env 20261104)
                    (sample_io sample_visits) sample_visits eq_refl eq_refl));
      try reflexivity.
    split; [repeat constructor |]. split; [reflexivity |].
    intros c Hc. simpl in Hc.
    repeat (destruct Hc as [<- | Hc]; [reflexivity |]). destruct Hc.
Defined.

(** X21.  The master script returns False at once, running nothing else,
    when the database setup fails.  Otherwise it runs the three other steps
    and returns True exactly when at least two of them succeed (a success
    rate of 75 or more): in particular a failed data quality validation
    alone does not make it fail. *)
Theorem master_main_outcome c :
  fst (run_all_analytics.main c)
  = run_all_analytics.run_database_setup c
    && (2 <=? Z.b2z (run_all_analytics.run_data_quality_validation c)
              + Z.b2z (run_all_analytics.run_performance_reports c)
              + Z.b2z (run_all_analytics.run_visualizations c))%Z /\
  snd (run_all_analytics.main c)
  = (if run_all_analytics.run_database_setup c
     then ["database_setup"; "data_quality"; "performance_reports";
           "visualizations"]
     else ["database_setup"]) /\
  (run_all_analytics.run_database_setup c = true ->
   run_all_analytics.run_performance_reports c = true ->
   run_all_analytics.run_visualizations c = true ->
   fst (run_all_analytics.main c) = true).
Proof.
  unfold run_all_analytics.main.
  destruct (run_all_analytics.run_database_setup c);
    destruct (run_all_analytics.run_data_quality_validation c);
    destruct (run_all_analytics.run_performance_reports c);
    destruct (run_all_analytics.run_visualizations c);
    repeat split; try reflexivity; discriminate.
Qed.

(** ** Runs that raise *)

Lemma wp_of_stable {A : Type} (I : State -> Prop) (m : M A) Q s :
  stable I m -> I s -> (forall r s', I s' -> Q r s') -> wp m Q s.
Proof. intros Hm Hs HQ. apply HQ. apply Hm. exact Hs. Qed.

Lemma overall_kept_recs_blind o :
  recs_blind (fun s => overall (validation_results (self s)) = o).
Proof. intros r s H. exact H. Qed.

Lemma overall_kept_assign_blind o :
  assign_blind (fun s => overall (validation_results (self s)) = o).
Proof. intros c vals s H. exact H. Qed.

Lemma checks_keep_overall env o :
  stable (fun s => overall (validation_results (self s)) = o)
    check_completeness /\
  stable (fun s => overall (validation_results (self s)) = o)
    check_uniqueness /\
  stable (fun s => overall (validation_results (self s)) = o)
    (check_validity env) /\
  stable (fun s => overall (validation_results (self s)) = o)
    (check_consistency env) /\
  stable (fun s => overall (validation_results (self s)) = o)
    check_accuracy.
Proof.
  pose proof (overall_kept_recs_blind o) as Hrecs.
  pose proof (overall_kept_assign_blind o) as Hassign.
  assert (HK : forall f : Results -> Results,
             (forall r, overall (f r) = overall r) ->
             stable (fun s => overall (validation_results (self s)) = o)
               (update_results f)).
  { intros f Hf s Hs. simpl. rewrite Hf. exact Hs. }
  repeat split.
  - unfold check_completeness.
    repeat first [apply HK; reflexivity | stable_step].
  - unfold check_uniqueness.
    repeat first [apply HK; reflexivity | stable_step].
  - unfold check_validity.
    repeat first [apply HK; reflexivity | stable_step].
  - unfold check_consistency.
    repeat first [apply HK; reflexivity | stable_step].
  - unfold check_accuracy.
    repeat first [apply HK; reflexivity | stable_step].
Qed.

(** X22.  A run that raises writes no [overall] entry: whatever the
    exception and whichever check or score raised it, the [overall] entry of
    the validator's results is the one from before the run (none, on a new
    validator). *)
Theorem failed_run_writes_no_overall env s e :
  snd (run_all_validations env s) = Raise e ->
  overall (validation_results (self (fst (run_all_validations env s))))
  = overall (validation_results (self s)).
Proof.
  intros Hraise.
  set (I := fun s' : State =>
              overall (validation_results (self s'))
              = overall (validation_results (self s))).
  assert (H : wp (run_all_validations env)
                (fun r s' => match r with Raise _ => I s' | Ok _ => True end)
                s).
  { destruct (checks_keep_overall env (overall (validation_results (self s))))
      as (H1 & H2 & H3 & H4 & H5).
    unfold run_all_validations.
    apply wp_bind. apply (wp_of_stable I); [exact H1 | reflexivity |].
    intros [c1 | x] s1 Hs1; [| exact Hs1]. unfold bind_post.
    apply wp_bind. apply (wp_of_stable I); [exact H2 | exact Hs1 |].
    intros [u2 | x] s2 Hs2; [| exact Hs2]. unfold bind_post.
    apply wp_bind. apply (wp_of_stable I); [exact H3 | exact Hs2 |].
    intros [v3 | x] s3 Hs3; [| exact Hs3]. unfold bind_post.
    apply wp_bind. apply (wp_of_stable I); [exact H4 | exact Hs3 |].
    intros [co4 | x] s4 Hs4; [| exact Hs4]. unfold bind_post.
    apply wp_bind. apply (wp_of_stable I); [exact H5 | exact Hs4 |].
    intros [a5 | x] s5 Hs5; [| exact Hs5]. unfold bind_post.
    wp_steps.
    apply (wp_of_stable I);
      [apply stable_lookup_result | exact Hs5 |].
    intros [c | x] s6 Hs6; [| exact Hs6]. wp_steps.
    apply (wp_of_stable I);
      [apply stable_lookup_result | exact Hs6 |].
    intros [u | x] s7 Hs7; [| exact Hs7]. wp_steps.
    apply (wp_of_stable I);
      [apply calculate_validity_score_stable | exact Hs7 |].
    intros [vs | x] s8 Hs8; [| exact Hs8]. wp_steps.
    apply (wp_of_stable I);
      [apply calculate_consistency_score_stable | exact Hs8 |].
    intros [cs | x] s9 Hs9; [| exact Hs9]. wp_steps.
    apply (wp_of_stable I);
      [apply calculate_accuracy_score_stable | exact Hs9 |].
    intros [acs | x] s10 Hs10; [| exact Hs10]. wp_steps. exact Logic.I. }
  unfold wp in H. rewrite Hraise in H. exact H.
Qed.

Lemma failed_run_writes_no_overall_witness :
  overall (validation_results
             (self (fst (validate (sample_env 20261104) empty_visits None))))
  = None.
Proof.
  exact (failed_run_writes_no_overall (sample_env 20261104)
           (__init__ (caller_heap empty_visits) 0%nat None) ZeroDivisionError
           eq_refl).
Defined.

Lemma check_completeness_keeps (K : Results -> Prop) :
  (forall r x, K r ->
     K (mkResults (Some x) (uniqueness r) (validity r) (consistency r)
          (accuracy r) (overall r))) ->
  stable (results_inv K) check_completeness.
Proof.
  intros HK. pose proof (results_inv_recs_blind K) as Hrecs.
  unfold check_completeness. keeps_auto HK.
Qed.

(** X23.  A run on dates that carry a time zone fails in
    [check_consistency].  On a well-formed dataset that has records, has its
    [patient_id] and [date] columns and holds numbers or nulls in the
    columns treated as numbers, [run_all_validations] raises TypeError.  By
    then [check_completeness], [check_uniqueness] and [check_validity] have
    returned and stored their entries and their recommendations, and the
    column [date_parsed] has been assigned in the validator's dataset; the
    [consistency], [accuracy] and [overall] entries are those from before
    the run and no recommendation of [check_consistency] is appended. *)
Theorem run_fails_on_dates_with_time_zone env s :
  df_empty (current_df s) = false ->
  has_column "patient_id" (current_df s) = true ->
  has_column "date" (current_df s) = true ->
  well_typed (self_config (self s)) (current_df s) ->
  tz_aware env (column "date" (current_df s)) = true ->
  snd (run_all_validations env s) = Raise TypeError /\
  current_df (fst (run_all_validations env s))
    = with_date_parsed env (current_df s) /\
  (exists s1 c s2 u s3 v,
     check_completeness s = (s1, Ok c) /\
     check_uniqueness s1 = (s2, Ok u) /\
     check_validity env s2 = (s3, Ok v) /\
     validation_results (self (fst (run_all_validations env s)))
     = mkResults (Some c) (Some u) (Some v)
         (consistency (validation_results (self s)))
         (accuracy (validation_results (self s)))
         (overall (validation_results (self s))) /\
     recommendations (self (fst (run_all_validations env s)))
     = recommendations (self s3)).
Proof.
  intros Hne Hpid Hdate (Hwf & Hdp & Hnum) Htz.
  set (df := current_df s) in *. set (cfg := self_config (self s)) in *.
  destruct (df_empty_false _ Hne) as [Hlen _].
  pose (IC := fun s0 : State => self_config (self s0) = cfg).
  pose proof (config_recs_blind cfg) as B1.
  pose proof (config_results_blind cfg) as B2.
  destruct (outcome_of _ _ (check_completeness_returns s)) as (s1 & c1 & E1).
  pose proof (current_df_unchanged check_completeness s
                (fun I H1 H2 => check_completeness_stable I H1 H2)) as D1.
  rewrite E1 in D1. simpl in D1. fold df in D1.
  pose proof (stable_outcome IC _ _ _ _ (check_completeness_stable IC B1 B2)
                E1 eq_refl) as C1.
  destruct (outcome_of _ _ (check_uniqueness_returns s1
              ltac:(rewrite D1; exact Hne) ltac:(rewrite D1; exact Hpid)
              ltac:(rewrite D1; exact Hdate))) as (s2 & u2 & E2).
  pose proof (current_df_unchanged check_uniqueness s1
                (fun I H1 H2 => check_uniqueness_stable I H1 H2)) as D2.
  rewrite E2, D1 in D2. simpl in D2.
  pose proof (stable_outcome IC _ _ _ _ (check_uniqueness_stable IC B1 B2)
                E2 C1) as C2.
  assert (Hv : returns (check_validity env) s2).
  { apply check_validity_returns; rewrite D2; [exact Hlen |].
    intros c Hc. apply Hnum. unfold numeric_names.
    rewrite C2 in Hc. apply in_app_iff. left. exact Hc. }
  destruct (outcome_of _ _ Hv) as (s3 & v3 & E3).
  pose proof (current_df_unchanged (check_validity env) s2
                (fun I H1 H2 => check_validity_stable I H1 env H2)) as D3.
  rewrite E3, D2 in D3. simpl in D3.
  pose proof (check_consistency_time_zone env s3
                ltac:(rewrite D3; exact Hdate) ltac:(rewrite D3; exact Htz))
    as E4.
  assert (Hrun : run_all_validations env s
                 = (fst (assign_column "date_parsed"
                           (to_datetime_coerce env (column "date" df)) s3),
                    Raise TypeError)).
  { unfold run_all_validations.
    rewrite (bind_eq _ _ _ _ _ E1), (bind_eq _ _ _ _ _ E2),
      (bind_eq _ _ _ _ _ E3).
    unfold bind at 1. rewrite E4, D3. reflexivity. }
  set (s4 := fst (assign_column "date_parsed"
                    (to_datetime_coerce env (column "date" df)) s3)) in Hrun.
  rewrite Hrun. cbn [fst snd].
  split; [reflexivity |]. split.
  { unfold s4. rewrite current_df_assign, D3. unfold with_date_parsed.
    fold df. rewrite Hdate. reflexivity. }
  (* the entries of the first three checks *)
  pose proof (wp_outcome _ _ _ _ _ E1 (check_completeness_content s))
    as (_ & _ & _ & Hr1). simpl in Hr1.
  pose proof (wp_outcome _ _ _ _ _ E2 (check_uniqueness_content s1))
    as (_ & _ & _ & _ & Hr2). simpl in Hr2.
  pose proof (wp_outcome _ _ _ _ _ E3 (check_validity_content env s2))
    as (_ & _ & Hr3). simpl in Hr3.
  exists s1, c1, s2, u2, s3, v3.
  split; [exact E1 |]. split; [exact E2 |]. split; [exact E3 |].
  split; [| reflexivity].
  pose (K := fun r : Results =>
               consistency r = consistency (validation_results (self s)) /\
               accuracy r = accuracy (validation_results (self s)) /\
               overall r = overall (validation_results (self s))).
  assert (HK : results_inv K s3).
  { apply (stable_outcome _ _ _ _ _
             (check_validity_keeps K env (fun _ _ H => H)) E3).
    apply (stable_outcome _ _ _ _ _
             (check_uniqueness_keeps K (fun _ _ H => H)) E2).
    apply (stable_outcome _ _ _ _ _
             (check_completeness_keeps K (fun _ _ H => H)) E1).
    repeat split. }
  assert (K1 : completeness (validation_results (self s3)) = Some c1).
  { pose (K' := fun r : Results => completeness r = Some c1).
    apply (stable_outcome _ _ _ _ _
             (check_validity_keeps K' env (fun _ _ H => H)) E3).
    apply (stable_outcome _ _ _ _ _
             (check_uniqueness_keeps K' (fun _ _ H => H)) E2).
    exact Hr1. }
  assert (K2 : uniqueness (validation_results (self s3)) = Some u2).
  { pose (K' := fun r : Results => uniqueness r = Some u2).
    apply (stable_outcome _ _ _ _ _
             (check_validity_keeps K' env (fun _ _ H => H)) E3).
    exact Hr2. }
  destruct HK as (K4 & K5 & K6).
  change (validation_results (self s3)
          = mkResults (Some c1) (Some u2) (Some v3)
              (consistency (validation_results (self s)))
              (accuracy (validation_results (self s)))
              (overall (validation_results (self s)))).
  destruct (validation_results (self s3)); simpl in *. congruence.
Qed.

Lemma run_fails_on_dates_with_time_zone_witness :
  snd (validate (sample_env 20261104) utc_visits None) = Raise TypeError /\
  has_column "date_parsed"
    (current_df (fst (validate (sample_env 20261104) utc_visits None)))
  = true.
Proof.
  destruct (run_fails_on_dates_with_time_zone (sample_env 20261104)
              (__init__ (caller_heap utc_visits) 0%nat None))
    as (H1 & H2 & _); try reflexivity.
  - split; [repeat constructor |]. split; [reflexivity |].
    intros c Hc. simpl in Hc.
    repeat (destruct Hc as [<- | Hc]; [reflexivity |]). destruct Hc.
  - split; [exact H1 |]. unfold validate. rewrite H2. reflexivity.
Defined.
